(** * Wallet and usage ledger of the billing subsystem

    A shallow embedding of
      - packages/database/src/models/wallet.ts   (WalletModel, and the
        BillingModel of the same directory)
      - src/services/billing/index.ts            (BillingService)
      - src/config/billing.ts                    (BILLING_CONFIG)
    and the properties of the credit ledger proved about it.

    Conventions.
      - Credit amounts are JavaScript numbers that hold integers; inside the
        safe-integer range their arithmetic is exact, so they are integers
        of [Z] here.  The two places where the code multiplies by a
        non-integral constant (1.2 and 0.01) go through binary64 rounding,
        which is written out in [Module Js].
      - The three tables are the fields of [DB]: the wallet table is keyed by
        its primary key [userId], the two logs are lists in insertion order.
      - An asynchronous method is a computation of the monad [M]: it reads and
        writes the database and either returns or throws.
      - [new Date()] and the [defaultNow()] column default read the clock; the
        reading is the parameter [now] of each operation.
      - The credit columns are [integer] columns (int4) and the cost column
        is [numeric(10,6)]: the database refuses a value outside the range
        of its column, and renders a cost with six decimals.  The writes
        are modelled where the database takes the values: what a grant, a
        reset or a ledger insert stores is stated under that condition
        ([int4], [grantStorable], [resetStorable], [entryStorable]), and a
        stored entry keeps its cost as the text of the call.
      - The methods of the two models take no transaction handle: they
        write through [this.db]. *)

From Stdlib Require Import ZArith Lia.
From stdpp Require Import base option gmap strings list pretty.

Local Open Scope Z_scope.

(** ** Dates *)

(** Calendar date with the time of day in milliseconds; [month] is the
    JavaScript month index 0..11. *)
Record Date := mkDate {
  year : Z;
  month : Z;
  day : Z;
  msOfDay : Z
}.

(** [a <= b] on dates, the order of [gte] and [lte] on a timestamp column. *)
Definition Date_leb (a b : Date) : bool :=
  if year a =? year b then
    if month a =? month b then
      if day a =? day b then msOfDay a <=? msOfDay b else day a <? day b
    else month a <? month b
  else year a <? year b.

(** ** JavaScript numbers where they are not integers *)

Module Js.

(** A finite binary64 value, [mant * 2 ^ expo].  The exponent range is not
    represented: the operands of the billing code are far from overflow and
    from the subnormal numbers. *)
Record number := mkNumber {
  mant : Z;
  expo : Z
}.

Definition precision : Z := 53.

(** Round the non-negative value [m * 2 ^ e] to [precision] significant
    bits, to nearest, ties to the even significand.  A carry out of the top
    bit stays in the significand: the value is the same. *)
Definition roundMagnitude (m e : Z) : number :=
  let s := Z.log2 m + 1 - precision in
  if s <=? 0 then mkNumber m e
  else
    let q := m / 2 ^ s in
    let r := m mod 2 ^ s in
    let half := 2 ^ (s - 1) in
    let up := (half <? r) || ((half =? r) && Z.odd q) in
    mkNumber (if up then q + 1 else q) (e + s).

Definition round (m e : Z) : number :=
  if m <? 0
  then let r := roundMagnitude (- m) e in mkNumber (- mant r) (expo r)
  else roundMagnitude m e.

(** An integer as a number. *)
Definition ofInt (n : Z) : number := round n 0.

(** [a * b] *)
Definition mul (a b : number) : number :=
  round (mant a * mant b) (expo a + expo b).

(** [a < b] *)
Definition ltb (a b : number) : bool :=
  let e := Z.min (expo a) (expo b) in
  mant a * 2 ^ (expo a - e) <? mant b * 2 ^ (expo b - e).

(** [a > b] *)
Definition gtb (a b : number) : bool := ltb b a.

(** [Math.ceil(a)], an integer. *)
Definition ceil (a : number) : Z :=
  if 0 <=? expo a
  then mant a * 2 ^ expo a
  else - ((- mant a) / 2 ^ (- expo a)).

(** [ToInt32]: an integer reduced to the signed 32-bit range, as the bit
    operators do with their operands and their result. *)
Definition toInt32 (n : Z) : Z := (n + 2 ^ 31) mod 2 ^ 32 - 2 ^ 31.

(** [n << k] for a shift count below 32. *)
Definition shl (n k : Z) : Z := toInt32 (toInt32 n * 2 ^ k).

(** [n & n] *)
Definition andSelf (n : Z) : Z := toInt32 n.

(** [n % d]: the remainder has the sign of the dividend. *)
Definition remainder (n d : Z) : Z := Z.rem n d.

(** [a / b] for a divisor that is not zero, rounded to nearest, ties to
    even.  The quotient of the magnitudes is taken to at least
    [precision + 2] bits and what is cut off is kept as one more bit below
    them, so that rounding the result rounds the exact quotient. *)
Definition div (a b : number) : number :=
  let ma := Z.abs (mant a) in
  let mb := Z.abs (mant b) in
  let k := Z.max 0 (precision + 2 + Z.log2 mb - Z.log2 ma) in
  let n := ma * 2 ^ k in
  let sticky := if n mod mb =? 0 then 0 else 1 in
  let r := roundMagnitude (2 * (n / mb) + sticky) (expo a - expo b - k - 1) in
  if xorb (mant a <? 0) (mant b <? 0)
  then mkNumber (- mant r) (expo r)
  else r.

(** [Math.round(a)]: the nearest integer, a half rounded up. *)
Definition mathRound (a : number) : Z :=
  if 0 <=? expo a
  then mant a * 2 ^ expo a
  else (2 * mant a + 2 ^ (- expo a)) / 2 ^ (- expo a + 1).

(** The literal [1.2]: 5404319552844595 / 2^52. *)
Definition lit_1_2 : number := mkNumber 5404319552844595 (-52).

(** The literal [0.01]: 5764607523034235 / 2^59. *)
Definition lit_0_01 : number := mkNumber 5764607523034235 (-59).

End Js.

(** ** Schema (packages/database/src/schemas/billing.ts) *)

Inductive CreditSource := free | subscription | package | promo.

(** The reason ['promo'] is [promo_reason] here, [promo] being the source. *)
Inductive CreditReason :=
  monthly_free | subscription_renewal | purchase | refund | promo_reason
| manual_adjustment.

Inductive UsageStatus := pending | completed | refunded.

(** The source column of usage_ledger admits three of the four sources. *)
Inductive UsageSource := usage_free | usage_subscription | usage_package.

Record WalletBalance := mkWalletBalance {
  userId : string;
  freeCredits : Z;
  subscriptionCredits : Z;
  packageCredits : Z;
  totalCredits : Z;
  freeResetAt : option Date;
  subscriptionPeriodEnd : option Date;
  updatedAt : Date
}.

Record CreditGrant := mkCreditGrant {
  grantId : N;
  grantUserId : string;
  grantSource : CreditSource;
  grantedCredits : Z;
  grantReason : CreditReason;
  expiresAt : option Date;
  mpPaymentId : option string;
  mpPreferenceId : option string;
  grantCreatedAt : Date
}.

Record UsageLedgerEntry := mkUsageLedgerEntry {
  entryId : N;
  entryUserId : string;
  sessionId : option string;
  messageId : option string;
  provider : string;
  model : string;
  usageJson : string;
  credits : Z;
  costUsd : string;
  source : UsageSource;
  status : UsageStatus;
  idempotencyKey : string;
  createdAt : Date
}.

(** The database: the three billing tables and the state of [generateId].
    [generateId()] returns an identifier never handed out before; the
    counter [nextId] stands for it. *)
Record DB := mkDB {
  walletBalances : gmap string WalletBalance;
  creditGrants : list CreditGrant;
  usageLedger : list UsageLedgerEntry;
  nextId : N
}.

Definition emptyDB : DB := mkDB ∅ [] [] 0%N.

#[global] Instance CreditSource_eq_dec : EqDecision CreditSource.
Proof. solve_decision. Defined.

#[global] Instance UsageStatus_eq_dec : EqDecision UsageStatus.
Proof. solve_decision. Defined.

(** ** Errors and the monad of database operations *)

Inductive Error :=
| InsufficientCreditsError (required available : Z)
| IdempotencyError.

Inductive Result (A : Type) :=
| Return (a : A)
| Throw (e : Error).
Arguments Return {A} a.
Arguments Throw {A} e.

(** A computation runs on a database and leaves a database behind, whether
    it returns or throws. *)
Definition M (A : Type) : Type := DB → Result A * DB.

#[global] Instance M_ret : MRet M := λ A a db, (Return a, db).

#[global] Instance M_bind : MBind M := λ A B f m db,
  match m db with
  | (Return a, db') => f a db'
  | (Throw e, db') => (Throw e, db')
  end.

Definition throw {A} (e : Error) : M A := λ db, (Throw e, db).
Definition gets {A} (f : DB → A) : M A := λ db, (Return (f db), db).
Definition modify (f : DB → DB) : M unit := λ db, (Return tt, f db).

(** [db.transaction(async (tx) => body)]: when the body throws, what it wrote
    is rolled back and the error is passed on.  Inside [grantCredits] and
    [resetFreeCredits] the wallet is fetched or created through [this.db]
    and not through [tx]; no step of those bodies throws, so the rollback
    never tells the two apart. *)
Definition transaction {A} (body : M A) : M A := λ db,
  match body db with
  | (Return a, db') => (Return a, db')
  | (Throw e, _) => (Throw e, db)
  end.

Definition generateId : M N := λ db,
  (Return (nextId db),
   mkDB (walletBalances db) (creditGrants db) (usageLedger db)
        (N.succ (nextId db))).

Definition sumZ (rows : list Z) : Z := foldr Z.add 0 rows.

(** ** Table access *)

(** [query.walletBalances.findFirst({ where: eq(userId, u) })] *)
Definition findWallet (u : string) : M (option WalletBalance) :=
  gets (λ db, walletBalances db !! u).

(** [insert(walletBalances).values(w).returning()] *)
Definition insertWallet (w : WalletBalance) : M WalletBalance := λ db,
  (Return w,
   mkDB (<[userId w := w]> (walletBalances db)) (creditGrants db)
        (usageLedger db) (nextId db)).

(** A [Partial<WalletBalance>]: the columns an update sets. *)
Record WalletUpdates := mkWalletUpdates {
  setFreeCredits : option Z;
  setSubscriptionCredits : option Z;
  setPackageCredits : option Z;
  setTotalCredits : option Z;
  setFreeResetAt : option Date;
  setSubscriptionPeriodEnd : option Date;
  setUpdatedAt : option Date
}.

Definition applyUpdates (upd : WalletUpdates) (row : WalletBalance)
  : WalletBalance :=
  mkWalletBalance
    (userId row)
    (default (freeCredits row) (setFreeCredits upd))
    (default (subscriptionCredits row) (setSubscriptionCredits upd))
    (default (packageCredits row) (setPackageCredits upd))
    (default (totalCredits row) (setTotalCredits upd))
    (match setFreeResetAt upd with
     | Some d => Some d
     | None => freeResetAt row
     end)
    (match setSubscriptionPeriodEnd upd with
     | Some d => Some d
     | None => subscriptionPeriodEnd row
     end)
    (default (updatedAt row) (setUpdatedAt upd)).

(** [update(walletBalances).set(upd).where(eq(userId, u))]: no row, no
    change.  The update as the database applies it when the credit values
    it sets are in the range of their int4 columns. *)
Definition updateWallet (u : string) (upd : WalletUpdates) : M unit :=
  modify (λ db,
    mkDB (alter (applyUpdates upd) u (walletBalances db)) (creditGrants db)
         (usageLedger db) (nextId db)).

(** [insert(creditGrants).values(g)] *)
Definition insertGrant (g : CreditGrant) : M unit :=
  modify (λ db,
    mkDB (walletBalances db) (creditGrants db ++ [g]) (usageLedger db)
         (nextId db)).

(** [s || null] on an optional string: the empty string is falsy. *)
Definition orNull (s : option string) : option string :=
  match s with
  | Some EmptyString => None
  | _ => s
  end.

(** ** WalletModel *)

Module WalletModel.

(** [new Date(now.getFullYear(), now.getMonth() + 1, 1)]: month 12 rolls
    over to January of the next year. *)
Definition getNextMonthlyReset (now : Date) : Date :=
  if month now + 1 <? 12
  then mkDate (year now) (month now + 1) 1 0
  else mkDate (year now + 1) (month now + 1 - 12) 1 0.

Record GrantParams := mkGrantParams {
  paramUserId : string;
  paramSource : CreditSource;
  paramCredits : Z;
  paramReason : CreditReason;
  paramExpiresAt : option Date;
  paramMpPaymentId : option string;
  paramMpPreferenceId : option string
}.

Definition createCreditGrant (now : Date) (params : GrantParams) : M unit :=
  id ← generateId;
  insertGrant
    (mkCreditGrant id (paramUserId params) (paramSource params)
       (paramCredits params) (paramReason params) (paramExpiresAt params)
       (orNull (paramMpPaymentId params))
       (orNull (paramMpPreferenceId params)) now).

(** The row of a user seen for the first time: 100000 free credits. *)
Definition newWallet (now : Date) (u : string) : WalletBalance :=
  mkWalletBalance u 100000 0 0 100000 (Some (getNextMonthlyReset now)) None
    now.

Definition getOrCreateWallet (now : Date) (u : string) : M WalletBalance :=
  found ← findWallet u;
  match found with
  | Some wallet => mret wallet
  | None =>
      wallet ← insertWallet (newWallet now u);
      createCreditGrant now
        (mkGrantParams u free 100000 monthly_free None None None);;
      mret wallet
  end.

Record WalletSummary := mkWalletSummary {
  summaryUserId : string;
  summaryFreeCredits : Z;
  summarySubscriptionCredits : Z;
  summaryPackageCredits : Z;
  summaryTotalCredits : Z;
  summaryFreeResetAt : option Date;
  summarySubscriptionPeriodEnd : option Date;
  lastUpdated : Date
}.

Definition getBalance (now : Date) (u : string) : M WalletSummary :=
  wallet ← getOrCreateWallet now u;
  mret (mkWalletSummary (userId wallet) (freeCredits wallet)
          (subscriptionCredits wallet) (packageCredits wallet)
          (totalCredits wallet) (freeResetAt wallet)
          (subscriptionPeriodEnd wallet) (updatedAt wallet)).

(** The local variables of [deductCredits]. [deductedFrom] is declared
    without a value, so it is undefined until a branch assigns it. *)
Record Locals := mkLocals {
  remainingToDeduct : Z;
  deductedFrom : option CreditSource;
  newPackageCredits : Z;
  newSubscriptionCredits : Z;
  newFreeCredits : Z
}.

(** The [switch (source)] of the preferred-source branch: one case per
    bucket, none for [promo]. *)
Definition deductPreferred (wallet : WalletBalance) (src : CreditSource)
    (st : Locals) : Locals :=
  match src with
  | package =>
      if packageCredits wallet >=? remainingToDeduct st
      then mkLocals 0 (Some package)
             (newPackageCredits st - remainingToDeduct st)
             (newSubscriptionCredits st) (newFreeCredits st)
      else st
  | subscription =>
      if subscriptionCredits wallet >=? remainingToDeduct st
      then mkLocals 0 (Some subscription) (newPackageCredits st)
             (newSubscriptionCredits st - remainingToDeduct st)
             (newFreeCredits st)
      else st
  | free =>
      if freeCredits wallet >=? remainingToDeduct st
      then mkLocals 0 (Some free) (newPackageCredits st)
             (newSubscriptionCredits st)
             (newFreeCredits st - remainingToDeduct st)
      else st
  | promo => st
  end.

(** The three [if] statements of the automatic order, one after another. *)
Definition deductFromPackage (wallet : WalletBalance) (st : Locals) : Locals :=
  if (packageCredits wallet >? 0) && (remainingToDeduct st >? 0)
  then
    let deductAmount := Z.min (packageCredits wallet) (remainingToDeduct st) in
    mkLocals (remainingToDeduct st - deductAmount) (Some package)
      (newPackageCredits st - deductAmount) (newSubscriptionCredits st)
      (newFreeCredits st)
  else st.

Definition deductFromSubscription (wallet : WalletBalance) (st : Locals)
  : Locals :=
  if (subscriptionCredits wallet >? 0) && (remainingToDeduct st >? 0)
  then
    let deductAmount :=
      Z.min (subscriptionCredits wallet) (remainingToDeduct st) in
    mkLocals (remainingToDeduct st - deductAmount) (Some subscription)
      (newPackageCredits st) (newSubscriptionCredits st - deductAmount)
      (newFreeCredits st)
  else st.

Definition deductFromFree (wallet : WalletBalance) (st : Locals) : Locals :=
  if (freeCredits wallet >? 0) && (remainingToDeduct st >? 0)
  then
    let deductAmount := Z.min (freeCredits wallet) (remainingToDeduct st) in
    mkLocals (remainingToDeduct st - deductAmount) (Some free)
      (newPackageCredits st) (newSubscriptionCredits st)
      (newFreeCredits st - deductAmount)
  else st.

Definition deductAutomatic (wallet : WalletBalance) (st : Locals) : Locals :=
  deductFromFree wallet
    (deductFromSubscription wallet (deductFromPackage wallet st)).

Record Deduction := mkDeduction {
  deductionSource : option CreditSource;
  remainingCredits : Z
}.

(** The locals after the branch on [source] has run. *)
Definition deduction (wallet : WalletBalance) (amount : Z)
    (preferred : option CreditSource) : Locals :=
  let st :=
    mkLocals amount None (packageCredits wallet)
      (subscriptionCredits wallet) (freeCredits wallet) in
  match preferred with
  | Some src => deductPreferred wallet src st
  | None => deductAutomatic wallet st
  end.

Definition newTotalCredits (st : Locals) : Z :=
  newPackageCredits st + newSubscriptionCredits st + newFreeCredits st.

(** The columns the deduction writes. *)
Definition deductionUpdates (now : Date) (st : Locals) : WalletUpdates :=
  mkWalletUpdates (Some (newFreeCredits st))
    (Some (newSubscriptionCredits st)) (Some (newPackageCredits st))
    (Some (newTotalCredits st)) None None (Some now).

Definition deductCredits (now : Date) (u : string) (amount : Z)
    (preferred : option CreditSource) : M Deduction :=
  transaction (
    found ← findWallet u;
    match found with
    | None => throw (InsufficientCreditsError amount 0)
    | Some wallet =>
        if totalCredits wallet <? amount
        then throw (InsufficientCreditsError amount (totalCredits wallet))
        else
          let st := deduction wallet amount preferred in
          if remainingToDeduct st >? 0
          then throw (InsufficientCreditsError amount (totalCredits wallet))
          else
            updateWallet u (deductionUpdates now st);;
            mret (mkDeduction (deductedFrom st) (newTotalCredits st))
    end).

Record GrantMetadata := mkGrantMetadata {
  metaExpiresAt : option Date;
  metaMpPaymentId : option string;
  metaMpPreferenceId : option string
}.

Definition noMetadata : GrantMetadata := mkGrantMetadata None None None.

(** The [switch (source)] of [grantCredits] filling in [updates]; [package]
    and [promo] share one case. *)
Definition grantUpdates (now : Date) (wallet : WalletBalance)
    (amount : Z) (src : CreditSource) (metadata : GrantMetadata)
  : WalletUpdates :=
  let updates :=
    match src with
    | free =>
        mkWalletUpdates (Some (freeCredits wallet + amount)) None None None
          None None (Some now)
    | subscription =>
        mkWalletUpdates None (Some (subscriptionCredits wallet + amount))
          None None None (metaExpiresAt metadata) (Some now)
    | package | promo =>
        mkWalletUpdates None None (Some (packageCredits wallet + amount))
          None None None (Some now)
    end in
  mkWalletUpdates (setFreeCredits updates) (setSubscriptionCredits updates)
    (setPackageCredits updates)
    (Some (default (freeCredits wallet) (setFreeCredits updates)
           + default (subscriptionCredits wallet)
               (setSubscriptionCredits updates)
           + default (packageCredits wallet) (setPackageCredits updates)))
    (setFreeResetAt updates) (setSubscriptionPeriodEnd updates)
    (setUpdatedAt updates).

Definition grantCredits (now : Date) (u : string) (amount : Z)
    (src : CreditSource) (reason : CreditReason) (metadata : GrantMetadata)
  : M unit :=
  transaction (
    createCreditGrant now
      (mkGrantParams u src amount reason (metaExpiresAt metadata)
         (metaMpPaymentId metadata) (metaMpPreferenceId metadata));;
    wallet ← getOrCreateWallet now u;
    updateWallet u (grantUpdates now wallet amount src metadata)).

(** The columns the monthly reset writes. *)
Definition resetUpdates (now : Date) (wallet : WalletBalance) (amount : Z)
  : WalletUpdates :=
  let newTotalCredits :=
    amount + subscriptionCredits wallet + packageCredits wallet in
  mkWalletUpdates (Some amount) None None (Some newTotalCredits)
    (Some (getNextMonthlyReset now)) None (Some now).

(** [amount] defaults to 100000. *)
Definition resetFreeCredits (now : Date) (u : string) (amount : option Z)
  : M unit :=
  let amount := default 100000 amount in
  transaction (
    wallet ← getOrCreateWallet now u;
    updateWallet u (resetUpdates now wallet amount);;
    createCreditGrant now
      (mkGrantParams u free amount monthly_free None None None)).

Definition canAfford (now : Date) (u : string) (estimatedCredits : Z)
  : M bool :=
  wallet ← getOrCreateWallet now u;
  mret (totalCredits wallet >=? estimatedCredits).

Record Reconciliation := mkReconciliation {
  walletTotal : Z;
  calculatedTotal : Z;
  difference : Z;
  needsAdjustment : bool
}.

(** [select({ total: sum(col) }).from(t).where(...)]: the total of the
    selected rows, NULL when there is none. *)
Definition sqlSum (rows : list Z) : option Z :=
  match rows with
  | [] => None
  | _ => Some (sumZ rows)
  end.

Definition grantsOf (u : string) (db : DB) : list CreditGrant :=
  filter (λ g, grantUserId g = u) (creditGrants db).

Definition usageOf (u : string) (db : DB) : list UsageLedgerEntry :=
  filter (λ e, entryUserId e = u) (usageLedger db).

Definition reconcileBalance (now : Date) (u : string) : M Reconciliation :=
  wallet ← getOrCreateWallet now u;
  grantsResult ← gets (λ db, sqlSum (grantedCredits <$> grantsOf u db));
  let totalGranted := default 0 grantsResult in
  usageResult ← gets (λ db, sqlSum (credits <$> usageOf u db));
  let totalUsed := default 0 usageResult in
  let calculatedTotal := totalGranted - totalUsed in
  let difference := Z.abs (totalCredits wallet - calculatedTotal) in
  let needsAdjustment :=
    Js.gtb (Js.ofInt difference)
      (Js.mul (Js.ofInt (totalCredits wallet)) Js.lit_0_01) in
  mret (mkReconciliation (totalCredits wallet) calculatedTotal difference
          needsAdjustment).

End WalletModel.

(** ** BillingModel *)

Module BillingModel.

Record RecordUsageParams := mkRecordUsageParams {
  paramUserId : string;
  paramSessionId : option string;
  paramMessageId : option string;
  paramProvider : string;
  paramModel : string;
  paramUsage : string;
  paramCredits : Z;
  paramCostUsd : string;
  paramSource : UsageSource;
  paramIdempotencyKey : string
}.

(** [query.usageLedger.findFirst({ where: eq(idempotencyKey, key) })] *)
Definition findUsageByIdempotencyKey (key : string)
  : M (option UsageLedgerEntry) :=
  gets (λ db, head (filter (λ e, idempotencyKey e = key) (usageLedger db))).

(** [insert(usageLedger).values(e).returning()] *)
Definition insertUsage (e : UsageLedgerEntry) : M UsageLedgerEntry := λ db,
  (Return e,
   mkDB (walletBalances db) (creditGrants db) (usageLedger db ++ [e])
        (nextId db)).

(** The row [createUsageLedgerEntry] inserts, with status [pending].  The
    cost column is text: [paramCostUsd] is [costUsd.toString()], and the row
    keeps it as it was given; the database renders it with six decimals
    ([0.003] as [0.003000]). *)
Definition newEntry (now : Date) (params : RecordUsageParams) (id : N)
  : UsageLedgerEntry :=
  mkUsageLedgerEntry id (paramUserId params)
    (orNull (paramSessionId params)) (orNull (paramMessageId params))
    (paramProvider params) (paramModel params) (paramUsage params)
    (paramCredits params) (paramCostUsd params) (paramSource params)
    pending (paramIdempotencyKey params) now.

Definition createUsageLedgerEntry (now : Date) (params : RecordUsageParams)
  : M UsageLedgerEntry :=
  existing ← findUsageByIdempotencyKey (paramIdempotencyKey params);
  match existing with
  | Some _ => throw IdempotencyError
  | None =>
      id ← generateId;
      insertUsage (newEntry now params id)
  end.

Definition setStatus (st : UsageStatus) (e : UsageLedgerEntry)
  : UsageLedgerEntry :=
  mkUsageLedgerEntry (entryId e) (entryUserId e) (sessionId e) (messageId e)
    (provider e) (model e) (usageJson e) (credits e) (costUsd e) (source e)
    st (idempotencyKey e) (createdAt e).

(** [update(usageLedger).set({ status }).where(eq(id, i))]; the type of
    [status] admits [completed] and [refunded]. *)
Definition updateUsageStatus (i : N) (st : UsageStatus) : M unit :=
  modify (λ db,
    mkDB (walletBalances db) (creditGrants db)
      ((λ e, if decide (entryId e = i) then setStatus st e else e)
         <$> usageLedger db)
      (nextId db)).

(** [and(...conditions)] of [getUserTotalSpent]: the user, the status
    [completed], and the bounds on [createdAt] that were given. *)
Definition spentCondition (u : string) (startDate endDate : option Date)
    (e : UsageLedgerEntry) : bool :=
  bool_decide (entryUserId e = u)
  && bool_decide (status e = completed)
  && match startDate with
     | Some d => Date_leb d (createdAt e)
     | None => true
     end
  && match endDate with
     | Some d => Date_leb (createdAt e) d
     | None => true
     end.

Record TotalSpent := mkTotalSpent {
  spentCredits : Z;
  spentCostUsd : Js.number
}.

Section Totals.

(** [COALESCE(SUM(cost_usd::numeric), 0)] read back with [Number()]: the
    decimal arithmetic of the database is a parameter. *)
Variable sumCostUsd : list string → Js.number.

(** [COALESCE(SUM(credits), 0)] goes through [sumZ]: the empty sum is 0. *)
Definition getUserTotalSpent (u : string) (startDate endDate : option Date)
  : M TotalSpent :=
  gets (λ db,
    let rows := filter (λ e, spentCondition u startDate endDate e = true)
                  (usageLedger db) in
    mkTotalSpent (sumZ (credits <$> rows)) (sumCostUsd (costUsd <$> rows))).

End Totals.


End BillingModel.

(** ** BILLING_CONFIG (src/config/billing.ts) *)

Module BillingConfig.

Definition DEFAULT_RESET_DAY : Z := 1.
Definition RECONCILIATION_THRESHOLD_PERCENT : Z := 1.
Definition PRE_CHECK_BUFFER_MULTIPLIER : Js.number := Js.lit_1_2.
Definition LOW_BALANCE_THRESHOLD : Z := 1000.
Definition CREDITS_PER_DOLLAR : Z := 1000000.

(** [creditsToUSD]: [credits / CREDITS_PER_DOLLAR], for a whole number of
    credits. *)
Definition creditsToUSD (credits : Z) : Js.number :=
  Js.div (Js.ofInt credits) (Js.ofInt CREDITS_PER_DOLLAR).

(** [usdToCredits]: [Math.round(usd * CREDITS_PER_DOLLAR)] *)
Definition usdToCredits (usd : Js.number) : Z :=
  Js.mathRound (Js.mul usd (Js.ofInt CREDITS_PER_DOLLAR)).

(** FEATURE_FLAGS, as read from the environment when the module loads;
    the rollout percentage is an integer here. *)
Record FeatureFlags := mkFeatureFlags {
  ENABLE_BILLING : bool;
  ROLLOUT_PERCENTAGE : Z
}.

(** One turn of the loop over the code units of the user id:
    [hash = (hash << 5) - hash + char; hash = hash & hash]. *)
Definition hashStep (hash char : Z) : Z :=
  Js.andSelf (Js.shl hash 5 - hash + char).

Definition userHash (codeUnits : list Z) : Z := foldl hashStep 0 codeUnits.

(** [Math.abs(hash % 100)] *)
Definition userPercentile (codeUnits : list Z) : Z :=
  Z.abs (Js.remainder (userHash codeUnits) 100).

(** [userId.charCodeAt(i)] for [i] below the length, for a user id of
    ASCII characters: a character of a [string] is then one code unit. *)
Definition charCodes (userId : string) : list Z :=
  (λ c, Z.of_N (Ascii.N_of_ascii c)) <$> String.list_ascii_of_string userId.

Definition isBillingEnabledForUser (flags : FeatureFlags) (userId : string)
  : bool :=
  if negb (ENABLE_BILLING flags) then false
  else if ROLLOUT_PERCENTAGE flags >=? 100 then true
  else if ROLLOUT_PERCENTAGE flags <=? 0 then false
  else userPercentile (charCodes userId) <? ROLLOUT_PERCENTAGE flags.

End BillingConfig.

(** ** BillingService (src/services/billing/index.ts)

    The service keeps no state and reaches no table: where the models are
    to be called it builds its answer in place. *)

Module BillingService.

Inductive ServiceError :=
| InsufficientCredits (available required : Z)
| Idempotency (key existingEntryId : string)
| InvalidUsageData (message : string).

Inductive ServiceResult (A : Type) :=
| Resolved (a : A)
| Rejected (e : ServiceError).
Arguments Resolved {A} a.
Arguments Rejected {A} e.

(** [WalletSummary extends WalletBalance]: the balance and the derived
    fields.  The derived texts and estimates ([lowBalanceWarning],
    [estimatedUSD], [expirationWarnings]) are not read by any operation
    below and are left out. *)
Record WalletSummary := mkWalletSummary {
  balance : WalletBalance;
  nextResetDate : option Date;
  isLowBalance : bool
}.

Record Breakdown := mkBreakdown {
  breakdownFree : Z;
  breakdownSubscription : Z;
  breakdownPackage : Z
}.

Record AffordabilityCheck := mkAffordabilityCheck {
  canAfford : bool;
  available : Z;
  required : Z;
  message : option string;
  breakdown : option Breakdown
}.

Record ModelTokensUsage := mkModelTokensUsage {
  totalInputTokens : option Z;
  inputTextTokens : option Z;
  inputImageTokens : option Z;
  inputAudioTokens : option Z;
  inputCachedTokens : option Z;
  inputCacheMissTokens : option Z;
  inputWriteCacheTokens : option Z;
  inputCitationTokens : option Z;
  totalOutputTokens : option Z;
  outputTextTokens : option Z;
  outputImageTokens : option Z;
  outputAudioTokens : option Z;
  outputReasoningTokens : option Z;
  totalTokens : option Z
}.

Record RecordUsageParams := mkRecordUsageParams {
  paramUserId : string;
  paramSessionId : option string;
  paramMessageId : option string;
  paramProvider : string;
  paramModel : string;
  paramUsage : option ModelTokensUsage;
  paramIdempotencyKey : string
}.

(** The entry [recordUsage] resolves to.  Its [id] is the text [usage_]
    followed by [Date.now()]; the clock reading stands for it. *)
Record UsageEntry := mkUsageEntry {
  entryIdClock : Date;
  entryUserId : string;
  entrySessionId : option string;
  entryMessageId : option string;
  entryProvider : string;
  entryModel : string;
  entryUsageJson : ModelTokensUsage;
  entryCredits : Z;
  entryCostUsd : Js.number;
  entrySource : CreditSource;
  entryStatus : UsageStatus;
  entryIdempotencyKey : string;
  entryCreatedAt : Date
}.

(** [new Date(now.getFullYear(), now.getMonth() + 1, DEFAULT_RESET_DAY)] *)
Definition calculateNextResetDate (now : Date) : Date :=
  if month now + 1 <? 12
  then mkDate (year now) (month now + 1) BillingConfig.DEFAULT_RESET_DAY 0
  else mkDate (year now + 1) (month now + 1 - 12)
         BillingConfig.DEFAULT_RESET_DAY 0.

(** The balance is built in place: 100000 free credits for every user. *)
Definition getWalletBalance (now : Date) (u : string) : WalletSummary :=
  let balance :=
    mkWalletBalance u 100000 0 0 100000 (Some (calculateNextResetDate now))
      None now in
  mkWalletSummary balance (Some (calculateNextResetDate now))
    (totalCredits balance <? BillingConfig.LOW_BALANCE_THRESHOLD).

Section Service.

(** [formatCredits] of src/config/billing.ts renders a number for display
    ([toFixed], [toLocaleString]); the rendering is a parameter. *)
Variable formatCredits : Z → string.

(** [calculateCost] hands the usage to [computeChatCost] of the model
    runtime, which is outside this repository; its answer is a parameter. *)
Variable calculateCost : ModelTokensUsage → string → Z * Js.number.

(** The body of [canUserAfford] from the balance it has read. *)
Definition checkAffordability (summary : WalletSummary)
    (estimatedCredits : Z) : AffordabilityCheck :=
  let required :=
    Js.ceil
      (Js.mul (Js.ofInt estimatedCredits)
         BillingConfig.PRE_CHECK_BUFFER_MULTIPLIER) in
  let total := totalCredits (balance summary) in
  let canAfford := total >=? required in
  mkAffordabilityCheck canAfford total required
    (if canAfford then None
     else Some
       ("Insufficient credits. You have " +:+ formatCredits total
        +:+ " but need " +:+ formatCredits required
        +:+ " (including safety buffer)."))
    (Some (mkBreakdown (freeCredits (balance summary))
             (subscriptionCredits (balance summary))
             (packageCredits (balance summary)))).

Definition canUserAfford (now : Date) (u : string) (estimatedCredits : Z)
  : AffordabilityCheck :=
  checkAffordability (getWalletBalance now u) estimatedCredits.

(** [!params.usage || !params.usage.totalTokens] *)
Definition usageMissing (usage : option ModelTokensUsage) : bool :=
  match usage with
  | None => true
  | Some usage =>
      match totalTokens usage with
      | None => true
      | Some n => n =? 0
      end
  end.

Definition recordUsage (now : Date) (params : RecordUsageParams)
  : ServiceResult UsageEntry :=
  match paramUsage params with
  | None => Rejected (InvalidUsageData "Usage data is missing or invalid")
  | Some usage =>
      if usageMissing (Some usage)
      then Rejected (InvalidUsageData "Usage data is missing or invalid")
      else
        let (credits, costUsd) := calculateCost usage (paramModel params) in
        let affordCheck := canUserAfford now (paramUserId params) credits in
        if negb (canAfford affordCheck)
        then Rejected
               (InsufficientCredits (available affordCheck)
                  (required affordCheck))
        else Resolved
               (mkUsageEntry now (paramUserId params) (paramSessionId params)
                  (paramMessageId params) (paramProvider params)
                  (paramModel params) usage credits costUsd free completed
                  (paramIdempotencyKey params) now)
  end.

End Service.

End BillingService.

(** * Properties *)

(** ** Vocabulary *)

(** *** The wallet invariant *)

(** The invariant of a wallet row: the total is the sum of the buckets and
    no bucket is negative. *)
Definition walletInvariant (w : WalletBalance) : Prop :=
  totalCredits w = freeCredits w + subscriptionCredits w + packageCredits w
  ∧ 0 ≤ freeCredits w
  ∧ 0 ≤ subscriptionCredits w
  ∧ 0 ≤ packageCredits w.

Definition dbInvariant (db : DB) : Prop :=
  ∀ u w, walletBalances db !! u = Some w → walletInvariant w.

(** *** Reading the tables *)

(** The wallet [getOrCreateWallet] hands to its caller. *)
Definition walletAtHand (now : Date) (u : string) (db : DB) : WalletBalance :=
  default (WalletModel.newWallet now u) (walletBalances db !! u).

(** The balance of a user, as the four credit columns. *)
Definition balanceOf (u : string) (db : DB) : option (Z * Z * Z * Z) :=
  (λ w, (packageCredits w, subscriptionCredits w, freeCredits w,
         totalCredits w)) <$> walletBalances db !! u.

(** The entries of the ledger recorded under a key. *)
Definition entriesWithKey (key : string) (db : DB) : list UsageLedgerEntry :=
  filter (λ e, idempotencyKey e = key) (usageLedger db).

(** What the grant log and the usage ledger hold for a user. *)
Definition totalGranted (u : string) (db : DB) : Z :=
  sumZ (grantedCredits <$> WalletModel.grantsOf u db).

Definition totalUsed (u : string) (db : DB) : Z :=
  sumZ (credits <$> WalletModel.usageOf u db).

Definition totalCompleted (u : string) (db : DB) : Z :=
  sumZ (credits <$>
        filter (λ e, status e = completed) (WalletModel.usageOf u db)).

(** Conservation for a user: the wallet total is what was granted less what
    completed usage took. *)
Definition conserved (u : string) (db : DB) : Prop :=
  ∀ w, walletBalances db !! u = Some w →
       totalCredits w = totalGranted u db - totalCompleted u db.

(** *** Sequences of calls *)

(** A call of one of the operations that write the wallet table. *)
Inductive Call :=
| GetOrCreateWallet (u : string)
| GrantCredits (u : string) (amount : Z) (src : CreditSource)
    (reason : CreditReason) (metadata : WalletModel.GrantMetadata)
| DeductCredits (u : string) (amount : Z) (preferred : option CreditSource)
| ResetFreeCredits (u : string) (amount : option Z).

Definition positiveAmount (c : Call) : Prop :=
  match c with
  | GetOrCreateWallet _ => True
  | GrantCredits _ amount _ _ _ => 0 < amount
  | DeductCredits _ amount _ => 0 < amount
  | ResetFreeCredits _ amount => 0 < default 100000 amount
  end.

(** The database a call leaves behind, whether it returns or throws. *)
Definition runCall (now : Date) (c : Call) (db : DB) : DB :=
  match c with
  | GetOrCreateWallet u => (WalletModel.getOrCreateWallet now u db).2
  | GrantCredits u amount src reason metadata =>
      (WalletModel.grantCredits now u amount src reason metadata db).2
  | DeductCredits u amount preferred =>
      (WalletModel.deductCredits now u amount preferred db).2
  | ResetFreeCredits u amount =>
      (WalletModel.resetFreeCredits now u amount db).2
  end.

(** A sequence of calls, each with the clock reading it is made at. *)
Fixpoint runCalls (calls : list (Date * Call)) (db : DB) : DB :=
  match calls with
  | [] => db
  | (now, c) :: rest => runCalls rest (runCall now c db)
  end.

(** The three calls that record a usage, one after the other, in the order
    [BillingService.recordUsage] notes down for them: insert the ledger
    entry as pending, deduct its credits in the automatic order, mark the
    entry completed.  A call that throws ends the sequence. *)
Definition usageUnit (now : Date) (params : BillingModel.RecordUsageParams)
  : M UsageLedgerEntry :=
  entry ← BillingModel.createUsageLedgerEntry now params;
  WalletModel.deductCredits now (BillingModel.paramUserId params)
    (BillingModel.paramCredits params) None;;
  BillingModel.updateUsageStatus (entryId entry) completed;;
  mret entry.

(** The sequence on its own, or inside [db.transaction] as the notes of
    the service plan it, with the three methods taking the handle of the
    transaction.  As they are, the methods take none and write through
    [this.db]: a transaction around them rolls nothing of theirs back, and
    the sequence the code can run is the one with [atomic = false]. *)
Definition recordedUsage (atomic : bool) (now : Date)
    (params : BillingModel.RecordUsageParams) : M UsageLedgerEntry :=
  if atomic then transaction (usageUnit now params) else usageUnit now params.

(** The calls under which conservation is kept. *)
Inductive LedgerCall :=
| TouchWallet (u : string)
| Grant (u : string) (amount : Z) (src : CreditSource)
    (reason : CreditReason) (metadata : WalletModel.GrantMetadata)
| RecordedUsage (atomic : bool) (params : BillingModel.RecordUsageParams).

Definition positiveCredits (c : LedgerCall) : Prop :=
  match c with
  | TouchWallet _ => True
  | Grant _ amount _ _ _ => 0 < amount
  | RecordedUsage _ params => 0 < BillingModel.paramCredits params
  end.

Definition runLedgerCall (now : Date) (c : LedgerCall) (db : DB) : DB :=
  match c with
  | TouchWallet u => (WalletModel.getOrCreateWallet now u db).2
  | Grant u amount src reason metadata =>
      (WalletModel.grantCredits now u amount src reason metadata db).2
  | RecordedUsage atomic params => (recordedUsage atomic now params db).2
  end.

Fixpoint runLedgerCalls (calls : list (Date * LedgerCall)) (db : DB) : DB :=
  match calls with
  | [] => db
  | (now, c) :: rest => runLedgerCalls rest (runLedgerCall now c db)
  end.

(** What conservation is proved through: the wallet invariant, identifiers
    of ledger entries below the next one to be handed out, and for every
    user, with or without a wallet row, the balance of the two logs. *)
Definition ledgerInvariant (db : DB) : Prop :=
  dbInvariant db
  ∧ (∀ e, e ∈ usageLedger db → (entryId e < nextId db)%N)
  ∧ ∀ u, default 0 (totalCredits <$> walletBalances db !! u)
         = totalGranted u db - totalCompleted u db.

(** *** Numbers *)

(** [ceilDiv a b] is the least integer not below [a / b], for [0 < b]. *)
Definition ceilDiv (a b : Z) : Z := - ((- a) / b).

(** Credit amounts up to [2 ^ 48] keep the binary64 products with 1.2 and
    0.01 on the right side of every integer they are compared with. *)
Definition creditRange : Z := 2 ^ 48.

(** *** Sample data *)

(** A wallet holding package 50, subscription 30 and free 100, and the
    database with that single row. *)
Definition sampleClock : Date := mkDate 2025 9 15 0.

Definition sampleWallet : WalletBalance :=
  mkWalletBalance "alice" 100 30 50 180 None None sampleClock.

Definition sampleDB : DB := mkDB {["alice" := sampleWallet]} [] [] 0%N.

(** A wallet whose total is 100, and a short sequence of calls. *)
Definition smallWallet : WalletBalance :=
  mkWalletBalance "bob" 100 0 0 100 None None sampleClock.

Definition smallDB : DB := mkDB {["bob" := smallWallet]} [] [] 0%N.

Definition sampleCalls : list (Date * Call) :=
  [(sampleClock,
    GrantCredits "alice" 500 package purchase WalletModel.noMetadata);
   (sampleClock, DeductCredits "alice" 100200 None);
   (sampleClock, ResetFreeCredits "alice" None);
   (sampleClock, DeductCredits "alice" 70 (Some subscription));
   (sampleClock, GetOrCreateWallet "bob")].

(** A usage of 3000 credits by alice, and a short history. *)
Definition sampleUsage : BillingModel.RecordUsageParams :=
  BillingModel.mkRecordUsageParams "alice" None (Some "msg-1") "openai"
    "gpt-4o" "{}" 3000 "0.003" usage_free "alice_msg-1".

Definition sampleHistory : list (Date * LedgerCall) :=
  [(sampleClock, Grant "alice" 500 package purchase WalletModel.noMetadata);
   (sampleClock, RecordedUsage true sampleUsage);
   (sampleClock, RecordedUsage false sampleUsage);
   (sampleClock, TouchWallet "bob")].

(** Histories of alice: a grant and a recorded usage; a wallet with a
    ledger entry that is still pending; a wallet created and then reset. *)
Definition settledDB : DB := runLedgerCalls sampleHistory emptyDB.

Definition pendingDB : DB :=
  (BillingModel.createUsageLedgerEntry sampleClock sampleUsage
     (WalletModel.getOrCreateWallet sampleClock "alice" emptyDB).2).2.

Definition resetDB : DB :=
  (WalletModel.resetFreeCredits sampleClock "alice" None
     (WalletModel.getOrCreateWallet sampleClock "alice" emptyDB).2).2.

(** A balance as the service hands it to the affordability check, and a
    rendering of credit amounts. *)
Definition summaryOf (total : Z) : BillingService.WalletSummary :=
  BillingService.mkWalletSummary
    (mkWalletBalance "alice" total 0 0 total None None sampleClock) None
    (total <? BillingConfig.LOW_BALANCE_THRESHOLD).

Definition plainCredits (n : Z) : string :=
  if n <? 1000 then "under 1K" else "1K and more".

(** The database in which alice has a wallet of the given total. *)
Definition walletDB (total : Z) : DB :=
  mkDB {["alice" := BillingService.balance (summaryOf total)]} [] [] 0%N.

(** *** Buckets and histories *)

(** The bucket a preferred source names; [promo] names none. *)
Definition bucketOf (src : CreditSource) (w : WalletBalance) : option Z :=
  match src with
  | free => Some (freeCredits w)
  | subscription => Some (subscriptionCredits w)
  | package => Some (packageCredits w)
  | promo => None
  end.

(** What a deduction can draw on: the total without a preference, the
    preferred bucket with one. *)
Definition availableFor (preferred : option CreditSource) (w : WalletBalance)
  : option Z :=
  match preferred with
  | None => Some (totalCredits w)
  | Some src => bucketOf src w
  end.

(** *** What the columns hold *)

(** The range of an [integer] column. *)
Definition int4 (n : Z) : Prop := - 2 ^ 31 ≤ n ≤ 2 ^ 31 - 1.

(** The credit values a grant writes are in range: the credits of the
    grant row, the bucket of the source and the total. *)
Definition grantStorable (w : WalletBalance) (amount : Z)
    (src : CreditSource) : Prop :=
  int4 amount
  ∧ int4 (match src with
          | free => freeCredits w
          | subscription => subscriptionCredits w
          | package | promo => packageCredits w
          end + amount)
  ∧ int4 (freeCredits w + subscriptionCredits w + packageCredits w + amount).

(** The credit values a reset writes are in range: the free bucket and the
    credits of its grant row, and the total. *)
Definition resetStorable (w : WalletBalance) (amount : Z) : Prop :=
  int4 amount ∧ int4 (amount + subscriptionCredits w + packageCredits w).

Definition isDigit (c : Ascii.ascii) : bool :=
  (48 <=? Ascii.nat_of_ascii c)%nat && (Ascii.nat_of_ascii c <=? 57)%nat.

(** The digits a text starts with, and what follows them. *)
Fixpoint leadingDigits (chars : list Ascii.ascii)
  : list Ascii.ascii * list Ascii.ascii :=
  match chars with
  | c :: rest =>
      if isDigit c
      then let (digits, others) := leadingDigits rest in (c :: digits, others)
      else ([], chars)
  | [] => ([], [])
  end.

(** A cost written with one to four digits, and after a point (code 46)
    one to six more: a value [numeric(10,6)] holds exactly. *)
Definition costStorable (cost : string) : bool :=
  let (whole, others) := leadingDigits (String.list_ascii_of_string cost) in
  (1 <=? length whole)%nat && (length whole <=? 4)%nat
  && match others with
     | [] => true
     | point :: decimals =>
         (Ascii.nat_of_ascii point =? 46)%nat
         && forallb isDigit decimals
         && (1 <=? length decimals)%nat && (length decimals <=? 6)%nat
     end.

(** The insert of the ledger entry of a call is taken by the columns: its
    credits are int4 and its cost is in the range of the cost column. *)
Definition entryStorable (params : BillingModel.RecordUsageParams) : Prop :=
  int4 (BillingModel.paramCredits params)
  ∧ costStorable (BillingModel.paramCostUsd params) = true.

#[global] Instance int4_dec (n : Z) : Decision (int4 n).
Proof. unfold int4. apply _. Defined.

#[global] Instance grantStorable_dec (w : WalletBalance) (amount : Z)
    (src : CreditSource) : Decision (grantStorable w amount src).
Proof. unfold grantStorable. apply _. Defined.

#[global] Instance entryStorable_dec
    (params : BillingModel.RecordUsageParams)
  : Decision (entryStorable params).
Proof. unfold entryStorable. apply _. Defined.

(** A call that records its usage with the three methods as they are,
    outside a transaction, or records none. *)
Definition plainCall (c : LedgerCall) : Prop :=
  match c with
  | RecordedUsage atomic _ => atomic = false
  | _ => True
  end.

(** A call ran through: the credit values it writes are in the range of
    their columns and none of its steps threw.  A wallet creation always
    does; a grant does when its values are in range; a recorded usage does
    when its entry is in range and its three calls returned. *)
Definition ranThrough (now : Date) (c : LedgerCall) (db : DB) : bool :=
  match c with
  | TouchWallet _ => true
  | Grant u amount src _ _ =>
      bool_decide (grantStorable (walletAtHand now u db) amount src)
  | RecordedUsage _ params =>
      bool_decide (entryStorable params)
      && match (usageUnit now params db).1 with
         | Return _ => true
         | Throw _ => false
         end
  end.

Fixpoint allRanThrough (calls : list (Date * LedgerCall)) (db : DB) : bool :=
  match calls with
  | [] => true
  | (now, c) :: rest =>
      ranThrough now c db && allRanThrough rest (runLedgerCall now c db)
  end.

Definition allCompleted (db : DB) : Prop :=
  Forall (λ e, status e = completed) (usageLedger db).

(** A history whose calls all run through. *)
Definition plainHistory : list (Date * LedgerCall) :=
  [(sampleClock, Grant "alice" 500 package purchase WalletModel.noMetadata);
   (sampleClock, RecordedUsage false sampleUsage);
   (sampleClock, TouchWallet "bob")].

(** *** The usage ledger *)

(** What [updateUsageStatus] does to one row. *)
Definition markStatus (i : N) (st : UsageStatus) (e : UsageLedgerEntry)
  : UsageLedgerEntry :=
  if decide (entryId e = i) then BillingModel.setStatus st e else e.

(** The rows [getUserTotalSpent] adds up. *)
Definition spentRows (u : string) (startDate endDate : option Date) (db : DB)
  : list UsageLedgerEntry :=
  filter (λ e, BillingModel.spentCondition u startDate endDate e = true)
    (usageLedger db).

(** A stand-in for the database's sum of the cost column, for the samples:
    the number of rows. *)
Definition sampleCostSum (rows : list string) : Js.number :=
  Js.ofInt (Z.of_nat (length rows)).

(** *** The rollout hash *)

(** The polynomial in 31 with the code units as coefficients, the first one
    at the highest power. *)
Definition polynomial31 (codeUnits : list Z) : Z :=
  foldl (λ h c, 31 * h + c) 0 codeUnits.


(** *** Samples for the service *)

(** A usage of [n] tokens in all, a cost of 5 credits a token, and the
    parameters of a call that reports the usage. *)
Definition sampleTokens (n : Z) : BillingService.ModelTokensUsage :=
  BillingService.mkModelTokensUsage None None None None None None None None
    None None None None None (Some n).

Definition sampleCost (usage : BillingService.ModelTokensUsage)
    (model : string) : Z * Js.number :=
  (5 * default 0 (BillingService.totalTokens usage), Js.ofInt 0).

Definition sampleReport (n : Z) : BillingService.RecordUsageParams :=
  BillingService.mkRecordUsageParams "alice" None (Some "msg-1") "openai"
    "gpt-4o" (Some (sampleTokens n)) "alice_msg-1".

(** ** The monad *)

Section Monad.

Context {A B : Type}.

Lemma run_mret (a : A) (db : DB) : (mret a : M A) db = (Return a, db).
Proof. reflexivity. Qed.

Lemma run_mbind (m : M A) (f : A → M B) (db : DB) :
  (m ≫= f) db =
  match m db with
  | (Return a, db') => f a db'
  | (Throw e, db') => (Throw e, db')
  end.
Proof. reflexivity. Qed.

Lemma run_transaction (m : M A) (db : DB) :
  transaction m db =
  match m db with
  | (Return a, db') => (Return a, db')
  | (Throw e, _) => (Throw e, db)
  end.
Proof. reflexivity. Qed.

End Monad.

Ltac run_step :=
  rewrite ?run_transaction, ?run_mbind, ?run_mret;
  cbn [fst snd gets modify throw findWallet insertWallet updateWallet
       insertGrant generateId].

(** ** Closed forms of the wallet operations *)

Section WalletOperations.

Import WalletModel.

Variable now : Date.
Variable u : string.

Lemma createCreditGrant_run (params : GrantParams) (db : DB) :
  createCreditGrant now params db =
  (Return tt,
   mkDB (walletBalances db)
     (creditGrants db ++
      [mkCreditGrant (nextId db) (paramUserId params) (paramSource params)
         (paramCredits params) (paramReason params) (paramExpiresAt params)
         (orNull (paramMpPaymentId params))
         (orNull (paramMpPreferenceId params)) now])
     (usageLedger db) (N.succ (nextId db))).
Proof. reflexivity. Qed.

Lemma getOrCreateWallet_found (db : DB) (w : WalletBalance) :
  walletBalances db !! u = Some w →
  getOrCreateWallet now u db = (Return w, db).
Proof.
  intros Hw. unfold getOrCreateWallet. rewrite run_mbind.
  cbn [findWallet gets]. rewrite Hw. reflexivity.
Qed.

Lemma getOrCreateWallet_fresh (db : DB) :
  walletBalances db !! u = None →
  getOrCreateWallet now u db =
  (Return (newWallet now u),
   mkDB (<[u := newWallet now u]> (walletBalances db))
     (creditGrants db ++
      [mkCreditGrant (nextId db) u free 100000 monthly_free None None None
         now])
     (usageLedger db) (N.succ (nextId db))).
Proof.
  intros Hw. unfold getOrCreateWallet. rewrite run_mbind.
  cbn [findWallet gets]. rewrite Hw. reflexivity.
Qed.

Lemma deductCredits_no_wallet (amount : Z) (preferred : option CreditSource)
    (db : DB) :
  walletBalances db !! u = None →
  deductCredits now u amount preferred db =
  (Throw (InsufficientCreditsError amount 0), db).
Proof.
  intros Hw. unfold deductCredits. run_step. rewrite Hw. reflexivity.
Qed.

Lemma deductCredits_total_short (amount : Z)
    (preferred : option CreditSource) (db : DB) (w : WalletBalance) :
  walletBalances db !! u = Some w →
  totalCredits w < amount →
  deductCredits now u amount preferred db =
  (Throw (InsufficientCreditsError amount (totalCredits w)), db).
Proof.
  intros Hw Hlt. unfold deductCredits. run_step. rewrite Hw.
  destruct (Z.ltb_spec (totalCredits w) amount); [reflexivity | lia].
Qed.

Lemma deductCredits_uncovered (amount : Z) (preferred : option CreditSource)
    (db : DB) (w : WalletBalance) :
  walletBalances db !! u = Some w →
  amount ≤ totalCredits w →
  0 < remainingToDeduct (deduction w amount preferred) →
  deductCredits now u amount preferred db =
  (Throw (InsufficientCreditsError amount (totalCredits w)), db).
Proof.
  intros Hw Hle Hrem. unfold deductCredits. run_step. rewrite Hw.
  destruct (Z.ltb_spec (totalCredits w) amount); [lia |].
  destruct (Z.gtb_spec (remainingToDeduct (deduction w amount preferred)) 0);
    [reflexivity | lia].
Qed.

Lemma deductCredits_covered (amount : Z) (preferred : option CreditSource)
    (db : DB) (w : WalletBalance) :
  walletBalances db !! u = Some w →
  amount ≤ totalCredits w →
  remainingToDeduct (deduction w amount preferred) ≤ 0 →
  deductCredits now u amount preferred db =
  (Return
     (mkDeduction (deductedFrom (deduction w amount preferred))
        (newTotalCredits (deduction w amount preferred))),
   mkDB
     (alter
        (applyUpdates (deductionUpdates now (deduction w amount preferred)))
        u (walletBalances db))
     (creditGrants db) (usageLedger db) (nextId db)).
Proof.
  intros Hw Hle Hrem. unfold deductCredits. run_step. rewrite Hw.
  destruct (Z.ltb_spec (totalCredits w) amount); [lia |].
  destruct (Z.gtb_spec (remainingToDeduct (deduction w amount preferred)) 0);
    [lia | reflexivity].
Qed.

Lemma grantCredits_found (amount : Z) (src : CreditSource)
    (reason : CreditReason) (metadata : GrantMetadata) (db : DB)
    (w : WalletBalance) :
  walletBalances db !! u = Some w →
  grantCredits now u amount src reason metadata db =
  (Return tt,
   mkDB
     (alter (applyUpdates (grantUpdates now w amount src metadata)) u
        (walletBalances db))
     (creditGrants db ++
      [mkCreditGrant (nextId db) u src amount reason (metaExpiresAt metadata)
         (orNull (metaMpPaymentId metadata))
         (orNull (metaMpPreferenceId metadata)) now])
     (usageLedger db) (N.succ (nextId db))).
Proof.
  intros Hw. unfold grantCredits.
  rewrite run_transaction, run_mbind, createCreditGrant_run, run_mbind.
  rewrite (getOrCreateWallet_found _ w) by exact Hw. reflexivity.
Qed.

Lemma grantCredits_fresh (amount : Z) (src : CreditSource)
    (reason : CreditReason) (metadata : GrantMetadata) (db : DB) :
  walletBalances db !! u = None →
  grantCredits now u amount src reason metadata db =
  (Return tt,
   mkDB
     (alter
        (applyUpdates (grantUpdates now (newWallet now u) amount src metadata))
        u (<[u := newWallet now u]> (walletBalances db)))
     (creditGrants db ++
      [mkCreditGrant (nextId db) u src amount reason (metaExpiresAt metadata)
         (orNull (metaMpPaymentId metadata))
         (orNull (metaMpPreferenceId metadata)) now;
       mkCreditGrant (N.succ (nextId db)) u free 100000 monthly_free None
         None None now])
     (usageLedger db) (N.succ (N.succ (nextId db)))).
Proof.
  intros Hw. unfold grantCredits.
  rewrite run_transaction, run_mbind, createCreditGrant_run, run_mbind.
  rewrite getOrCreateWallet_fresh by exact Hw.
  cbn [walletBalances creditGrants usageLedger nextId].
  rewrite <- app_assoc. reflexivity.
Qed.

Lemma resetFreeCredits_found (amount : option Z) (db : DB)
    (w : WalletBalance) :
  walletBalances db !! u = Some w →
  resetFreeCredits now u amount db =
  (Return tt,
   mkDB
     (alter (applyUpdates (resetUpdates now w (default 100000 amount))) u
        (walletBalances db))
     (creditGrants db ++
      [mkCreditGrant (nextId db) u free (default 100000 amount) monthly_free
         None None None now])
     (usageLedger db) (N.succ (nextId db))).
Proof.
  intros Hw. unfold resetFreeCredits.
  rewrite run_transaction, run_mbind.
  rewrite (getOrCreateWallet_found _ w) by exact Hw. reflexivity.
Qed.

Lemma resetFreeCredits_fresh (amount : option Z) (db : DB) :
  walletBalances db !! u = None →
  resetFreeCredits now u amount db =
  (Return tt,
   mkDB
     (alter
        (applyUpdates
           (resetUpdates now (newWallet now u) (default 100000 amount)))
        u (<[u := newWallet now u]> (walletBalances db)))
     (creditGrants db ++
      [mkCreditGrant (nextId db) u free 100000 monthly_free None None None
         now;
       mkCreditGrant (N.succ (nextId db)) u free (default 100000 amount)
         monthly_free None None None now])
     (usageLedger db) (N.succ (N.succ (nextId db)))).
Proof.
  intros Hw. unfold resetFreeCredits.
  rewrite run_transaction, run_mbind.
  rewrite getOrCreateWallet_fresh by exact Hw.
  rewrite run_mbind. cbn [updateWallet modify].
  rewrite createCreditGrant_run.
  cbn [walletBalances creditGrants usageLedger nextId].
  rewrite <- app_assoc. reflexivity.
Qed.

End WalletOperations.

(** ** The arithmetic of a deduction *)

Ltac split_tests :=
  repeat match goal with
         | |- context [?a >? ?b] => destruct (Z.gtb_spec a b)
         | |- context [?a <? ?b] => destruct (Z.ltb_spec a b)
         | |- context [?a <=? ?b] => destruct (Z.leb_spec a b)
         | |- context [?a >=? ?b] => destruct (Z.geb_spec a b)
         end.

Ltac locals :=
  cbn [WalletModel.remainingToDeduct WalletModel.newPackageCredits
       WalletModel.newSubscriptionCredits WalletModel.newFreeCredits
       WalletModel.deductedFrom].

Section Deduction.

Import WalletModel.

Variable w : WalletBalance.
Variable amount : Z.

Hypothesis Hfree : 0 ≤ freeCredits w.
Hypothesis Hsubscription : 0 ≤ subscriptionCredits w.
Hypothesis Hpackage : 0 ≤ packageCredits w.
Hypothesis Hamount : 0 < amount.

Let fromPackage := Z.min (packageCredits w) amount.
Let fromSubscription := Z.min (subscriptionCredits w) (amount - fromPackage).
Let fromFree :=
  Z.min (freeCredits w) (amount - fromPackage - fromSubscription).

(** Without a preferred source each bucket gives up the minimum of its
    balance and of what is still owed, package first, free last. *)
Lemma deduction_automatic :
  deduction w amount None =
  mkLocals (amount - fromPackage - fromSubscription - fromFree)
    (if 0 <? fromFree then Some free
     else if 0 <? fromSubscription then Some subscription
     else if 0 <? fromPackage then Some package else None)
    (packageCredits w - fromPackage)
    (subscriptionCredits w - fromSubscription)
    (freeCredits w - fromFree).
Proof.
  unfold deduction, deductAutomatic.
  unfold deductFromPackage at 1. cbn [remainingToDeduct].
  destruct (Z.gtb_spec (packageCredits w) 0);
    destruct (Z.gtb_spec amount 0); try lia; cbn [andb].
  all: unfold deductFromSubscription; locals.
  all: destruct (Z.gtb_spec (subscriptionCredits w) 0); cbn [andb].
  all: split_tests; cbn [andb].
  all: unfold deductFromFree; locals.
  all: destruct (Z.gtb_spec (freeCredits w) 0); cbn [andb].
  all: split_tests; cbn [andb].
  all: subst fromFree fromSubscription fromPackage.
  all: try lia.
  all: f_equal; lia.
Qed.

Lemma deduction_automatic_remaining :
  remainingToDeduct (deduction w amount None) =
  Z.max 0
    (amount - (freeCredits w + subscriptionCredits w + packageCredits w)).
Proof.
  rewrite deduction_automatic. cbn [remainingToDeduct].
  subst fromFree fromSubscription fromPackage. lia.
Qed.

(** With a preferred source the whole amount comes out of that bucket or
    nothing is taken; [promo] names no bucket. *)
Lemma deduction_preferred (src : CreditSource) :
  let bucket :=
    match src with
    | free => Some (freeCredits w)
    | subscription => Some (subscriptionCredits w)
    | package => Some (packageCredits w)
    | promo => None
    end in
  deduction w amount (Some src) =
  match bucket with
  | Some b =>
      if amount <=? b
      then mkLocals 0 (Some src)
             (packageCredits w - (if decide (src = package) then amount else 0))
             (subscriptionCredits w
              - (if decide (src = subscription) then amount else 0))
             (freeCredits w - (if decide (src = free) then amount else 0))
      else mkLocals amount None (packageCredits w) (subscriptionCredits w)
             (freeCredits w)
  | None =>
      mkLocals amount None (packageCredits w) (subscriptionCredits w)
        (freeCredits w)
  end.
Proof.
  destruct src; cbn zeta iota; unfold deduction, deductPreferred; locals;
    try reflexivity.
  all: split_tests; try lia.
  all: repeat case_decide; try discriminate; try congruence.
  all: f_equal; lia.
Qed.

(** Whatever the branch, a deduction that is covered takes exactly the
    amount, leaves no bucket negative, and leaves none larger. *)
Lemma deduction_covered (preferred : option CreditSource) :
  remainingToDeduct (deduction w amount preferred) ≤ 0 →
  newTotalCredits (deduction w amount preferred) =
    freeCredits w + subscriptionCredits w + packageCredits w - amount
  ∧ 0 ≤ newFreeCredits (deduction w amount preferred) ≤ freeCredits w
  ∧ 0 ≤ newSubscriptionCredits (deduction w amount preferred)
      ≤ subscriptionCredits w
  ∧ 0 ≤ newPackageCredits (deduction w amount preferred) ≤ packageCredits w.
Proof.
  destruct preferred as [src |].
  - pose proof (deduction_preferred src) as Hd. cbn zeta in Hd.
    rewrite Hd. unfold newTotalCredits.
    destruct src; cbn iota; split_tests; locals.
    all: repeat case_decide; try discriminate; try congruence.
    all: lia.
  - rewrite deduction_automatic. unfold newTotalCredits.
    cbn [remainingToDeduct newPackageCredits newSubscriptionCredits
         newFreeCredits].
    subst fromFree fromSubscription fromPackage. lia.
Qed.

End Deduction.

(** ** Rows of the wallet table *)

Section Rows.

Variable u : string.

Lemma alter_found (f : WalletBalance → WalletBalance)
    (m : gmap string WalletBalance) (w : WalletBalance) :
  m !! u = Some w → alter f u m = <[u := f w]> m.
Proof.
  intros Hw. apply map_eq. intros k.
  rewrite lookup_alter, lookup_insert. case_decide; [| reflexivity].
  rewrite Hw. reflexivity.
Qed.

Lemma dbInvariant_alter (f : WalletBalance → WalletBalance) (db : DB)
    (grants : list CreditGrant) (ledger : list UsageLedgerEntry) (n : N) :
  dbInvariant db →
  (∀ w, walletBalances db !! u = Some w → walletInvariant w →
        walletInvariant (f w)) →
  dbInvariant (mkDB (alter f u (walletBalances db)) grants ledger n).
Proof.
  intros Hdb Hf k w'. cbn [walletBalances].
  rewrite lookup_alter_Some.
  intros [[<- (w & Hw & ->)] | [_ Hw]]; [apply Hf | ]; eauto.
Qed.

Lemma dbInvariant_insert (w : WalletBalance) (db : DB)
    (grants : list CreditGrant) (ledger : list UsageLedgerEntry) (n : N) :
  dbInvariant db →
  walletInvariant w →
  dbInvariant (mkDB (<[u := w]> (walletBalances db)) grants ledger n).
Proof.
  intros Hdb Hw k w'. cbn [walletBalances].
  rewrite lookup_insert_Some. intros [[_ <-] | [_ Hk]]; eauto.
Qed.

End Rows.

Lemma applyUpdates_deduction (now : Date) (st : WalletModel.Locals)
    (w : WalletBalance) :
  applyUpdates (WalletModel.deductionUpdates now st) w =
  mkWalletBalance (userId w) (WalletModel.newFreeCredits st)
    (WalletModel.newSubscriptionCredits st) (WalletModel.newPackageCredits st)
    (WalletModel.newTotalCredits st) (freeResetAt w)
    (subscriptionPeriodEnd w) now.
Proof. reflexivity. Qed.

Lemma newWallet_invariant (now : Date) (u : string) :
  walletInvariant (WalletModel.newWallet now u).
Proof. repeat split; cbn; lia. Qed.

Lemma grantUpdates_invariant (now : Date) (w : WalletBalance) (amount : Z)
    (src : CreditSource) (metadata : WalletModel.GrantMetadata) :
  walletInvariant w →
  0 < amount →
  walletInvariant
    (applyUpdates (WalletModel.grantUpdates now w amount src metadata) w).
Proof.
  intros (Htotal & Hf & Hs & Hp) Hamount.
  destruct src; repeat split; cbn; lia.
Qed.

Lemma resetUpdates_invariant (now : Date) (w : WalletBalance) (amount : Z) :
  walletInvariant w →
  0 < amount →
  walletInvariant (applyUpdates (WalletModel.resetUpdates now w amount) w).
Proof.
  intros (Htotal & Hf & Hs & Hp) Hamount. repeat split; cbn; lia.
Qed.

Lemma deductionUpdates_invariant (now : Date) (w : WalletBalance)
    (amount : Z) (preferred : option CreditSource) :
  walletInvariant w →
  0 < amount →
  WalletModel.remainingToDeduct (WalletModel.deduction w amount preferred)
  ≤ 0 →
  walletInvariant
    (applyUpdates
       (WalletModel.deductionUpdates now
          (WalletModel.deduction w amount preferred)) w).
Proof.
  intros (Htotal & Hf & Hs & Hp) Hamount Hrem.
  destruct (deduction_covered w amount Hf Hs Hp Hamount
              preferred Hrem) as (_ & ? & ? & ?).
  repeat split; cbn; unfold WalletModel.newTotalCredits; lia.
Qed.

(** ** Deduction *)

(** C1. For every wallet row that satisfies the wallet invariant and every
    positive amount not above its total, [deductCredits] without a preferred
    source returns and writes back: the package bucket less the minimum of its
    balance and the amount, then the subscription bucket less the minimum of
    its balance and what is still owed, then the free bucket likewise; the
    three parts add up to the amount, the new total is the old one less the
    amount, and the source returned is the last bucket drawn from.  At
    package 50, subscription 30, free 100 and an amount of 70 this is
    package 0, subscription 10, free 100, as checked right after. *)
Theorem deductCredits_priority_order (now : Date) (u : string) (db : DB)
    (w : WalletBalance) (amount : Z) :
  walletBalances db !! u = Some w →
  walletInvariant w →
  0 < amount ≤ totalCredits w →
  let fromPackage := Z.min (packageCredits w) amount in
  let fromSubscription :=
    Z.min (subscriptionCredits w) (amount - fromPackage) in
  let fromFree :=
    Z.min (freeCredits w) (amount - fromPackage - fromSubscription) in
  let lastDrawn :=
    if 0 <? fromFree then free
    else if 0 <? fromSubscription then subscription else package in
  fromPackage + fromSubscription + fromFree = amount
  ∧ WalletModel.deductCredits now u amount None db =
      (Return
         (WalletModel.mkDeduction (Some lastDrawn) (totalCredits w - amount)),
       mkDB
         (<[u :=
              mkWalletBalance (userId w) (freeCredits w - fromFree)
                (subscriptionCredits w - fromSubscription)
                (packageCredits w - fromPackage) (totalCredits w - amount)
                (freeResetAt w) (subscriptionPeriodEnd w) now]>
            (walletBalances db))
         (creditGrants db) (usageLedger db) (nextId db)).
Proof.
  intros Hw (Htotal & Hf & Hs & Hp) [Hpos Hle]. cbn zeta.
  split; [lia |].
  pose proof (deduction_automatic w amount Hf Hs Hp Hpos) as Hd.
  cbn zeta in Hd.
  rewrite (deductCredits_covered now u amount None db w Hw Hle)
    by (rewrite Hd; cbn; lia).
  rewrite (alter_found u _ _ w Hw), applyUpdates_deduction, Hd. locals.
  match goal with
  | |- context [WalletModel.newTotalCredits ?st] =>
      replace (WalletModel.newTotalCredits st) with (totalCredits w - amount)
        by (unfold WalletModel.newTotalCredits; locals; lia)
  end.
  do 3 f_equal.
  split_tests; try reflexivity; lia.
Qed.

Lemma deductCredits_priority_order_witness :
  walletBalances sampleDB !! "alice" = Some sampleWallet
  ∧ walletInvariant sampleWallet
  ∧ 0 < 70 ≤ totalCredits sampleWallet
  ∧ balanceOf "alice"
      (WalletModel.deductCredits sampleClock "alice" 70 None sampleDB).2
    = Some (0, 10, 100, 110).
Proof.
  assert (Hw : walletBalances sampleDB !! "alice" = Some sampleWallet)
    by reflexivity.
  assert (Hinv : walletInvariant sampleWallet) by (repeat split; cbn; lia).
  assert (Hamount : 0 < 70 ≤ totalCredits sampleWallet) by (cbn; lia).
  split; [exact Hw |]. split; [exact Hinv |]. split; [exact Hamount |].
  destruct (deductCredits_priority_order sampleClock "alice" sampleDB
              sampleWallet 70 Hw Hinv Hamount) as (_ & Hrun).
  rewrite Hrun. reflexivity.
Defined.

(** C2. When the buckets of a wallet row add up to less than the requested
    amount, [deductCredits] throws InsufficientCredits with the requested
    amount as required and the wallet total as available, whatever the
    preferred source, and the database is left as it was: every bucket and
    the total are as before the call.  The row is any row whose total is the
    sum of its buckets, or whose buckets are not negative; a row that meets
    the wallet invariant is both. *)
Theorem deductCredits_insufficient (now : Date) (u : string) (db : DB)
    (w : WalletBalance) (amount : Z) (preferred : option CreditSource) :
  walletBalances db !! u = Some w →
  totalCredits w = freeCredits w + subscriptionCredits w + packageCredits w
  ∨ (0 ≤ freeCredits w ∧ 0 ≤ subscriptionCredits w ∧ 0 ≤ packageCredits w) →
  freeCredits w + subscriptionCredits w + packageCredits w < amount →
  WalletModel.deductCredits now u amount preferred db =
  (Throw (InsufficientCreditsError amount (totalCredits w)), db).
Proof.
  intros Hw Hrow Hshort.
  destruct (Z.lt_ge_cases (totalCredits w) amount) as [Hlt | Hge].
  { apply deductCredits_total_short; assumption. }
  destruct Hrow as [Htotal | (Hf & Hs & Hp)]; [lia |].
  apply deductCredits_uncovered; [exact Hw | exact Hge |].
  destruct preferred as [src |].
  - pose proof (deduction_preferred w amount src) as Hd. cbn zeta in Hd.
    rewrite Hd.
    destruct src; cbn iota; split_tests; locals; lia.
  - rewrite deduction_automatic_remaining by lia. lia.
Qed.

Lemma deductCredits_insufficient_witness :
  walletBalances smallDB !! "bob" = Some smallWallet
  ∧ (totalCredits smallWallet =
       freeCredits smallWallet + subscriptionCredits smallWallet
       + packageCredits smallWallet
     ∨ (0 ≤ freeCredits smallWallet ∧ 0 ≤ subscriptionCredits smallWallet
        ∧ 0 ≤ packageCredits smallWallet))
  ∧ freeCredits smallWallet + subscriptionCredits smallWallet
    + packageCredits smallWallet < 150
  ∧ WalletModel.deductCredits sampleClock "bob" 150 None smallDB =
    (Throw (InsufficientCreditsError 150 100), smallDB).
Proof.
  assert (Hw : walletBalances smallDB !! "bob" = Some smallWallet)
    by reflexivity.
  assert (Hrow :
    totalCredits smallWallet =
      freeCredits smallWallet + subscriptionCredits smallWallet
      + packageCredits smallWallet
    ∨ (0 ≤ freeCredits smallWallet ∧ 0 ≤ subscriptionCredits smallWallet
       ∧ 0 ≤ packageCredits smallWallet)) by (left; reflexivity).
  split; [exact Hw |]. split; [exact Hrow |]. split; [cbn; lia |].
  apply (deductCredits_insufficient sampleClock "bob" smallDB smallWallet 150
           None Hw Hrow).
  cbn. lia.
Defined.

(** C9. For every database and every positive amount, [deductCredits] with
    the preferred source [promo] throws InsufficientCredits and leaves the
    database as it was, also when the buckets hold more than the amount: the
    available amount it reports is the wallet total, or 0 without a wallet. *)
Theorem deductCredits_promo_throws (now : Date) (u : string) (db : DB)
    (amount : Z) :
  0 < amount →
  WalletModel.deductCredits now u amount (Some promo) db =
  (Throw
     (InsufficientCreditsError amount
        (default 0 (totalCredits <$> walletBalances db !! u))),
   db).
Proof.
  intros Hpos. destruct (walletBalances db !! u) as [w |] eqn:Hw; cbn.
  - destruct (Z.lt_ge_cases (totalCredits w) amount) as [Hlt | Hge].
    + apply deductCredits_total_short; assumption.
    + apply deductCredits_uncovered; [exact Hw | exact Hge |].
      cbn. exact Hpos.
  - apply deductCredits_no_wallet. exact Hw.
Qed.

Lemma deductCredits_promo_throws_witness :
  0 < 70
  ∧ WalletModel.deductCredits sampleClock "alice" 70 (Some promo) sampleDB =
    (Throw (InsufficientCreditsError 70 180), sampleDB).
Proof.
  split; [lia |].
  apply (deductCredits_promo_throws sampleClock "alice" sampleDB 70). lia.
Defined.

(** Outside the positive amounts the preference for [promo] does not
    throw: an amount of 0 is covered before any bucket is looked at, the row
    is written back with its balances as they were, and no source is
    returned. *)
Example deductCredits_promo_zero :
  (WalletModel.deductCredits sampleClock "alice" 0 (Some promo) sampleDB).1
  = Return (WalletModel.mkDeduction None 180)
  ∧ balanceOf "alice"
      (WalletModel.deductCredits sampleClock "alice" 0 (Some promo)
         sampleDB).2
    = Some (50, 30, 100, 180).
Proof. split; reflexivity. Qed.

(** ** Grants *)

Ltac balances :=
  apply (f_equal Some); repeat (apply (f_equal2 pair); [| lia]); lia.

Lemma balanceOf_alter (f : WalletBalance → WalletBalance) (u : string)
    (m : gmap string WalletBalance) (w : WalletBalance)
    (grants : list CreditGrant) (ledger : list UsageLedgerEntry) (n : N) :
  m !! u = Some w →
  balanceOf u (mkDB (alter f u m) grants ledger n) =
  Some (packageCredits (f w), subscriptionCredits (f w), freeCredits (f w),
        totalCredits (f w)).
Proof.
  intros Hw. unfold balanceOf. cbn [walletBalances].
  rewrite lookup_alter_eq, Hw. reflexivity.
Qed.

(** The balance a grant leaves, from the wallet [getOrCreateWallet] handed
    to it. *)
Lemma grantCredits_balance (now : Date) (u : string) (amount : Z)
    (src : CreditSource) (reason : CreditReason)
    (metadata : WalletModel.GrantMetadata) (db : DB) :
  let w := walletAtHand now u db in
  balanceOf u (WalletModel.grantCredits now u amount src reason metadata db).2
  = Some (packageCredits w
          + match src with package | promo => amount | _ => 0 end,
          subscriptionCredits w
          + match src with subscription => amount | _ => 0 end,
          freeCredits w + match src with free => amount | _ => 0 end,
          freeCredits w + subscriptionCredits w + packageCredits w + amount).
Proof.
  unfold walletAtHand. cbn zeta.
  destruct (walletBalances db !! u) as [w |] eqn:Hw.
  - rewrite (grantCredits_found now u amount src reason
               metadata db w Hw).
    cbn [snd default]. rewrite (balanceOf_alter _ u _ w) by exact Hw.
    destruct src; cbn; balances.
  - rewrite (grantCredits_fresh now u amount src reason
               metadata db Hw).
    cbn [snd default].
    rewrite (balanceOf_alter _ u _ (WalletModel.newWallet now u))
      by apply lookup_insert_eq.
    destruct src; cbn; balances.
Qed.

(** C10. A grant with source [promo] leaves the wallet table exactly as the
    same grant with source [package] does, and the row has no column that
    tells the two apart.  When the credit values the grant writes are in the
    range of their columns, the amount is added to the package bucket (and
    to the total) and the other two buckets stay. *)
Theorem grantCredits_promo_as_package (now : Date) (u : string) (amount : Z)
    (reason : CreditReason) (metadata : WalletModel.GrantMetadata) (db : DB) :
  walletBalances
    (WalletModel.grantCredits now u amount promo reason metadata db).2
  = walletBalances
      (WalletModel.grantCredits now u amount package reason metadata db).2
  ∧ (grantStorable (walletAtHand now u db) amount promo →
     balanceOf u
       (WalletModel.grantCredits now u amount promo reason metadata db).2
     = Some (packageCredits (walletAtHand now u db) + amount,
             subscriptionCredits (walletAtHand now u db),
             freeCredits (walletAtHand now u db),
             freeCredits (walletAtHand now u db)
             + subscriptionCredits (walletAtHand now u db)
             + packageCredits (walletAtHand now u db) + amount)).
Proof.
  split.
  - destruct (walletBalances db !! u) as [w |] eqn:Hw.
    + rewrite !(grantCredits_found now u amount _ reason
                  metadata db w Hw). reflexivity.
    + rewrite !(grantCredits_fresh now u amount _ reason
                  metadata db Hw). reflexivity.
  - intros _. rewrite grantCredits_balance. cbn. balances.
Qed.

Lemma grantCredits_promo_as_package_witness :
  grantStorable (walletAtHand sampleClock "alice" sampleDB) 500 promo
  ∧ balanceOf "alice"
      (WalletModel.grantCredits sampleClock "alice" 500 promo promo_reason
         WalletModel.noMetadata sampleDB).2
    = Some (550, 30, 100, 680)
  ∧ balanceOf "alice"
      (WalletModel.grantCredits sampleClock "alice" 500 package purchase
         WalletModel.noMetadata sampleDB).2
    = Some (550, 30, 100, 680).
Proof.
  assert (Hrange :
    grantStorable (walletAtHand sampleClock "alice" sampleDB) 500 promo)
    by (vm_compute; repeat split; discriminate).
  split; [exact Hrange |].
  destruct (grantCredits_promo_as_package sampleClock "alice" 500
              promo_reason WalletModel.noMetadata sampleDB)
    as (_ & Hpromo).
  split; [rewrite (Hpromo Hrange); reflexivity | reflexivity].
Defined.

(** C8, as the code has it. When [grantCredits] is called for a user without
    a wallet row, the row is created with 100000 free credits and empty
    subscription and package buckets; when the credit values the grant
    writes on that row are in the range of their columns (the amount, and
    100000 plus the amount, are int4), the granted amount is added to it:
    afterwards the total is 100000 plus the granted amount. *)
Theorem grantCredits_fresh_wallet_seeded (now : Date) (u : string)
    (amount : Z) (src : CreditSource) (reason : CreditReason)
    (metadata : WalletModel.GrantMetadata) (db : DB) :
  walletBalances db !! u = None →
  grantStorable (WalletModel.newWallet now u) amount src →
  balanceOf u (WalletModel.grantCredits now u amount src reason metadata db).2
  = Some (match src with package | promo => amount | _ => 0 end,
          match src with subscription => amount | _ => 0 end,
          100000 + match src with free => amount | _ => 0 end,
          100000 + amount).
Proof.
  intros Hw _. rewrite grantCredits_balance. unfold walletAtHand.
  rewrite Hw. destruct src; cbn; balances.
Qed.

Lemma grantCredits_fresh_wallet_seeded_witness :
  walletBalances emptyDB !! "alice" = None
  ∧ grantStorable (WalletModel.newWallet sampleClock "alice") 500 package
  ∧ balanceOf "alice"
      (WalletModel.grantCredits sampleClock "alice" 500 package purchase
         WalletModel.noMetadata emptyDB).2
    = Some (500, 0, 100000, 100500).
Proof.
  assert (Hrange :
    grantStorable (WalletModel.newWallet sampleClock "alice") 500 package)
    by (vm_compute; repeat split; discriminate).
  split; [reflexivity |]. split; [exact Hrange |].
  apply (grantCredits_fresh_wallet_seeded sampleClock "alice" 500 package
           purchase WalletModel.noMetadata emptyDB);
    [reflexivity | exact Hrange].
Defined.

(** C8, as stated, fails: a grant of 500 package credits to a user without a
    wallet row leaves a total of 100500, not 500, and the row was seeded
    with 100000 free credits, not with zero in every bucket. *)
Lemma grantCredits_fresh_wallet_not_zero_seeded :
  walletBalances emptyDB !! "alice" = None
  ∧ (WalletModel.getOrCreateWallet sampleClock "alice" emptyDB).1
    = Return (mkWalletBalance "alice" 100000 0 0 100000
                (Some (mkDate 2025 10 1 0)) None sampleClock)
  ∧ balanceOf "alice"
      (WalletModel.grantCredits sampleClock "alice" 500 package purchase
         WalletModel.noMetadata emptyDB).2
    = Some (500, 0, 100000, 100500)
  ∧ balanceOf "alice"
      (WalletModel.grantCredits sampleClock "alice" 500 package purchase
         WalletModel.noMetadata emptyDB).2
    ≠ Some (500, 0, 0, 500).
Proof.
  split; [reflexivity |]. split; [reflexivity |].
  split; [reflexivity |]. vm_compute. discriminate.
Qed.

(** ** The wallet invariant *)

Section Invariant.

Variable now : Date.

Lemma getOrCreateWallet_invariant (u : string) (db : DB) :
  dbInvariant db → dbInvariant (WalletModel.getOrCreateWallet now u db).2.
Proof.
  intros Hdb. destruct (walletBalances db !! u) as [w |] eqn:Hw.
  - rewrite (getOrCreateWallet_found now u db w Hw). exact Hdb.
  - rewrite (getOrCreateWallet_fresh now u db Hw). cbn [snd].
    apply dbInvariant_insert; [exact Hdb | apply newWallet_invariant].
Qed.

Lemma grantCredits_invariant (u : string) (amount : Z) (src : CreditSource)
    (reason : CreditReason) (metadata : WalletModel.GrantMetadata) (db : DB) :
  dbInvariant db →
  0 < amount →
  dbInvariant (WalletModel.grantCredits now u amount src reason metadata db).2.
Proof.
  intros Hdb Hpos. destruct (walletBalances db !! u) as [w |] eqn:Hw.
  - rewrite (grantCredits_found now u amount src reason metadata db w Hw).
    cbn [snd]. apply dbInvariant_alter; [exact Hdb |].
    intros w' Hw' Hinv. assert (w' = w) as -> by congruence.
    apply grantUpdates_invariant; assumption.
  - rewrite (grantCredits_fresh now u amount src reason metadata db Hw).
    cbn [snd]. rewrite alter_insert_eq.
    apply dbInvariant_insert; [exact Hdb |].
    apply grantUpdates_invariant; [apply newWallet_invariant | exact Hpos].
Qed.

Lemma resetFreeCredits_invariant (u : string) (amount : option Z) (db : DB) :
  dbInvariant db →
  0 < default 100000 amount →
  dbInvariant (WalletModel.resetFreeCredits now u amount db).2.
Proof.
  intros Hdb Hpos. destruct (walletBalances db !! u) as [w |] eqn:Hw.
  - rewrite (resetFreeCredits_found now u amount db w Hw).
    cbn [snd]. apply dbInvariant_alter; [exact Hdb |].
    intros w' Hw' Hinv. assert (w' = w) as -> by congruence.
    apply resetUpdates_invariant; assumption.
  - rewrite (resetFreeCredits_fresh now u amount db Hw).
    cbn [snd]. rewrite alter_insert_eq.
    apply dbInvariant_insert; [exact Hdb |].
    apply resetUpdates_invariant; [apply newWallet_invariant | exact Hpos].
Qed.

(** A deduction either throws and leaves the database as it was, or returns
    after one write to the row of the user. *)
Lemma deductCredits_cases (u : string) (amount : Z)
    (preferred : option CreditSource) (db : DB) :
  (∃ e, WalletModel.deductCredits now u amount preferred db = (Throw e, db))
  ∨ (∃ w,
       walletBalances db !! u = Some w
       ∧ amount ≤ totalCredits w
       ∧ WalletModel.remainingToDeduct
           (WalletModel.deduction w amount preferred) ≤ 0
       ∧ WalletModel.deductCredits now u amount preferred db =
         (Return
            (WalletModel.mkDeduction
               (WalletModel.deductedFrom
                  (WalletModel.deduction w amount preferred))
               (WalletModel.newTotalCredits
                  (WalletModel.deduction w amount preferred))),
          mkDB
            (alter
               (applyUpdates
                  (WalletModel.deductionUpdates now
                     (WalletModel.deduction w amount preferred)))
               u (walletBalances db))
            (creditGrants db) (usageLedger db) (nextId db))).
Proof.
  destruct (walletBalances db !! u) as [w |] eqn:Hw.
  - destruct (Z.lt_ge_cases (totalCredits w) amount) as [Hlt | Hge].
    + left. eexists. apply deductCredits_total_short; eassumption.
    + destruct (Z.lt_ge_cases 0
                  (WalletModel.remainingToDeduct
                     (WalletModel.deduction w amount preferred)))
        as [Hrem | Hrem].
      * left. eexists. apply deductCredits_uncovered; eassumption.
      * right. exists w. repeat split; try assumption.
        apply deductCredits_covered; assumption.
  - left. eexists. apply deductCredits_no_wallet. exact Hw.
Qed.

Lemma deductCredits_invariant (u : string) (amount : Z)
    (preferred : option CreditSource) (db : DB) :
  dbInvariant db →
  0 < amount →
  dbInvariant (WalletModel.deductCredits now u amount preferred db).2.
Proof.
  intros Hdb Hpos.
  destruct (deductCredits_cases u amount preferred db)
    as [[e ->] | (w & Hw & Hle & Hrem & ->)]; cbn [snd]; [exact Hdb |].
  apply dbInvariant_alter; [exact Hdb |].
  intros w' Hw' Hinv. assert (w' = w) as -> by congruence.
  apply deductionUpdates_invariant; assumption.
Qed.

Lemma runCall_invariant (c : Call) (db : DB) :
  dbInvariant db → positiveAmount c → dbInvariant (runCall now c db).
Proof.
  intros Hdb Hpos. destruct c; cbn [runCall positiveAmount] in *.
  - apply getOrCreateWallet_invariant; assumption.
  - apply grantCredits_invariant; assumption.
  - apply deductCredits_invariant; assumption.
  - apply resetFreeCredits_invariant; assumption.
Qed.

End Invariant.

Lemma emptyDB_invariant : dbInvariant emptyDB.
Proof. intros u w Hw. cbn in Hw. rewrite lookup_empty in Hw. discriminate. Qed.

(** C4. The wallet invariant (the total is the sum of the three buckets and
    no bucket is negative, in every row) holds after every call of a sequence
    of wallet creations, grants, deductions and resets whose amounts are
    positive, from any database in which it holds; the empty database is
    one. *)
Theorem wallet_invariant_preserved (calls : list (Date * Call)) (db : DB) :
  dbInvariant db →
  Forall (λ c, positiveAmount c.2) calls →
  ∀ done rest, calls = done ++ rest → dbInvariant (runCalls done db).
Proof.
  intros Hdb Hpos done rest ->. apply Forall_app in Hpos as [Hpos _].
  clear rest. revert db Hdb.
  induction Hpos as [| [now c] done Hc Hdone IH]; intros db Hdb.
  - exact Hdb.
  - cbn [runCalls]. apply IH. apply runCall_invariant; assumption.
Qed.

Lemma wallet_invariant_preserved_witness :
  dbInvariant emptyDB
  ∧ Forall (λ c, positiveAmount c.2) sampleCalls
  ∧ dbInvariant (runCalls sampleCalls emptyDB).
Proof.
  assert (Hpos : Forall (λ c, positiveAmount c.2) sampleCalls)
    by (repeat constructor; cbn; lia).
  split; [exact emptyDB_invariant |]. split; [exact Hpos |].
  apply (wallet_invariant_preserved sampleCalls emptyDB emptyDB_invariant
           Hpos sampleCalls []).
  symmetry. apply app_nil_r.
Defined.

(** ** Binary64 rounding in the two products of the billing code *)

Section Rounding.

Lemma roundMagnitude_exact (m e : Z) :
  0 ≤ m < 2 ^ 53 → Js.roundMagnitude m e = Js.mkNumber m e.
Proof.
  intros [Hm Hlt]. unfold Js.roundMagnitude, Js.precision.
  assert (Z.log2 m < 53).
  { destruct (Z.eq_dec m 0) as [-> | Hne]; [cbn; lia |].
    apply Z.log2_lt_pow2; lia. }
  destruct (Z.leb_spec (Z.log2 m + 1 - 53) 0); [reflexivity | lia].
Qed.

Lemma roundMagnitude_faithful (m e : Z) :
  0 ≤ m →
  ∃ s, 0 ≤ s
    ∧ Js.expo (Js.roundMagnitude m e) = e + s
    ∧ m / 2 ^ s ≤ Js.mant (Js.roundMagnitude m e) ≤ m / 2 ^ s + 1
    ∧ (0 < s → 2 ^ (s + 52) ≤ m < 2 ^ (s + 53))
    ∧ (s = 0 → Js.mant (Js.roundMagnitude m e) = m).
Proof.
  intros Hm. unfold Js.roundMagnitude, Js.precision.
  destruct (Z.leb_spec (Z.log2 m + 1 - 53) 0) as [Hs | Hs].
  - exists 0. cbn [Js.expo Js.mant]. rewrite Z.div_1_r.
    repeat split; try lia.
  - exists (Z.log2 m + 1 - 53). cbn [Js.expo Js.mant].
    assert (0 < m) by (destruct (Z.eq_dec m 0) as [-> |]; [cbn in Hs|]; lia).
    pose proof (Z.log2_spec m ltac:(lia)) as [Hlo Hhi].
    repeat split; try lia.
    + destruct (_ || _); lia.
    + destruct (_ || _); lia.
    + replace (Z.log2 m + 1 - 53 + 52) with (Z.log2 m) by lia. exact Hlo.
    + replace (Z.log2 m + 1 - 53 + 53) with (Z.succ (Z.log2 m)) by lia.
      exact Hhi.
Qed.

Lemma ceil_div_unique (x t c : Z) :
  0 < t → (c - 1) * t < x ≤ c * t → - ((- x) / t) = c.
Proof.
  intros Ht [Hlo Hhi].
  assert ((- x) / t = - c); [| lia].
  symmetry. apply (Z.div_unique_pos (- x) t (- c) (c * t - x)); lia.
Qed.

Lemma pow2_split (s k : Z) : 0 ≤ s ≤ k → 2 ^ s * 2 ^ (k - s) = 2 ^ k.
Proof. intros. rewrite <- Z.pow_add_r by lia. f_equal. lia. Qed.

Lemma ofInt_exact (n : Z) : 0 ≤ n < 2 ^ 53 → Js.ofInt n = Js.mkNumber n 0.
Proof.
  intros Hn. unfold Js.ofInt, Js.round.
  destruct (Z.ltb_spec n 0); [lia |]. apply roundMagnitude_exact. exact Hn.
Qed.

Lemma ceil_mul_1_2 (n : Z) :
  0 ≤ n < creditRange →
  Js.ceil (Js.mul (Js.ofInt n) Js.lit_1_2) = (6 * n + 4) / 5.
Proof.
  unfold creditRange. intros Hn.
  rewrite ofInt_exact by (change (2 ^ 48) with 281474976710656 in Hn; lia).
  unfold Js.mul, Js.lit_1_2, Js.round. cbn [Js.mant Js.expo].
  destruct (Z.ltb_spec (n * 5404319552844595) 0); [lia |].
  destruct (roundMagnitude_faithful (n * 5404319552844595) (0 + -52))
    as (s & Hs & Hexpo & [Hlo Hhi] & Hrange & Hexact); [lia |].
  set (r := Js.roundMagnitude _ _) in *.
  set (c := (6 * n + 4) / 5).
  assert (Hc : 5 * c ≤ 6 * n + 4 < 5 * c + 5).
  { subst c. pose proof (Z.div_mod (6 * n + 4) 5 ltac:(lia)).
    pose proof (Z.mod_pos_bound (6 * n + 4) 5 ltac:(lia)). lia. }
  change (2 ^ 48) with 281474976710656 in Hn.
  assert (Hs50 : s < 50).
  { destruct (Z.eq_dec s 0); [lia |].
    destruct Hrange as [Hr _]; [lia |].
    assert (Hlt : 2 ^ (s + 52) < 2 ^ 102).
    { eapply Z.le_lt_trans; [exact Hr |].
      change (2 ^ 102) with 5070602400912917605986812821504. lia. }
    apply Z.pow_lt_mono_r_iff in Hlt; lia. }
  unfold Js.ceil. rewrite Hexpo.
  destruct (Z.leb_spec 0 (0 + -52 + s)); [lia |].
  replace (- (0 + -52 + s)) with (52 - s) by lia.
  pose proof (pow2_split s 52 ltac:(lia)) as Hsplit.
  set (S := 2 ^ s) in *. set (T := 2 ^ (52 - s)) in *.
  assert (HS : 0 < S) by (subst S; apply Z.pow_pos_nonneg; lia).
  assert (HT : 0 < T) by (subst T; apply Z.pow_pos_nonneg; lia).
  change (2 ^ 52) with 4503599627370496 in Hsplit.
  set (P := n * 5404319552844595) in *.
  assert (HP : 5 * P = 6 * n * 4503599627370496 - n) by (subst P; lia).
  pose proof (Z.div_mod P S ltac:(lia)) as Hdm.
  pose proof (Z.mod_pos_bound P S HS) as Hmod.
  set (q := P / S) in *.
  assert (HSbound : 5 * S ≤ 6 * n + 5).
  { destruct (Z.eq_dec s 0) as [-> | Hne]; [subst S; cbn; lia |].
    destruct Hrange as [Hr _]; [lia |].
    replace (2 ^ (s + 52)) with (S * 4503599627370496) in Hr
      by (subst S; rewrite Z.pow_add_r by lia; reflexivity).
    lia. }
  apply ceil_div_unique; [exact HT |]. split.
  - (* (c - 1) * T < mant r *)
    apply Z.lt_le_trans with q; [| exact Hlo].
    assert ((c - 1) * T * S + S ≤ P); [| nia].
    replace ((c - 1) * T * S) with ((c - 1) * 4503599627370496) by nia.
    lia.
  - (* mant r ≤ c * T *)
    destruct (Z.eq_dec n 0) as [-> | Hn0].
    + assert (s = 0) as -> .
      { destruct (Z.eq_dec s 0); [assumption |].
        destruct Hrange as [Hr _]; [lia |]. subst P. cbn in Hr.
        pose proof (Z.pow_pos_nonneg 2 (s + 52)). lia. }
      rewrite Hexact by reflexivity. subst P c T. cbn. lia.
    + assert (P < c * T * S).
      { replace (c * T * S) with (c * 4503599627370496) by nia. lia. }
      assert (q < c * T) by nia. lia.
Qed.

Lemma gtb_mul_0_01 (d t : Z) :
  0 ≤ t < creditRange →
  0 ≤ d < 2 ^ 53 →
  Js.gtb (Js.ofInt d) (Js.mul (Js.ofInt t) Js.lit_0_01) = (t <? 100 * d).
Proof.
  unfold creditRange. intros Ht Hd.
  rewrite !ofInt_exact by (change (2 ^ 48) with 281474976710656 in Ht; lia).
  unfold Js.mul, Js.lit_0_01, Js.round. cbn [Js.mant Js.expo].
  destruct (Z.ltb_spec (t * 5764607523034235) 0); [lia |].
  destruct (roundMagnitude_faithful (t * 5764607523034235) (0 + -59))
    as (s & Hs & Hexpo & [Hlo Hhi] & Hrange & Hexact); [lia |].
  set (r := Js.roundMagnitude _ _) in *.
  change (2 ^ 48) with 281474976710656 in Ht.
  assert (Hs50 : s < 50).
  { destruct (Z.eq_dec s 0); [lia |].
    destruct Hrange as [Hr _]; [lia |].
    assert (Hlt : 2 ^ (s + 52) < 2 ^ 102).
    { eapply Z.le_lt_trans; [exact Hr |].
      change (2 ^ 102) with 5070602400912917605986812821504. lia. }
    apply Z.pow_lt_mono_r_iff in Hlt; lia. }
  unfold Js.gtb, Js.ltb. cbn [Js.mant Js.expo]. rewrite Hexpo.
  replace (Z.min (0 + -59 + s) 0) with (-59 + s) by lia.
  replace (0 + -59 + s - (-59 + s)) with 0 by lia.
  replace (0 - (-59 + s)) with (59 - s) by lia.
  rewrite Z.pow_0_r, Z.mul_1_r.
  pose proof (pow2_split s 59 ltac:(lia)) as Hsplit.
  set (S := 2 ^ s) in *. set (T := 2 ^ (59 - s)) in *.
  assert (HS : 0 < S) by (subst S; apply Z.pow_pos_nonneg; lia).
  assert (HT : 0 < T) by (subst T; apply Z.pow_pos_nonneg; lia).
  change (2 ^ 59) with 576460752303423488 in Hsplit.
  set (P := t * 5764607523034235) in *.
  assert (HP : 100 * P = t * 576460752303423488 + 12 * t) by (subst P; lia).
  pose proof (Z.div_mod P S ltac:(lia)) as Hdm.
  pose proof (Z.mod_pos_bound P S HS) as Hmod.
  set (q := P / S) in *.
  assert (HSbound :
    100 * S * 4503599627370496 ≤ 100 * P + 100 * 4503599627370496).
  { destruct (Z.eq_dec s 0) as [-> | Hne]; [subst S; cbn; lia |].
    destruct Hrange as [Hr _]; [lia |].
    replace (2 ^ (s + 52)) with (S * 4503599627370496) in Hr
      by (subst S; rewrite Z.pow_add_r by lia; reflexivity).
    lia. }
  destruct (Z.ltb_spec t (100 * d)) as [Hlt | Hge].
  - apply Z.ltb_lt.
    assert (P + 2 * S ≤ d * T * S).
    { replace (d * T * S) with (d * 576460752303423488) by nia. lia. }
    assert (q + 2 ≤ d * T) by nia. lia.
  - apply Z.ltb_ge.
    assert (d * T * S ≤ P).
    { replace (d * T * S) with (d * 576460752303423488) by nia. lia. }
    assert (d * T ≤ q) by nia. lia.
Qed.

Lemma ceilDiv_6_5 (n : Z) : ceilDiv (n * 12) 10 = (6 * n + 4) / 5.
Proof.
  unfold ceilDiv.
  pose proof (Z.div_mod (- (n * 12)) 10 ltac:(lia)).
  pose proof (Z.mod_pos_bound (- (n * 12)) 10 ltac:(lia)).
  pose proof (Z.div_mod (6 * n + 4) 5 ltac:(lia)).
  pose proof (Z.mod_pos_bound (6 * n + 4) 5 ltac:(lia)).
  lia.
Qed.

End Rounding.

(** ** The affordability check *)

Lemma canAfford_found (now : Date) (u : string) (estimatedCredits : Z)
    (db : DB) (w : WalletBalance) :
  walletBalances db !! u = Some w →
  WalletModel.canAfford now u estimatedCredits db =
  (Return (totalCredits w >=? estimatedCredits), db).
Proof.
  intros Hw. unfold WalletModel.canAfford.
  rewrite run_mbind, (getOrCreateWallet_found now u db w Hw). reflexivity.
Qed.

(** C6. [canUserAfford] does not compare with the balance of the wallet.
    For an estimate of 1000 it computes the required amount as the claim
    says, 1200, and compares it with the 100000 credits that
    [getWalletBalance] builds for every user: for a user whose stored
    wallet holds 1100 credits it answers canAfford = true with 100000 as
    available, where the claim says false.  The notes in the method name
    [WalletModel.canAfford], called with the required amount, as the check
    on the stored wallet: that one answers false at 1100 and true at 1300. *)
Lemma canUserAfford_fixed_balance :
  totalCredits <$> walletBalances (walletDB 1100) !! "alice" = Some 1100
  ∧ BillingService.required
      (BillingService.canUserAfford plainCredits sampleClock "alice" 1000)
    = 1200
  ∧ BillingService.available
      (BillingService.canUserAfford plainCredits sampleClock "alice" 1000)
    = 100000
  ∧ BillingService.canAfford
      (BillingService.canUserAfford plainCredits sampleClock "alice" 1000)
    = true
  ∧ (WalletModel.canAfford sampleClock "alice" 1200 (walletDB 1100)).1
    = Return false
  ∧ (WalletModel.canAfford sampleClock "alice" 1200 (walletDB 1300)).1
    = Return true.
Proof. repeat split; vm_compute; reflexivity. Qed.

(** ** Reconciliation *)

Lemma sqlSum_default (rows : list Z) :
  default 0 (WalletModel.sqlSum rows) = sumZ rows.
Proof. destruct rows; reflexivity. Qed.

Lemma reconcileBalance_found (now : Date) (u : string) (db : DB)
    (w : WalletBalance) :
  walletBalances db !! u = Some w →
  WalletModel.reconcileBalance now u db =
  (Return
     (WalletModel.mkReconciliation (totalCredits w)
        (totalGranted u db - totalUsed u db)
        (Z.abs (totalCredits w - (totalGranted u db - totalUsed u db)))
        (Js.gtb
           (Js.ofInt
              (Z.abs (totalCredits w - (totalGranted u db - totalUsed u db))))
           (Js.mul (Js.ofInt (totalCredits w)) Js.lit_0_01))),
   db).
Proof.
  intros Hw. unfold WalletModel.reconcileBalance.
  rewrite run_mbind, (getOrCreateWallet_found now u db w Hw).
  rewrite run_mbind. cbn [gets]. rewrite run_mbind. cbn [gets].
  rewrite run_mret, !sqlSum_default. reflexivity.
Qed.

(** C7, as the code has it. For a user with a wallet row, reconciliation
    computes the calculated balance as the sum of all the user's grants less
    the sum of the credits of all the user's ledger entries, whatever their
    status, and the difference as its distance from the wallet total; for a
    total in the credit range it asks for an adjustment exactly when the
    difference is more than 1% of the wallet total. *)
Theorem reconcileBalance_all_entries (now : Date) (u : string) (db : DB)
    (w : WalletBalance) :
  walletBalances db !! u = Some w →
  0 ≤ totalCredits w < creditRange →
  Z.abs (totalCredits w - (totalGranted u db - totalUsed u db)) < 2 ^ 53 →
  ∃ r,
    WalletModel.reconcileBalance now u db = (Return r, db)
    ∧ WalletModel.walletTotal r = totalCredits w
    ∧ WalletModel.calculatedTotal r = totalGranted u db - totalUsed u db
    ∧ WalletModel.difference r
      = Z.abs (totalCredits w - WalletModel.calculatedTotal r)
    ∧ (WalletModel.needsAdjustment r = false
       ↔ 100 * WalletModel.difference r
         ≤ BillingConfig.RECONCILIATION_THRESHOLD_PERCENT * totalCredits w).
Proof.
  intros Hw Htotal Hdiff. eexists.
  split; [apply (reconcileBalance_found now u db w Hw) |].
  cbn [WalletModel.walletTotal WalletModel.calculatedTotal
       WalletModel.difference WalletModel.needsAdjustment].
  split; [reflexivity |]. split; [reflexivity |]. split; [reflexivity |].
  rewrite (gtb_mul_0_01 _ _ Htotal (conj (Z.abs_nonneg _) Hdiff)).
  rewrite Z.ltb_ge. unfold BillingConfig.RECONCILIATION_THRESHOLD_PERCENT.
  lia.
Qed.

Lemma reconcileBalance_all_entries_witness :
  totalCredits <$> walletBalances settledDB !! "alice" = Some 97500
  ∧ 0 ≤ 97500 < creditRange
  ∧ totalGranted "alice" settledDB - totalUsed "alice" settledDB = 97500
  ∧ (WalletModel.reconcileBalance sampleClock "alice" settledDB).1
    = Return (WalletModel.mkReconciliation 97500 97500 0 false).
Proof.
  assert (Hrange : 0 ≤ 97500 < creditRange)
    by (vm_compute; split; congruence).
  split; [reflexivity |]. split; [exact Hrange |]. split; [reflexivity |].
  destruct (reconcileBalance_all_entries sampleClock "alice" settledDB
              (mkWalletBalance "alice" 97500 0 0 97500
                 (Some (mkDate 2025 10 1 0)) None sampleClock))
    as (r & Hrun & Htotal & Hcalc & Hdiff & Hiff).
  - vm_compute. reflexivity.
  - exact Hrange.
  - vm_compute. reflexivity.
  - rewrite Hrun. cbn [fst]. destruct r as [t c d n].
    cbn in Htotal, Hcalc, Hdiff, Hiff. subst t c d.
    f_equal. f_equal. apply Hiff. vm_compute. discriminate.
Defined.

(** C7, as stated, fails: with a wallet of 100000 credits, one grant of
    100000 and one ledger entry of 3000 credits that is still pending, the
    grants less the completed entries are 100000, yet the calculated balance
    is 97000 and an adjustment is asked for. *)
Lemma reconcileBalance_counts_pending :
  totalGranted "alice" pendingDB - totalCompleted "alice" pendingDB = 100000
  ∧ totalCredits <$> walletBalances pendingDB !! "alice" = Some 100000
  ∧ (WalletModel.reconcileBalance sampleClock "alice" pendingDB).1
    = Return (WalletModel.mkReconciliation 100000 97000 3000 true)
  ∧ 97000 ≠ 100000.
Proof.
  split; [vm_compute; reflexivity |]. split; [vm_compute; reflexivity |].
  split; [vm_compute; reflexivity | discriminate].
Qed.

(** ** The usage ledger *)

Section Ledger.

Import BillingModel.

Variable now : Date.
Variable params : RecordUsageParams.

Lemma createUsageLedgerEntry_existing (db : DB) (e : UsageLedgerEntry) :
  head (entriesWithKey (paramIdempotencyKey params) db) = Some e →
  createUsageLedgerEntry now params db = (Throw IdempotencyError, db).
Proof.
  intros He. unfold createUsageLedgerEntry. rewrite run_mbind.
  unfold findUsageByIdempotencyKey. cbn [gets].
  unfold entriesWithKey in He. rewrite He. reflexivity.
Qed.

Lemma createUsageLedgerEntry_new (db : DB) :
  entriesWithKey (paramIdempotencyKey params) db = [] →
  createUsageLedgerEntry now params db =
  (Return (newEntry now params (nextId db)),
   mkDB (walletBalances db) (creditGrants db)
     (usageLedger db ++ [newEntry now params (nextId db)])
     (N.succ (nextId db))).
Proof.
  intros He. unfold createUsageLedgerEntry. rewrite run_mbind.
  unfold findUsageByIdempotencyKey. cbn [gets].
  unfold entriesWithKey in He. rewrite He. reflexivity.
Qed.

End Ledger.

Lemma usageUnit_existing (now : Date)
    (params : BillingModel.RecordUsageParams) (db : DB)
    (prior : UsageLedgerEntry) (atomic : bool) :
  head (entriesWithKey (BillingModel.paramIdempotencyKey params) db)
  = Some prior →
  recordedUsage atomic now params db = (Throw IdempotencyError, db).
Proof.
  intros Hprior.
  assert (Hrun : usageUnit now params db = (Throw IdempotencyError, db)).
  { unfold usageUnit.
    rewrite run_mbind,
      (createUsageLedgerEntry_existing now params db prior Hprior).
    reflexivity. }
  unfold recordedUsage. destruct atomic; [| exact Hrun].
  rewrite run_transaction, Hrun. reflexivity.
Qed.

(** The first call under a key leaves one entry for it, and every later call
    under that key throws. *)
Lemma createUsageLedgerEntry_twice (now : Date)
    (params : BillingModel.RecordUsageParams) (db : DB) :
  entriesWithKey (BillingModel.paramIdempotencyKey params) db = [] →
  ∃ entry db1,
    BillingModel.createUsageLedgerEntry now params db = (Return entry, db1)
    ∧ entriesWithKey (BillingModel.paramIdempotencyKey params) db1 = [entry]
    ∧ ∀ now' params',
        BillingModel.paramIdempotencyKey params'
        = BillingModel.paramIdempotencyKey params →
        BillingModel.createUsageLedgerEntry now' params' db1
        = (Throw IdempotencyError, db1).
Proof.
  intros Hkey. eexists. eexists.
  split; [apply (createUsageLedgerEntry_new now params db Hkey) |].
  assert (Hone :
    entriesWithKey (BillingModel.paramIdempotencyKey params)
      (mkDB (walletBalances db) (creditGrants db)
         (usageLedger db ++ [BillingModel.newEntry now params (nextId db)])
         (N.succ (nextId db)))
    = [BillingModel.newEntry now params (nextId db)]).
  { unfold entriesWithKey in *. cbn [usageLedger].
    rewrite filter_app, Hkey, filter_cons, filter_nil.
    rewrite decide_True by reflexivity. reflexivity. }
  split; [exact Hone |].
  intros now' params' Hsame.
  apply (createUsageLedgerEntry_existing now' params' _
           (BillingModel.newEntry now params (nextId db))).
  rewrite Hsame, Hone. reflexivity.
Qed.

(** The service's [recordUsage] reads no ledger: what it resolves to is
    built from the call alone, stamped with the clock of the call and
    already completed, and it never rejects with an idempotency error. *)
Lemma recordUsage_builds_entry (formatCredits : Z → string)
    (calculateCost :
       BillingService.ModelTokensUsage → string → Z * Js.number)
    (now : Date) (params : BillingService.RecordUsageParams) :
  match BillingService.recordUsage formatCredits calculateCost now params with
  | BillingService.Resolved entry =>
      BillingService.entryIdClock entry = now
      ∧ BillingService.entryStatus entry = completed
      ∧ BillingService.entryIdempotencyKey entry
        = BillingService.paramIdempotencyKey params
  | BillingService.Rejected (BillingService.Idempotency _ _) => False
  | BillingService.Rejected _ => True
  end.
Proof.
  unfold BillingService.recordUsage.
  destruct (BillingService.paramUsage params) as [usage |]; [| exact I].
  destruct (BillingService.usageMissing (Some usage)); [exact I |].
  destruct (calculateCost usage (BillingService.paramModel params))
    as [credits costUsd].
  destruct (negb _); [exact I |]. repeat split.
Qed.

(** C3, as the code has it. When a ledger entry already exists for the
    idempotency key, [createUsageLedgerEntry] throws IdempotencyError (a
    CONFLICT failure, not the prior entry as a result) and leaves the
    database as it was: nothing is deducted, nothing is inserted, and a key
    that had one entry keeps that one entry; the sequence of ledger insert,
    deduction and completion that starts with it throws the same way. *)
Theorem createUsageLedgerEntry_existing_key (now : Date)
    (params : BillingModel.RecordUsageParams) (db : DB)
    (prior : UsageLedgerEntry) :
  (BillingModel.findUsageByIdempotencyKey
     (BillingModel.paramIdempotencyKey params) db).1 = Return (Some prior) →
  BillingModel.createUsageLedgerEntry now params db
  = (Throw IdempotencyError, db)
  ∧ (∀ atomic,
       recordedUsage atomic now params db = (Throw IdempotencyError, db))
  ∧ (entriesWithKey (BillingModel.paramIdempotencyKey params) db = [prior] →
     entriesWithKey (BillingModel.paramIdempotencyKey params)
       (BillingModel.createUsageLedgerEntry now params db).2
     = [prior]).
Proof.
  intros Hprior.
  assert (Hhead :
    head (entriesWithKey (BillingModel.paramIdempotencyKey params) db)
    = Some prior).
  { unfold BillingModel.findUsageByIdempotencyKey, gets in Hprior.
    cbn [fst] in Hprior. injection Hprior as Hprior. exact Hprior. }
  pose proof (createUsageLedgerEntry_existing now params db prior Hhead)
    as Hrun.
  split; [exact Hrun |]. split.
  - intros atomic. apply (usageUnit_existing now params db prior atomic Hhead).
  - intros Hone. rewrite Hrun. exact Hone.
Qed.

Lemma createUsageLedgerEntry_existing_key_witness :
  (BillingModel.findUsageByIdempotencyKey "alice_msg-1" pendingDB).1
  = Return (Some (BillingModel.newEntry sampleClock sampleUsage 1%N))
  ∧ BillingModel.createUsageLedgerEntry sampleClock sampleUsage pendingDB
    = (Throw IdempotencyError, pendingDB)
  ∧ entriesWithKey "alice_msg-1" pendingDB
    = [BillingModel.newEntry sampleClock sampleUsage 1%N].
Proof.
  assert (Hprior :
    (BillingModel.findUsageByIdempotencyKey
       (BillingModel.paramIdempotencyKey sampleUsage) pendingDB).1
    = Return (Some (BillingModel.newEntry sampleClock sampleUsage 1%N)))
    by reflexivity.
  split; [exact Hprior |]. split; [| reflexivity].
  exact (proj1 (createUsageLedgerEntry_existing_key sampleClock sampleUsage
                  pendingDB _ Hprior)).
Defined.

(** C3, as stated, fails: the second call with the key of an entry that is
    in the ledger throws IdempotencyError; it does not return that entry. *)
Lemma createUsageLedgerEntry_retry_throws :
  BillingModel.createUsageLedgerEntry sampleClock sampleUsage
    (WalletModel.getOrCreateWallet sampleClock "alice" emptyDB).2
  = (Return (BillingModel.newEntry sampleClock sampleUsage 1%N), pendingDB)
  ∧ (BillingModel.createUsageLedgerEntry sampleClock sampleUsage pendingDB).1
    = Throw IdempotencyError
  ∧ (BillingModel.createUsageLedgerEntry sampleClock sampleUsage pendingDB).1
    ≠ Return (BillingModel.newEntry sampleClock sampleUsage 1%N).
Proof.
  split; [reflexivity |]. split; [reflexivity | discriminate].
Qed.

(** ** Conservation of credits *)

Section Logs.

Variable u : string.

Lemma sumZ_app (l1 l2 : list Z) : sumZ (l1 ++ l2) = sumZ l1 + sumZ l2.
Proof.
  induction l1 as [| x l1 IH]; [reflexivity |].
  change (x + sumZ (l1 ++ l2) = x + sumZ l1 + sumZ l2). rewrite IH. lia.
Qed.

Lemma totalGranted_same (db db' : DB) :
  creditGrants db' = creditGrants db → totalGranted u db' = totalGranted u db.
Proof. unfold totalGranted, WalletModel.grantsOf. intros ->. reflexivity. Qed.

Lemma totalCompleted_same (db db' : DB) :
  usageLedger db' = usageLedger db →
  totalCompleted u db' = totalCompleted u db.
Proof. unfold totalCompleted, WalletModel.usageOf. intros ->. reflexivity. Qed.

Lemma totalCompleted_snoc (db db' : DB) (e : UsageLedgerEntry) :
  usageLedger db' = usageLedger db ++ [e] →
  totalCompleted u db' =
  totalCompleted u db
  + (if decide (entryUserId e = u ∧ status e = completed)
     then credits e else 0).
Proof.
  unfold totalCompleted, WalletModel.usageOf. intros ->.
  rewrite !filter_app, fmap_app, sumZ_app. f_equal.
  rewrite (filter_cons _ e), filter_nil.
  destruct (decide (entryUserId e = u)) as [Hu | Hu].
  - rewrite (filter_cons _ e), filter_nil.
    destruct (decide (status e = completed)) as [Hs | Hs];
      case_decide; cbn; try lia; tauto.
  - rewrite filter_nil. case_decide; cbn; try lia; tauto.
Qed.

Lemma updateStatus_elsewhere (i : N) (st : UsageStatus)
    (ledger : list UsageLedgerEntry) :
  (∀ e, e ∈ ledger → (entryId e < i)%N) →
  (λ e, if decide (entryId e = i) then BillingModel.setStatus st e else e)
    <$> ledger = ledger.
Proof.
  induction ledger as [| e ledger IH]; intros Hids; [reflexivity |].
  cbn. rewrite IH by (intros x Hx; apply Hids; right; exact Hx).
  pose proof (Hids e ltac:(left)). case_decide; [lia | reflexivity].
Qed.

Lemma totalGranted_app (db db' : DB) (grants : list CreditGrant) :
  creditGrants db' = creditGrants db ++ grants →
  totalGranted u db' =
  totalGranted u db
  + sumZ (grantedCredits <$> filter (λ g, grantUserId g = u) grants).
Proof.
  unfold totalGranted, WalletModel.grantsOf. intros ->.
  rewrite filter_app, fmap_app, sumZ_app. reflexivity.
Qed.

Lemma updateStatus_last (st : UsageStatus) (ledger : list UsageLedgerEntry)
    (e : UsageLedgerEntry) :
  (∀ x, x ∈ ledger → (entryId x < entryId e)%N) →
  (λ x, if decide (entryId x = entryId e)
        then BillingModel.setStatus st x else x)
    <$> (ledger ++ [e])
  = ledger ++ [BillingModel.setStatus st e].
Proof.
  intros Hids. rewrite fmap_app, (updateStatus_elsewhere _ _ _ Hids).
  cbn. case_decide; [reflexivity | congruence].
Qed.

End Logs.

Section Conservation.

Variable now : Date.

Lemma grantUpdates_total (w : WalletBalance) (amount : Z)
    (src : CreditSource) (metadata : WalletModel.GrantMetadata) :
  totalCredits
    (applyUpdates (WalletModel.grantUpdates now w amount src metadata) w)
  = freeCredits w + subscriptionCredits w + packageCredits w + amount.
Proof. destruct src; cbn; lia. Qed.

Lemma getOrCreateWallet_ledgerInvariant (a : string) (db : DB) :
  ledgerInvariant db →
  ledgerInvariant (WalletModel.getOrCreateWallet now a db).2.
Proof.
  intros (Hdb & Hids & Hbal).
  split; [apply getOrCreateWallet_invariant; exact Hdb |].
  destruct (walletBalances db !! a) as [w |] eqn:Hw.
  - rewrite (getOrCreateWallet_found now a db w Hw). split; assumption.
  - rewrite (getOrCreateWallet_fresh now a db Hw). cbn [snd]. split.
    + cbn [usageLedger nextId]. intros e He. apply Hids in He. lia.
    + intros u.
      erewrite (totalGranted_app u db) by (cbn [creditGrants]; reflexivity).
      rewrite (totalCompleted_same u db) by reflexivity.
      cbn [walletBalances]. specialize (Hbal u).
      rewrite filter_cons, filter_nil. cbn [grantUserId].
      destruct (decide (a = u)) as [-> | Hne].
      * rewrite lookup_insert_eq. rewrite Hw in Hbal. cbn in *. lia.
      * rewrite lookup_insert_ne by exact Hne. cbn. lia.
Qed.

Lemma grantCredits_ledgerInvariant (a : string) (amount : Z)
    (src : CreditSource) (reason : CreditReason)
    (metadata : WalletModel.GrantMetadata) (db : DB) :
  ledgerInvariant db →
  0 < amount →
  ledgerInvariant
    (WalletModel.grantCredits now a amount src reason metadata db).2.
Proof.
  intros (Hdb & Hids & Hbal) Hpos.
  split; [apply grantCredits_invariant; assumption |].
  destruct (walletBalances db !! a) as [w |] eqn:Hw.
  - rewrite (grantCredits_found now a amount src reason metadata db w Hw).
    cbn [snd]. split.
    + cbn [usageLedger nextId]. intros e He. apply Hids in He. lia.
    + intros u.
      erewrite (totalGranted_app u db) by (cbn [creditGrants]; reflexivity).
      rewrite (totalCompleted_same u db) by reflexivity.
      cbn [walletBalances]. specialize (Hbal u).
      rewrite filter_cons, filter_nil. cbn [grantUserId].
      destruct (decide (a = u)) as [-> | Hne].
      * rewrite lookup_alter_eq, Hw. rewrite Hw in Hbal.
        cbn [fmap option_fmap option_map default] in *.
        rewrite grantUpdates_total.
        destruct (Hdb u w Hw) as (Htotal & _). cbn in *. lia.
      * rewrite lookup_alter_ne by exact Hne. cbn. lia.
  - rewrite (grantCredits_fresh now a amount src reason metadata db Hw).
    cbn [snd]. split.
    + cbn [usageLedger nextId]. intros e He. apply Hids in He. lia.
    + intros u.
      erewrite (totalGranted_app u db) by (cbn [creditGrants]; reflexivity).
      rewrite (totalCompleted_same u db) by reflexivity.
      cbn [walletBalances]. specialize (Hbal u).
      rewrite !filter_cons, filter_nil. cbn [grantUserId].
      rewrite alter_insert_eq.
      destruct (decide (a = u)) as [-> | Hne].
      * rewrite lookup_insert_eq. rewrite Hw in Hbal.
        cbn [fmap option_fmap option_map default] in *.
        rewrite grantUpdates_total. cbn in *. lia.
      * rewrite lookup_insert_ne by exact Hne. cbn. lia.
Qed.

Lemma createUsageLedgerEntry_ledgerInvariant
    (params : BillingModel.RecordUsageParams) (db : DB) :
  ledgerInvariant db →
  ledgerInvariant (BillingModel.createUsageLedgerEntry now params db).2.
Proof.
  intros (Hdb & Hids & Hbal).
  destruct (entriesWithKey (BillingModel.paramIdempotencyKey params) db)
    as [| prior others] eqn:Hkey.
  - rewrite (createUsageLedgerEntry_new now params db Hkey). cbn [snd].
    split; [exact Hdb |]. split.
    + cbn [usageLedger nextId]. intros e He.
      apply elem_of_app in He as [He | He].
      * apply Hids in He. lia.
      * apply list_elem_of_singleton in He as ->. cbn. lia.
    + intros u. rewrite (totalGranted_same u db) by reflexivity.
      erewrite (totalCompleted_snoc u db) by (cbn [usageLedger]; reflexivity).
      rewrite decide_False by (intros [_ Hst]; discriminate Hst).
      cbn [walletBalances]. rewrite Hbal. lia.
  - rewrite (createUsageLedgerEntry_existing now params db prior)
      by (rewrite Hkey; reflexivity).
    exact (conj Hdb (conj Hids Hbal)).
Qed.

(** The three calls either stop at a throw, with the database as it was or
    with the pending entry in the ledger, or run through: the entry is in
    the ledger as completed and its credits are out of the wallet. *)
Lemma usageUnit_cases (params : BillingModel.RecordUsageParams) (db : DB) :
  let a := BillingModel.paramUserId params in
  let c := BillingModel.paramCredits params in
  let entry := BillingModel.newEntry now params (nextId db) in
  (∃ e, usageUnit now params db = (Throw e, db))
  ∨ (∃ e,
       usageUnit now params db
       = (Throw e, (BillingModel.createUsageLedgerEntry now params db).2))
  ∨ (∃ w,
       walletBalances db !! a = Some w
       ∧ c ≤ totalCredits w
       ∧ WalletModel.remainingToDeduct (WalletModel.deduction w c None) ≤ 0
       ∧ usageUnit now params db =
         (Return entry,
          mkDB
            (alter
               (applyUpdates
                  (WalletModel.deductionUpdates now
                     (WalletModel.deduction w c None)))
               a (walletBalances db))
            (creditGrants db)
            ((λ x, if decide (entryId x = entryId entry)
                   then BillingModel.setStatus completed x else x)
               <$> (usageLedger db ++ [entry]))
            (N.succ (nextId db)))).
Proof.
  cbn zeta. unfold usageUnit. rewrite run_mbind.
  destruct (entriesWithKey (BillingModel.paramIdempotencyKey params) db)
    as [| prior others] eqn:Hkey.
  - rewrite (createUsageLedgerEntry_new now params db Hkey).
    rewrite run_mbind. cbn [snd].
    set (db1 := mkDB _ _ (_ ++ _) _).
    destruct (deductCredits_cases now (BillingModel.paramUserId params)
                (BillingModel.paramCredits params) None db1)
      as [[e ->] | (w & Hw & Hle & Hrem & ->)].
    + right. left. eexists. reflexivity.
    + right. right. exists w. split; [exact Hw |]. split; [exact Hle |].
      split; [exact Hrem |]. reflexivity.
  - left. eexists.
    rewrite (createUsageLedgerEntry_existing now params db prior)
      by (rewrite Hkey; reflexivity).
    reflexivity.
Qed.

Lemma recordedUsage_ledgerInvariant (atomic : bool)
    (params : BillingModel.RecordUsageParams) (db : DB) :
  ledgerInvariant db →
  0 < BillingModel.paramCredits params →
  ledgerInvariant (recordedUsage atomic now params db).2.
Proof.
  intros Hinv Hpos.
  pose proof (createUsageLedgerEntry_ledgerInvariant params db Hinv)
    as Hpending.
  destruct Hinv as (Hdb & Hids & Hbal).
  unfold recordedUsage.
  assert (Hthrow : ∀ e db',
            ledgerInvariant db' →
            usageUnit now params db = (Throw e, db') →
            ledgerInvariant
              ((if atomic then transaction (usageUnit now params)
                else usageUnit now params) db).2).
  { intros e db' Hdb' Hrun. destruct atomic.
    - rewrite run_transaction, Hrun. exact (conj Hdb (conj Hids Hbal)).
    - rewrite Hrun. exact Hdb'. }
  destruct (usageUnit_cases params db)
    as [[e Hrun] | [[e Hrun] | (w & Hw & Hle & Hrem & Hrun)]].
  { apply (Hthrow e db); [exact (conj Hdb (conj Hids Hbal)) | exact Hrun]. }
  { apply (Hthrow e _ Hpending Hrun). }
  assert (Hsame : (if atomic then transaction (usageUnit now params)
                   else usageUnit now params) db = usageUnit now params db).
  { destruct atomic; [rewrite run_transaction, Hrun |]; reflexivity. }
  rewrite Hsame, Hrun. cbn [snd]. clear Hthrow Hsame Hrun Hpending.
  set (a := BillingModel.paramUserId params) in *.
  set (c := BillingModel.paramCredits params) in *.
  set (entry := BillingModel.newEntry now params (nextId db)).
  rewrite (updateStatus_last completed (usageLedger db) entry)
    by (intros x Hx; apply Hids in Hx; exact Hx).
  split; [| split].
  - apply dbInvariant_alter; [exact Hdb |].
    intros w' Hw' Hinv. assert (w' = w) as -> by congruence.
    apply deductionUpdates_invariant; assumption.
  - cbn [usageLedger nextId]. intros e He.
    apply elem_of_app in He as [He | He].
    + apply Hids in He. lia.
    + apply list_elem_of_singleton in He as ->. cbn. lia.
  - intros u. rewrite (totalGranted_same u db) by reflexivity.
    erewrite (totalCompleted_snoc u db) by (cbn [usageLedger]; reflexivity).
    cbn [walletBalances BillingModel.setStatus entryUserId status credits
         BillingModel.newEntry entry].
    specialize (Hbal u).
    destruct (decide (a = u)) as [<- | Hne].
    + rewrite lookup_alter_eq, Hw. rewrite Hw in Hbal.
      destruct (Hdb a w Hw) as (Htotal & Hf & Hs & Hp).
      destruct (deduction_covered w c Hf Hs Hp Hpos None Hrem) as (Hnew & _).
      rewrite decide_True by (split; reflexivity).
      cbn in Hbal.
      cbn [fmap option_fmap option_map from_option id].
      rewrite applyUpdates_deduction. cbn [totalCredits].
      fold c. rewrite Hnew. lia.
    + rewrite lookup_alter_ne by exact Hne.
      rewrite decide_False by (intros [? _]; contradiction).
      lia.
Qed.

End Conservation.

Lemma emptyDB_ledgerInvariant : ledgerInvariant emptyDB.
Proof.
  split; [exact emptyDB_invariant |]. split.
  - intros e He. cbn in He. apply elem_of_nil in He. contradiction.
  - intros u. cbn. rewrite lookup_empty. reflexivity.
Qed.

Lemma runLedgerCalls_ledgerInvariant (calls : list (Date * LedgerCall))
    (db : DB) :
  ledgerInvariant db →
  Forall (λ c, positiveCredits c.2) calls →
  ledgerInvariant (runLedgerCalls calls db).
Proof.
  intros Hdb Hpos. revert db Hdb.
  induction Hpos as [| [now c] calls Hc Hcalls IH]; intros db Hdb;
    [exact Hdb |].
  cbn [runLedgerCalls]. apply IH.
  destruct c; cbn [runLedgerCall positiveCredits snd] in *.
  - apply getOrCreateWallet_ledgerInvariant; assumption.
  - apply grantCredits_ledgerInvariant; assumption.
  - apply recordedUsage_ledgerInvariant; assumption.
Qed.

(** Conservation where no reset is made.  After every sequence of wallet
    creations, grants and recorded usages (the ledger entry inserted, its
    credits deducted, the entry marked completed, a throw ending the three
    calls) with positive amounts, from the empty database, the total of
    every wallet is the sum of the grants of its user less the sum of the
    credits of that user's completed ledger entries. *)
Theorem conservation_of_credits (calls : list (Date * LedgerCall))
    (u : string) :
  Forall (λ c, positiveCredits c.2) calls →
  conserved u (runLedgerCalls calls emptyDB).
Proof.
  intros Hpos w Hw.
  destruct (runLedgerCalls_ledgerInvariant calls emptyDB
              emptyDB_ledgerInvariant Hpos) as (_ & _ & Hbal).
  specialize (Hbal u). rewrite Hw in Hbal. exact Hbal.
Qed.

Lemma conservation_of_credits_witness :
  Forall (λ c, positiveCredits c.2) sampleHistory
  ∧ totalCredits <$> walletBalances settledDB !! "alice" = Some 97500
  ∧ totalGranted "alice" settledDB = 100500
  ∧ totalCompleted "alice" settledDB = 3000
  ∧ conserved "alice" settledDB.
Proof.
  assert (Hpos : Forall (λ c, positiveCredits c.2) sampleHistory)
    by (repeat constructor; cbn; lia).
  split; [exact Hpos |]. split; [reflexivity |]. split; [reflexivity |].
  split; [reflexivity |].
  exact (conservation_of_credits sampleHistory "alice" Hpos).
Defined.

(** What a reset does to the two sides: the wallet total loses the free
    credits that were left and gains the reset amount, the grant log gains
    the reset amount. *)
Lemma resetFreeCredits_discards_free (now : Date) (u : string)
    (amount : option Z) (db : DB) (w : WalletBalance) :
  walletBalances db !! u = Some w →
  walletInvariant w →
  let db' := (WalletModel.resetFreeCredits now u amount db).2 in
  totalCredits <$> walletBalances db' !! u
  = Some (totalCredits w - freeCredits w + default 100000 amount)
  ∧ totalGranted u db' = totalGranted u db + default 100000 amount
  ∧ totalCompleted u db' = totalCompleted u db.
Proof.
  intros Hw (Htotal & _). cbn zeta.
  rewrite (resetFreeCredits_found now u amount db w Hw). cbn [snd].
  split; [| split].
  - cbn [walletBalances]. rewrite lookup_alter_eq, Hw. cbn. f_equal. lia.
  - erewrite (totalGranted_app u db) by (cbn [creditGrants]; reflexivity).
    rewrite filter_cons, filter_nil. cbn [grantUserId].
    rewrite decide_True by reflexivity. cbn. lia.
  - apply totalCompleted_same. reflexivity.
Qed.

(** C5. A reset of the free credits breaks conservation: a wallet is
    created (100000 free credits, one grant of 100000) and its free credits
    are reset; the total is 100000, the grants add up to 200000 and no usage
    was recorded.  The reconciliation of the code itself, which checks the
    total against the two logs, finds the wallet 100000 off and asks for an
    adjustment; wallet creation and grants keep the two sides equal. *)
Lemma resetFreeCredits_breaks_conservation :
  totalCredits <$> walletBalances resetDB !! "alice" = Some 100000
  ∧ totalGranted "alice" resetDB = 200000
  ∧ totalCompleted "alice" resetDB = 0
  ∧ (WalletModel.reconcileBalance sampleClock "alice" resetDB).1
    = Return (WalletModel.mkReconciliation 100000 200000 100000 true)
  ∧ ¬ conserved "alice" resetDB.
Proof.
  split; [reflexivity |]. split; [reflexivity |]. split; [reflexivity |].
  split; [vm_compute; reflexivity |].
  intros Hcons.
  specialize (Hcons (mkWalletBalance "alice" 100000 0 0 100000
                       (Some (mkDate 2025 10 1 0)) None sampleClock)
                eq_refl).
  vm_compute in Hcons. discriminate.
Qed.

(** * Further properties of the billing code *)

(** ** Wallet creation *)

(** X1. A second [getOrCreateWallet] returns the wallet the first one returned
    and writes nothing; the first one adds at most the free grant of 100000
    credits to the grant log. *)
Theorem getOrCreateWallet_idempotent (now now' : Date) (u : string) (db : DB) :
  WalletModel.getOrCreateWallet now' u
    (WalletModel.getOrCreateWallet now u db).2
  = WalletModel.getOrCreateWallet now u db
    ∧ (WalletModel.getOrCreateWallet now u db).1
      = Return (walletAtHand now u db)
    ∧ creditGrants (WalletModel.getOrCreateWallet now u db).2
      = creditGrants db
        ++ match walletBalances db !! u with
           | Some _ => []
           | None =>
               [mkCreditGrant (nextId db) u free 100000 monthly_free None
                  None None now]
           end.
Proof.
  unfold walletAtHand.
  destruct (walletBalances db !! u) as [w |] eqn:Hw.
  - rewrite (getOrCreateWallet_found now u db w Hw). cbn [fst snd].
    rewrite (getOrCreateWallet_found now' u db w Hw), app_nil_r.
    repeat split.
  - rewrite (getOrCreateWallet_fresh now u db Hw). cbn [fst snd].
    split; [| split; reflexivity].
    apply getOrCreateWallet_found. cbn [walletBalances].
    apply lookup_insert_eq.
Qed.

(** ** Deduction *)

Section DeductionOutcome.

Variable now : Date.
Variable u : string.

(** X2. A deduction never writes the grant log, the usage ledger or the wallet
    of another user, and never adds or removes a wallet row: a user without a
    wallet has none afterwards. *)
Theorem deductCredits_frame (amount : Z) (preferred : option CreditSource)
    (db : DB) :
  let db' := (WalletModel.deductCredits now u amount preferred db).2 in
  creditGrants db' = creditGrants db
  ∧ usageLedger db' = usageLedger db
  ∧ nextId db' = nextId db
  ∧ (∀ v, v ≠ u → walletBalances db' !! v = walletBalances db !! v)
  ∧ dom (walletBalances db') = dom (walletBalances db).
Proof.
  cbn zeta.
  destruct (deductCredits_cases now u amount preferred db)
    as [[e ->] | (w & Hw & Hle & Hrem & ->)]; cbn [snd].
  - repeat split.
  - cbn [creditGrants usageLedger nextId walletBalances].
    split; [reflexivity |]. split; [reflexivity |]. split; [reflexivity |].
    split.
    + intros v Hv. apply lookup_alter_ne. congruence.
    + apply dom_alter_L.
Qed.


(** X4. For a row that meets the wallet invariant and a positive amount, a
    deduction returns exactly when what it can draw on covers the amount:
    the total without a preference, the preferred bucket alone with one (the
    other buckets are never drawn on instead), nothing for [promo].  When it
    returns, the total it reports and stores is the old total less the
    amount; when it throws, the database is as it was. *)
Theorem deductCredits_returns_iff (amount : Z)
    (preferred : option CreditSource) (db : DB) (w : WalletBalance) :
  walletBalances db !! u = Some w →
  walletInvariant w →
  0 < amount →
  let covered :=
    match availableFor preferred w with
    | Some a => bool_decide (amount ≤ a)
    | None => false
    end in
  match WalletModel.deductCredits now u amount preferred db with
  | (Return d, db') =>
      covered = true
      ∧ WalletModel.remainingCredits d = totalCredits w - amount
      ∧ totalCredits <$> walletBalances db' !! u
        = Some (totalCredits w - amount)
  | (Throw e, db') =>
      covered = false
      ∧ e = InsufficientCreditsError amount (totalCredits w)
      ∧ db' = db
  end.
Proof.
  intros Hw (Htotal & Hf & Hs & Hp) Hpos. cbn zeta.
  destruct (Z.lt_ge_cases (totalCredits w) amount) as [Hlt | Hge].
  { rewrite (deductCredits_total_short now u amount preferred db w Hw Hlt).
    split; [| split; reflexivity].
    destruct preferred as [[] |]; cbn;
      try reflexivity; apply bool_decide_eq_false_2; lia. }
  destruct (Z.lt_ge_cases 0
              (WalletModel.remainingToDeduct
                 (WalletModel.deduction w amount preferred)))
    as [Hrem | Hrem].
  - rewrite (deductCredits_uncovered now u amount preferred db w Hw Hge Hrem).
    split; [| split; reflexivity].
    destruct preferred as [src |].
    + pose proof (deduction_preferred w amount src) as Hd. cbn zeta in Hd.
      rewrite Hd in Hrem.
      destruct src; cbn in Hrem |- *; try reflexivity;
        apply bool_decide_eq_false_2; revert Hrem; split_tests; cbn; intros ?; lia.
    + rewrite deduction_automatic_remaining in Hrem by assumption.
      exfalso. lia.
  - rewrite (deductCredits_covered now u amount preferred db w Hw Hge Hrem).
    destruct (deduction_covered w amount Hf Hs Hp Hpos preferred Hrem)
      as (Hnew & _).
    split; [| split].
    + destruct preferred as [src |].
      * pose proof (deduction_preferred w amount src) as Hd. cbn zeta in Hd.
        rewrite Hd in Hrem.
        destruct src; cbn in Hrem |- *; try lia;
          apply bool_decide_eq_true_2; revert Hrem; split_tests; cbn;
          intros ?; lia.
      * cbn. apply bool_decide_eq_true_2. exact Hge.
    + cbn. lia.
    + cbn [walletBalances]. rewrite lookup_alter_eq, Hw. cbn.
      f_equal. rewrite Hnew. lia.
Qed.

End DeductionOutcome.


Lemma deductCredits_returns_iff_witness :
  walletBalances sampleDB !! "alice" = Some sampleWallet
  ∧ walletInvariant sampleWallet
  ∧ 0 < 70
  ∧ WalletModel.deductCredits sampleClock "alice" 70 (Some subscription)
      sampleDB
    = (Throw (InsufficientCreditsError 70 180), sampleDB).
Proof.
  assert (Hw : walletBalances sampleDB !! "alice" = Some sampleWallet)
    by reflexivity.
  assert (Hinv : walletInvariant sampleWallet) by (repeat split; cbn; lia).
  assert (Hpos : 0 < 70) by lia.
  split; [exact Hw |]. split; [exact Hinv |]. split; [exact Hpos |].
  pose proof (deductCredits_returns_iff sampleClock "alice" 70
                (Some subscription) sampleDB sampleWallet Hw Hinv Hpos) as H.
  cbn zeta in H.
  destruct (WalletModel.deductCredits sampleClock "alice" 70
              (Some subscription) sampleDB) as [[d | e] db'].
  - destruct H as (Hcovered & _). vm_compute in Hcovered. discriminate.
  - destruct H as (_ & -> & ->). reflexivity.
Defined.

(** ** The wallet a call works on *)

Section AtHand.

Variable now : Date.
Variable u : string.

Lemma getOrCreateWallet_returns (db : DB) :
  (WalletModel.getOrCreateWallet now u db).1 = Return (walletAtHand now u db).
Proof.
  unfold walletAtHand.
  destruct (walletBalances db !! u) as [w |] eqn:Hw.
  - rewrite (getOrCreateWallet_found now u db w Hw). reflexivity.
  - rewrite (getOrCreateWallet_fresh now u db Hw). reflexivity.
Qed.

Lemma getOrCreateWallet_lookup (db : DB) :
  walletBalances (WalletModel.getOrCreateWallet now u db).2 !! u
  = Some (walletAtHand now u db).
Proof.
  unfold walletAtHand.
  destruct (walletBalances db !! u) as [w |] eqn:Hw.
  - rewrite (getOrCreateWallet_found now u db w Hw). exact Hw.
  - rewrite (getOrCreateWallet_fresh now u db Hw). cbn [snd walletBalances].
    apply lookup_insert_eq.
Qed.

Lemma getOrCreateWallet_usageLedger (db : DB) :
  usageLedger (WalletModel.getOrCreateWallet now u db).2 = usageLedger db.
Proof.
  destruct (walletBalances db !! u) as [w |] eqn:Hw.
  - rewrite (getOrCreateWallet_found now u db w Hw). reflexivity.
  - rewrite (getOrCreateWallet_fresh now u db Hw). reflexivity.
Qed.

Lemma walletAtHand_invariant (db : DB) :
  dbInvariant db → walletInvariant (walletAtHand now u db).
Proof.
  intros Hdb. unfold walletAtHand.
  destruct (walletBalances db !! u) as [w |] eqn:Hw; cbn.
  - exact (Hdb u w Hw).
  - apply newWallet_invariant.
Qed.

End AtHand.

(** ** Reading a balance back *)

(** X5. The total a deduction returns is the total the next [getBalance] of that
    user reads, and the row carries the clock reading of the deduction. *)
Theorem getBalance_after_deductCredits (now now' : Date) (u : string)
    (amount : Z) (preferred : option CreditSource) (db db' : DB)
    (d : WalletModel.Deduction) :
  WalletModel.deductCredits now u amount preferred db = (Return d, db') →
  ∃ summary,
    WalletModel.getBalance now' u db' = (Return summary, db')
    ∧ WalletModel.summaryTotalCredits summary = WalletModel.remainingCredits d
    ∧ WalletModel.lastUpdated summary = now.
Proof.
  intros Hrun.
  destruct (deductCredits_cases now u amount preferred db)
    as [[e He] | (w & Hw & Hle & Hrem & Hret)].
  { rewrite He in Hrun. discriminate. }
  rewrite Hret in Hrun. injection Hrun as <- <-.
  eexists. unfold WalletModel.getBalance. rewrite run_mbind.
  erewrite getOrCreateWallet_found
    by (cbn [walletBalances]; rewrite lookup_alter_eq, Hw; reflexivity).
  rewrite run_mret, applyUpdates_deduction.
  split; [reflexivity |]. split; reflexivity.
Qed.

Lemma getBalance_after_deductCredits_witness :
  WalletModel.deductCredits sampleClock "alice" 70 None sampleDB
  = (Return (WalletModel.mkDeduction (Some subscription) 110),
     (WalletModel.deductCredits sampleClock "alice" 70 None sampleDB).2)
  ∧ ∃ summary,
      (WalletModel.getBalance (mkDate 2025 9 16 0) "alice"
         (WalletModel.deductCredits sampleClock "alice" 70 None sampleDB).2).1
      = Return summary
      ∧ WalletModel.summaryTotalCredits summary = 110
      ∧ WalletModel.lastUpdated summary = sampleClock.
Proof.
  assert (Hrun :
    WalletModel.deductCredits sampleClock "alice" 70 None sampleDB
    = (Return (WalletModel.mkDeduction (Some subscription) 110),
       (WalletModel.deductCredits sampleClock "alice" 70 None sampleDB).2))
    by reflexivity.
  split; [exact Hrun |].
  destruct (getBalance_after_deductCredits sampleClock (mkDate 2025 9 16 0)
              "alice" 70 None sampleDB _ _ Hrun)
    as (summary & Hget & Htotal & Hclock).
  exists summary. rewrite Hget. split; [reflexivity |].
  split; [exact Htotal | exact Hclock].
Defined.

(** ** Grants *)

(** X6. A grant whose credit values are in the range of their columns returns,
    whatever its source.  The expiry date of its metadata is stored with the
    grant for every source; on the wallet it is written, as the end of the
    subscription period, by a subscription grant that carries one, and by no
    other grant.  No grant changes the date of the next free reset.  The
    grant is logged before the wallet is looked up: it is the first new row
    of the log. *)
Theorem grantCredits_dates (now : Date) (u : string) (amount : Z)
    (src : CreditSource) (reason : CreditReason)
    (metadata : WalletModel.GrantMetadata) (db : DB) :
  let w := walletAtHand now u db in
  let run := WalletModel.grantCredits now u amount src reason metadata db in
  grantStorable w amount src →
  run.1 = Return tt
  ∧ creditGrants run.2 !! length (creditGrants db)
    = Some (mkCreditGrant (nextId db) u src amount reason
              (WalletModel.metaExpiresAt metadata)
              (orNull (WalletModel.metaMpPaymentId metadata))
              (orNull (WalletModel.metaMpPreferenceId metadata)) now)
  ∧ subscriptionPeriodEnd <$> walletBalances run.2 !! u
    = Some (match src, WalletModel.metaExpiresAt metadata with
            | subscription, Some d => Some d
            | _, _ => subscriptionPeriodEnd w
            end)
  ∧ freeResetAt <$> walletBalances run.2 !! u = Some (freeResetAt w)
  ∧ updatedAt <$> walletBalances run.2 !! u = Some now.
Proof.
  cbn zeta. intros _. unfold walletAtHand.
  destruct (walletBalances db !! u) as [w |] eqn:Hw.
  - rewrite (grantCredits_found now u amount src reason metadata db w Hw).
    cbn [fst snd creditGrants walletBalances default].
    split; [reflexivity |]. split.
    { rewrite lookup_app_r by lia. rewrite Nat.sub_diag. reflexivity. }
    rewrite lookup_alter_eq, Hw.
    destruct src, metadata as [[d |] ? ?]; repeat split.
  - rewrite (grantCredits_fresh now u amount src reason metadata db Hw).
    cbn [fst snd creditGrants walletBalances default].
    split; [reflexivity |]. split.
    { rewrite lookup_app_r by lia. rewrite Nat.sub_diag. reflexivity. }
    rewrite lookup_alter_eq, lookup_insert_eq.
    destruct src, metadata as [[d |] ? ?]; repeat split.
Qed.

Lemma grantCredits_dates_witness :
  grantStorable (walletAtHand sampleClock "alice" sampleDB) 500 subscription
  ∧ subscriptionPeriodEnd <$>
      walletBalances
        (WalletModel.grantCredits sampleClock "alice" 500 subscription
           subscription_renewal
           (WalletModel.mkGrantMetadata (Some (mkDate 2025 10 15 0)) None
              None)
           sampleDB).2 !! "alice"
    = Some (Some (mkDate 2025 10 15 0))
  ∧ subscriptionPeriodEnd <$>
      walletBalances
        (WalletModel.grantCredits sampleClock "alice" 500 package purchase
           (WalletModel.mkGrantMetadata (Some (mkDate 2025 10 15 0)) None
              None)
           sampleDB).2 !! "alice"
    = Some None.
Proof.
  assert (Hrange :
    grantStorable (walletAtHand sampleClock "alice" sampleDB) 500
      subscription) by (vm_compute; repeat split; discriminate).
  split; [exact Hrange |].
  destruct (grantCredits_dates sampleClock "alice" 500 subscription
              subscription_renewal
              (WalletModel.mkGrantMetadata (Some (mkDate 2025 10 15 0)) None
                 None)
              sampleDB Hrange) as (_ & _ & Hend & _).
  split; [rewrite Hend; reflexivity | reflexivity].
Defined.

(** X7. Granting an amount whose credit values are in the range of their
    columns and then deducting the same amount without a preferred source
    brings the total back to what it was; after a [package] or [promo]
    grant every bucket is back as well, the package bucket being the first
    one a deduction draws on. *)
Theorem grantCredits_then_deductCredits (now now' : Date) (u : string)
    (amount : Z) (src : CreditSource) (reason : CreditReason)
    (metadata : WalletModel.GrantMetadata) (db : DB) :
  dbInvariant db →
  0 < amount →
  grantStorable (walletAtHand now u db) amount src →
  let w := walletAtHand now u db in
  let granted :=
    (WalletModel.grantCredits now u amount src reason metadata db).2 in
  let run := WalletModel.deductCredits now' u amount None granted in
  (∃ d, run.1 = Return d ∧ WalletModel.remainingCredits d = totalCredits w)
  ∧ totalCredits <$> walletBalances run.2 !! u = Some (totalCredits w)
  ∧ (src = package ∨ src = promo →
     balanceOf u run.2
     = Some (packageCredits w, subscriptionCredits w, freeCredits w,
             totalCredits w)).
Proof.
  intros Hdb Hpos _. cbn zeta.
  pose proof (walletAtHand_invariant now u db Hdb) as Hinv.
  pose proof (grantCredits_invariant now u amount src reason metadata db Hdb
                Hpos) as Hdb1.
  pose proof (grantCredits_balance now u amount src reason metadata db)
    as Hbal.
  cbn zeta in Hbal.
  set (w := walletAtHand now u db) in *.
  set (db1 :=
         (WalletModel.grantCredits now u amount src reason metadata db).2)
    in *.
  unfold balanceOf in Hbal.
  destruct (walletBalances db1 !! u) as [w1 |] eqn:Hw1; [| discriminate].
  cbn in Hbal. injection Hbal as Hp1 Hs1 Hf1 Ht1.
  destruct Hinv as (Htotal & Hf & Hs & Hp).
  destruct (Hdb1 u w1 Hw1) as (Htotal1 & Hf1' & Hs1' & Hp1').
  pose proof (deduction_automatic w1 amount Hf1' Hs1' Hp1' Hpos) as Hd.
  cbn zeta in Hd.
  assert (Hle : amount ≤ totalCredits w1) by lia.
  rewrite (deductCredits_covered now' u amount None db1 w1 Hw1 Hle)
    by (rewrite Hd; cbn; lia).
  cbn [fst snd walletBalances].
  unfold balanceOf. cbn [walletBalances].
  rewrite lookup_alter_eq, Hw1. cbn [fmap option_fmap option_map].
  rewrite applyUpdates_deduction, Hd. locals.
  unfold WalletModel.newTotalCredits. locals.
  split.
  { eexists. split; [reflexivity |]. cbn. lia. }
  cbn. split; [f_equal; lia |].
  intros Hsrc.
  assert (Hp1'' : packageCredits w1 = packageCredits w + amount)
    by (destruct Hsrc as [-> | ->]; exact Hp1).
  assert (Hs1'' : subscriptionCredits w1 = subscriptionCredits w)
    by (destruct Hsrc as [-> | ->]; lia).
  assert (Hf1'' : freeCredits w1 = freeCredits w)
    by (destruct Hsrc as [-> | ->]; lia).
  balances.
Qed.

Lemma grantCredits_then_deductCredits_witness :
  dbInvariant sampleDB
  ∧ 0 < 500
  ∧ grantStorable (walletAtHand sampleClock "alice" sampleDB) 500 promo
  ∧ balanceOf "alice"
      (WalletModel.deductCredits sampleClock "alice" 500 None
         (WalletModel.grantCredits sampleClock "alice" 500 promo promo_reason
            WalletModel.noMetadata sampleDB).2).2
    = Some (50, 30, 100, 180).
Proof.
  assert (Hdb : dbInvariant sampleDB).
  { intros v w Hv. unfold sampleDB in Hv. cbn [walletBalances] in Hv.
    apply lookup_singleton_Some in Hv as [_ <-]. repeat split; cbn; lia. }
  assert (Hpos : 0 < 500) by lia.
  assert (Hrange :
    grantStorable (walletAtHand sampleClock "alice" sampleDB) 500 promo)
    by (vm_compute; repeat split; discriminate).
  split; [exact Hdb |]. split; [exact Hpos |]. split; [exact Hrange |].
  destruct (grantCredits_then_deductCredits sampleClock sampleClock "alice"
              500 promo promo_reason WalletModel.noMetadata sampleDB Hdb Hpos
              Hrange)
    as (_ & _ & Hbuckets).
  rewrite (Hbuckets (or_intror eq_refl)). reflexivity.
Defined.

(** ** The monthly reset *)

(** X8. A reset whose credit values are in the range of their columns
    returns.  It replaces the free bucket by the reset amount, whatever was
    left in it, keeps the two other buckets, writes the total as the sum of
    the three and the first day of the month after the clock reading as the
    next reset; a second reset with the same amount leaves the four credit
    columns as the first one did. *)
Theorem resetFreeCredits_overwrites (now now' : Date) (u : string)
    (amount : option Z) (db : DB) :
  let w := walletAtHand now u db in
  let a := default 100000 amount in
  let run := WalletModel.resetFreeCredits now u amount db in
  resetStorable w a →
  run.1 = Return tt
  ∧ balanceOf u run.2
    = Some (packageCredits w, subscriptionCredits w, a,
            a + subscriptionCredits w + packageCredits w)
  ∧ freeResetAt <$> walletBalances run.2 !! u
    = Some (Some (WalletModel.getNextMonthlyReset now))
  ∧ balanceOf u (WalletModel.resetFreeCredits now' u amount run.2).2
    = balanceOf u run.2.
Proof.
  cbn zeta. intros _.
  assert (Hrun : ∀ clock db0,
    (WalletModel.resetFreeCredits clock u amount db0).1 = Return tt
    ∧ walletBalances (WalletModel.resetFreeCredits clock u amount db0).2 !! u
      = Some (applyUpdates
                (WalletModel.resetUpdates clock (walletAtHand clock u db0)
                   (default 100000 amount))
                (walletAtHand clock u db0))).
  { intros clock db0. unfold walletAtHand.
    destruct (walletBalances db0 !! u) as [w |] eqn:Hw.
    - rewrite (resetFreeCredits_found clock u amount db0 w Hw).
      cbn [fst snd walletBalances default].
      rewrite lookup_alter_eq, Hw. split; reflexivity.
    - rewrite (resetFreeCredits_fresh clock u amount db0 Hw).
      cbn [fst snd walletBalances default].
      rewrite lookup_alter_eq, lookup_insert_eq. split; reflexivity. }
  destruct (Hrun now db) as (Hret & Hrow).
  split; [exact Hret |].
  unfold balanceOf. rewrite Hrow. cbn.
  split; [reflexivity |]. split; [reflexivity |].
  destruct (Hrun now' (WalletModel.resetFreeCredits now u amount db).2)
    as (_ & Hrow').
  rewrite Hrow'. unfold walletAtHand at 1 2. rewrite Hrow. reflexivity.
Qed.

Lemma resetFreeCredits_overwrites_witness :
  resetStorable (walletAtHand sampleClock "alice" sampleDB) 100000
  ∧ balanceOf "alice"
      (WalletModel.resetFreeCredits sampleClock "alice" None sampleDB).2
    = Some (50, 30, 100000, 100080)
  ∧ balanceOf "alice"
      (WalletModel.resetFreeCredits (mkDate 2025 10 1 0) "alice" None
         (WalletModel.resetFreeCredits sampleClock "alice" None sampleDB).2).2
    = Some (50, 30, 100000, 100080).
Proof.
  assert (Hrange :
    resetStorable (walletAtHand sampleClock "alice" sampleDB) 100000)
    by (vm_compute; repeat split; discriminate).
  split; [exact Hrange |].
  destruct (resetFreeCredits_overwrites sampleClock (mkDate 2025 10 1 0)
              "alice" None sampleDB Hrange) as (_ & Hbal & _ & Hagain).
  split; [exact Hbal |]. rewrite Hagain. exact Hbal.
Defined.

(** ** Reconciliation, with or without a wallet row *)

Lemma reconcileBalance_returns (now : Date) (u : string) (db : DB) :
  let w := walletAtHand now u db in
  let db1 := (WalletModel.getOrCreateWallet now u db).2 in
  let calculated := totalGranted u db1 - totalUsed u db1 in
  WalletModel.reconcileBalance now u db =
  (Return
     (WalletModel.mkReconciliation (totalCredits w) calculated
        (Z.abs (totalCredits w - calculated))
        (Js.gtb (Js.ofInt (Z.abs (totalCredits w - calculated)))
           (Js.mul (Js.ofInt (totalCredits w)) Js.lit_0_01))),
   db1).
Proof.
  cbn zeta.
  pose proof (getOrCreateWallet_returns now u db) as Hret.
  unfold WalletModel.reconcileBalance. rewrite run_mbind.
  destruct (WalletModel.getOrCreateWallet now u db) as [r db1].
  cbn [fst snd] in *. subst r.
  rewrite run_mbind. cbn [gets]. rewrite run_mbind. cbn [gets].
  rewrite run_mret, !sqlSum_default. reflexivity.
Qed.

(** ** The date of the next reset *)

(** X9. For a clock reading with a month index 0..11, in a year the [Date]
    constructor takes as it is (from 100 on), the next monthly reset is
    midnight of the first day of the following month, December rolling over
    to January of the next year; it is later than the clock reading, and
    it is the date the service computes for its summary. *)
Theorem getNextMonthlyReset_next_month (now : Date) :
  100 ≤ year now →
  0 ≤ month now ≤ 11 →
  let next := WalletModel.getNextMonthlyReset now in
  day next = 1
  ∧ msOfDay next = 0
  ∧ 0 ≤ month next ≤ 11
  ∧ 12 * year next + month next = 12 * year now + month now + 1
  ∧ Date_leb now next = true
  ∧ Date_leb next now = false
  ∧ BillingService.calculateNextResetDate now = next.
Proof.
  intros _ Hmonth. cbn zeta.
  unfold WalletModel.getNextMonthlyReset, BillingService.calculateNextResetDate,
    BillingConfig.DEFAULT_RESET_DAY, Date_leb.
  destruct (Z.ltb_spec (month now + 1) 12); cbn [year month day msOfDay].
  - repeat split; try lia.
    + rewrite Z.eqb_refl.
      destruct (Z.eqb_spec (month now) (month now + 1)); [lia |].
      apply Z.ltb_lt. lia.
    + rewrite Z.eqb_refl.
      destruct (Z.eqb_spec (month now + 1) (month now)); [lia |].
      apply Z.ltb_ge. lia.
  - repeat split; try lia.
    + destruct (Z.eqb_spec (year now) (year now + 1)); [lia |].
      apply Z.ltb_lt. lia.
    + destruct (Z.eqb_spec (year now + 1) (year now)); [lia |].
      apply Z.ltb_ge. lia.
Qed.

Lemma getNextMonthlyReset_next_month_witness :
  100 ≤ year (mkDate 2025 11 31 1000)
  ∧ 0 ≤ month (mkDate 2025 11 31 1000) ≤ 11
  ∧ WalletModel.getNextMonthlyReset (mkDate 2025 11 31 1000)
    = mkDate 2026 0 1 0
  ∧ Date_leb (mkDate 2025 11 31 1000)
      (WalletModel.getNextMonthlyReset (mkDate 2025 11 31 1000)) = true.
Proof.
  assert (Hyear : 100 ≤ year (mkDate 2025 11 31 1000)) by (cbn; lia).
  assert (Hmonth : 0 ≤ month (mkDate 2025 11 31 1000) ≤ 11) by (cbn; lia).
  split; [exact Hyear |]. split; [exact Hmonth |]. split; [reflexivity |].
  destruct (getNextMonthlyReset_next_month (mkDate 2025 11 31 1000) Hyear
              Hmonth)
    as (_ & _ & _ & _ & Hlater & _).
  exact Hlater.
Defined.

(** ** Affordability and deduction *)

Lemma canAfford_run (now : Date) (u : string) (estimatedCredits : Z)
    (db : DB) :
  WalletModel.canAfford now u estimatedCredits db =
  (Return (totalCredits (walletAtHand now u db) >=? estimatedCredits),
   (WalletModel.getOrCreateWallet now u db).2).
Proof.
  unfold WalletModel.canAfford, walletAtHand. rewrite run_mbind.
  destruct (walletBalances db !! u) as [w |] eqn:Hw.
  - rewrite (getOrCreateWallet_found now u db w Hw). reflexivity.
  - rewrite (getOrCreateWallet_fresh now u db Hw). reflexivity.
Qed.

(** X10. On a database that meets the wallet invariant, [canAfford] for a
    positive amount answers true exactly when a deduction of that amount
    without a preferred source, made right after it, returns.  The check
    itself creates the wallet of a user who has none, with its 100000 free
    credits, so the deduction finds a row. *)
Theorem canAfford_then_deductCredits (now now' : Date) (u : string)
    (amount : Z) (db : DB) :
  dbInvariant db →
  0 < amount →
  let check := WalletModel.canAfford now u amount db in
  let answer := bool_decide (amount ≤ totalCredits (walletAtHand now u db)) in
  check.1 = Return answer
  ∧ walletBalances check.2 !! u = Some (walletAtHand now u db)
  ∧ match (WalletModel.deductCredits now' u amount None check.2).1 with
    | Return d =>
        answer = true
        ∧ WalletModel.remainingCredits d
          = totalCredits (walletAtHand now u db) - amount
    | Throw e =>
        answer = false
        ∧ e = InsufficientCreditsError amount
                (totalCredits (walletAtHand now u db))
    end.
Proof.
  intros Hdb Hpos. cbn zeta. rewrite canAfford_run. cbn [fst snd].
  pose proof (getOrCreateWallet_lookup now u db) as Hw.
  destruct (walletAtHand_invariant now u db Hdb) as (Htotal & Hf & Hs & Hp).
  set (w := walletAtHand now u db) in *.
  set (db1 := (WalletModel.getOrCreateWallet now u db).2) in *.
  split.
  { f_equal.
    destruct (Z.geb_spec (totalCredits w) amount);
      [rewrite bool_decide_eq_true_2 | rewrite bool_decide_eq_false_2];
      (reflexivity || lia). }
  split; [exact Hw |].
  destruct (Z.lt_ge_cases (totalCredits w) amount) as [Hlt | Hge].
  - rewrite (deductCredits_total_short now' u amount None db1 w Hw Hlt).
    cbn [fst]. split; [| reflexivity].
    apply bool_decide_eq_false_2. lia.
  - pose proof (deduction_automatic_remaining w amount Hf Hs Hp Hpos) as Hrem.
    rewrite (deductCredits_covered now' u amount None db1 w Hw Hge)
      by (rewrite Hrem; lia).
    cbn [fst WalletModel.remainingCredits].
    split; [apply bool_decide_eq_true_2; exact Hge |].
    assert (Hzero :
      WalletModel.remainingToDeduct (WalletModel.deduction w amount None) ≤ 0)
      by (rewrite Hrem; lia).
    destruct (deduction_covered w amount Hf Hs Hp Hpos None Hzero)
      as (Hnew & _).
    rewrite Hnew. lia.
Qed.

Lemma canAfford_then_deductCredits_witness :
  dbInvariant emptyDB
  ∧ 0 < 100001
  ∧ (WalletModel.canAfford sampleClock "alice" 100001 emptyDB).1
    = Return false
  ∧ (WalletModel.deductCredits sampleClock "alice" 100001 None
       (WalletModel.canAfford sampleClock "alice" 100001 emptyDB).2).1
    = Throw (InsufficientCreditsError 100001 100000).
Proof.
  assert (Hpos : 0 < 100001) by lia.
  split; [exact emptyDB_invariant |]. split; [exact Hpos |].
  destruct (canAfford_then_deductCredits sampleClock sampleClock "alice"
              100001 emptyDB emptyDB_invariant Hpos) as (Hcheck & _ & Hrun).
  split; [rewrite Hcheck; reflexivity |].
  destruct (WalletModel.deductCredits sampleClock "alice" 100001 None
              (WalletModel.canAfford sampleClock "alice" 100001 emptyDB).2).1
    as [d | e].
  - destruct Hrun as (Hanswer & _). vm_compute in Hanswer. discriminate.
  - destruct Hrun as (_ & ->). reflexivity.
Defined.

(** ** Reconciliation after usages that ran through *)

Lemma filter_all {A} (P : A → Prop) `{∀ x, Decision (P x)} (l : list A) :
  Forall P l → filter P l = l.
Proof.
  induction 1 as [| x l Hx Hl IH]; [reflexivity |].
  rewrite filter_cons, decide_True by exact Hx. f_equal. exact IH.
Qed.

Lemma totalUsed_allCompleted (u : string) (db : DB) :
  allCompleted db → totalUsed u db = totalCompleted u db.
Proof.
  intros Hall. unfold totalUsed, totalCompleted. f_equal. f_equal.
  symmetry. apply filter_all. unfold WalletModel.usageOf.
  apply Forall_forall. intros e He. apply list_elem_of_filter in He as [_ He].
  revert e He. apply Forall_forall. exact Hall.
Qed.

Lemma grantCredits_usageLedger (now : Date) (u : string) (amount : Z)
    (src : CreditSource) (reason : CreditReason)
    (metadata : WalletModel.GrantMetadata) (db : DB) :
  usageLedger (WalletModel.grantCredits now u amount src reason metadata db).2
  = usageLedger db.
Proof.
  destruct (walletBalances db !! u) as [w |] eqn:Hw.
  - rewrite (grantCredits_found now u amount src reason metadata db w Hw).
    reflexivity.
  - rewrite (grantCredits_fresh now u amount src reason metadata db Hw).
    reflexivity.
Qed.

Lemma runLedgerCall_ledgerInvariant (now : Date) (c : LedgerCall) (db : DB) :
  ledgerInvariant db → positiveCredits c →
  ledgerInvariant (runLedgerCall now c db).
Proof.
  intros Hdb Hc. destruct c; cbn [runLedgerCall positiveCredits] in *.
  - apply getOrCreateWallet_ledgerInvariant; assumption.
  - apply grantCredits_ledgerInvariant; assumption.
  - apply recordedUsage_ledgerInvariant; assumption.
Qed.

Lemma runLedgerCall_allCompleted (now : Date) (c : LedgerCall) (db : DB) :
  ledgerInvariant db → plainCall c → ranThrough now c db = true →
  allCompleted db →
  allCompleted (runLedgerCall now c db).
Proof.
  intros (_ & Hids & _) Hc Hran Hall. unfold allCompleted in *.
  destruct c as [u | u amount src reason metadata | atomic params];
    cbn [runLedgerCall plainCall ranThrough] in *.
  - rewrite getOrCreateWallet_usageLedger. exact Hall.
  - rewrite grantCredits_usageLedger. exact Hall.
  - subst atomic. unfold recordedUsage.
    apply andb_true_iff in Hran as [_ Hran].
    destruct (usageUnit_cases now params db)
      as [[e Hrun] | [[e Hrun] | (w & _ & _ & _ & Hrun)]];
      rewrite Hrun in Hran |- *; cbn [fst snd] in *; try discriminate.
    cbn [usageLedger].
    rewrite (updateStatus_last completed (usageLedger db)
               (BillingModel.newEntry now params (nextId db)))
      by (intros x Hx; apply Hids in Hx; exact Hx).
    apply Forall_app. split; [exact Hall |].
    apply Forall_singleton. reflexivity.
Qed.

Lemma runLedgerCalls_allCompleted (calls : list (Date * LedgerCall))
    (db : DB) :
  ledgerInvariant db →
  allCompleted db →
  Forall (λ c, positiveCredits c.2) calls →
  Forall (λ c, plainCall c.2) calls →
  allRanThrough calls db = true →
  allCompleted (runLedgerCalls calls db).
Proof.
  intros Hdb Hall Hpos. revert db Hdb Hall.
  induction Hpos as [| [now c] calls Hc Hcalls IH];
    intros db Hdb Hall Hplain Hran; [exact Hall |].
  apply Forall_cons in Hplain as [Hp Hplain].
  cbn [allRanThrough] in Hran. apply andb_true_iff in Hran as [Hr Hran].
  cbn [runLedgerCalls]. cbn [snd] in *. apply IH.
  - apply runLedgerCall_ledgerInvariant; assumption.
  - apply runLedgerCall_allCompleted; assumption.
  - exact Hplain.
  - exact Hran.
Qed.

(** X11. After wallet creations, grants and recorded usages (the ledger entry
    inserted, its credits deducted, the entry marked completed, by the three
    methods as they are) with positive amounts, from the empty database,
    in which every call ran through (its values in the range of their
    columns, no step of it throwing), reconciliation finds every wallet
    consistent: the calculated total is the wallet total, the difference is
    0 and no adjustment is asked for.  For a user without a wallet the
    reconciliation creates it first, and the same holds. *)
Theorem reconcileBalance_after_usages
    (calls : list (Date * LedgerCall)) (now : Date) (u : string) :
  Forall (λ c, positiveCredits c.2) calls →
  Forall (λ c, plainCall c.2) calls →
  allRanThrough calls emptyDB = true →
  let db := runLedgerCalls calls emptyDB in
  let total := totalCredits (walletAtHand now u db) in
  total < creditRange →
  (WalletModel.reconcileBalance now u db).1
  = Return (WalletModel.mkReconciliation total total 0 false).
Proof.
  intros Hpos Hplain Hran. cbn zeta. intros Hrange.
  pose proof (runLedgerCalls_ledgerInvariant calls emptyDB
                emptyDB_ledgerInvariant Hpos) as Hinv.
  assert (Hall : allCompleted (runLedgerCalls calls emptyDB)).
  { apply runLedgerCalls_allCompleted; try assumption.
    - exact emptyDB_ledgerInvariant.
    - apply Forall_nil_2. }
  set (db := runLedgerCalls calls emptyDB) in *.
  pose proof (getOrCreateWallet_ledgerInvariant now u db Hinv)
    as (Hdb1 & _ & Hbal).
  pose proof (getOrCreateWallet_lookup now u db) as Hw.
  assert (Hall1 : allCompleted (WalletModel.getOrCreateWallet now u db).2).
  { unfold allCompleted. rewrite getOrCreateWallet_usageLedger. exact Hall. }
  rewrite reconcileBalance_returns. cbn [fst].
  set (w := walletAtHand now u db) in *.
  set (db1 := (WalletModel.getOrCreateWallet now u db).2) in *.
  specialize (Hbal u). rewrite Hw in Hbal. cbn in Hbal.
  rewrite <- (totalUsed_allCompleted u db1 Hall1) in Hbal.
  destruct (Hdb1 u w Hw) as (Htotal & Hf & Hs & Hp).
  rewrite <- Hbal, Z.sub_diag.
  change (Z.abs 0) with 0.
  assert (Htotal' : 0 ≤ totalCredits w < creditRange) by lia.
  assert (Hzero : 0 ≤ 0 < 2 ^ 53) by (split; [lia | reflexivity]).
  rewrite (gtb_mul_0_01 0 (totalCredits w) Htotal' Hzero).
  f_equal. f_equal. apply Z.ltb_ge. lia.
Qed.

Lemma reconcileBalance_after_usages_witness :
  Forall (λ c, positiveCredits c.2) plainHistory
  ∧ Forall (λ c, plainCall c.2) plainHistory
  ∧ allRanThrough plainHistory emptyDB = true
  ∧ totalCredits
      (walletAtHand sampleClock "alice" (runLedgerCalls plainHistory emptyDB))
    < creditRange
  ∧ (WalletModel.reconcileBalance sampleClock "alice"
       (runLedgerCalls plainHistory emptyDB)).1
    = Return (WalletModel.mkReconciliation 97500 97500 0 false).
Proof.
  assert (Hpos : Forall (λ c, positiveCredits c.2) plainHistory)
    by (repeat constructor; cbn; lia).
  assert (Hplain : Forall (λ c, plainCall c.2) plainHistory)
    by (repeat constructor).
  assert (Hran : allRanThrough plainHistory emptyDB = true)
    by (vm_compute; reflexivity).
  assert (Hrange :
    totalCredits
      (walletAtHand sampleClock "alice" (runLedgerCalls plainHistory emptyDB))
    < creditRange) by (vm_compute; reflexivity).
  split; [exact Hpos |]. split; [exact Hplain |]. split; [exact Hran |].
  split; [exact Hrange |].
  rewrite (reconcileBalance_after_usages plainHistory sampleClock "alice"
             Hpos Hplain Hran Hrange).
  reflexivity.
Defined.

(** ** Entries of the usage ledger *)

(** X12. For a call whose credits and cost are in the range of their columns,
    [createUsageLedgerEntry] returns exactly when no entry holds the key.
    When it returns, the entry is pending, carries the next identifier, the
    user, the credits and the key of the call, is the one new row of the
    ledger and is what a lookup by its key finds; no wallet and no grant is
    written, so the credits are not out of any balance yet.  When it
    throws, the error is the idempotency error and nothing is written. *)
Theorem createUsageLedgerEntry_outcome (now : Date)
    (params : BillingModel.RecordUsageParams) (db : DB) :
  entryStorable params →
  let key := BillingModel.paramIdempotencyKey params in
  match BillingModel.createUsageLedgerEntry now params db with
  | (Return entry, db') =>
      entriesWithKey key db = []
      ∧ entryId entry = nextId db
      ∧ entryUserId entry = BillingModel.paramUserId params
      ∧ status entry = pending
      ∧ credits entry = BillingModel.paramCredits params
      ∧ idempotencyKey entry = key
      ∧ usageLedger db' = usageLedger db ++ [entry]
      ∧ (BillingModel.findUsageByIdempotencyKey key db').1
        = Return (Some entry)
      ∧ walletBalances db' = walletBalances db
      ∧ creditGrants db' = creditGrants db
  | (Throw e, db') =>
      entriesWithKey key db ≠ [] ∧ e = IdempotencyError ∧ db' = db
  end.
Proof.
  intros _. cbn zeta.
  destruct (entriesWithKey (BillingModel.paramIdempotencyKey params) db)
    as [| prior others] eqn:Hkey.
  - rewrite (createUsageLedgerEntry_new now params db Hkey).
    repeat split.
    unfold BillingModel.findUsageByIdempotencyKey, gets.
    cbn [fst usageLedger]. unfold entriesWithKey in Hkey.
    rewrite filter_app, Hkey, filter_cons, filter_nil.
    rewrite decide_True by reflexivity. reflexivity.
  - rewrite (createUsageLedgerEntry_existing now params db prior)
      by (rewrite Hkey; reflexivity).
    repeat split. discriminate.
Qed.

Lemma createUsageLedgerEntry_outcome_witness :
  entryStorable sampleUsage
  ∧ ∃ entry db',
      BillingModel.createUsageLedgerEntry sampleClock sampleUsage smallDB
      = (Return entry, db')
      ∧ status entry = pending
      ∧ credits entry = 3000
      ∧ (BillingModel.findUsageByIdempotencyKey "alice_msg-1" db').1
        = Return (Some entry)
      ∧ walletBalances db' = walletBalances smallDB.
Proof.
  assert (Hrange : entryStorable sampleUsage)
    by (split; [vm_compute; split; discriminate | reflexivity]).
  split; [exact Hrange |].
  pose proof (createUsageLedgerEntry_outcome sampleClock sampleUsage smallDB
                Hrange) as Hrun.
  cbn zeta in Hrun.
  destruct (BillingModel.createUsageLedgerEntry sampleClock sampleUsage
              smallDB) as [[entry | e] db'] eqn:Hcreate.
  - destruct Hrun as (_ & _ & _ & Hst & Hc & _ & _ & Hfind & Hw & _).
    exists entry, db'. split; [reflexivity |]. split; [exact Hst |].
    split; [exact Hc |]. split; [exact Hfind | exact Hw].
  - destruct Hrun as (Hkey & _). exfalso. apply Hkey. reflexivity.
Defined.

(** ** The status of an entry *)

Section Status.

Variable i : N.
Variable st : UsageStatus.

Lemma mark_columns (e : UsageLedgerEntry) :
  entryId (markStatus i st e) = entryId e
  ∧ entryUserId (markStatus i st e) = entryUserId e
  ∧ credits (markStatus i st e) = credits e
  ∧ idempotencyKey (markStatus i st e) = idempotencyKey e
  ∧ createdAt (markStatus i st e) = createdAt e.
Proof. unfold markStatus. case_decide; repeat split. Qed.

Lemma updateUsageStatus_run (db : DB) :
  BillingModel.updateUsageStatus i st db =
  (Return tt,
   mkDB (walletBalances db) (creditGrants db) (markStatus i st <$> usageLedger db)
     (nextId db)).
Proof. reflexivity. Qed.

Lemma totalUsed_mark (u : string) (ledger : list UsageLedgerEntry) :
  sumZ (credits <$> filter (λ e, entryUserId e = u) (markStatus i st <$> ledger))
  = sumZ (credits <$> filter (λ e, entryUserId e = u) ledger).
Proof.
  induction ledger as [| e ledger IH]; [reflexivity |].
  rewrite fmap_cons, !filter_cons.
  destruct (mark_columns e) as (_ & -> & Hc & _).
  case_decide; [| exact IH].
  rewrite !fmap_cons, Hc. cbn [sumZ foldr] in *. f_equal. exact IH.
Qed.

Lemma getOrCreateWallet_updateUsageStatus (now : Date) (u : string)
    (db : DB) :
  (WalletModel.getOrCreateWallet now u
     (BillingModel.updateUsageStatus i st db).2).2
  = (BillingModel.updateUsageStatus i st
       (WalletModel.getOrCreateWallet now u db).2).2.
Proof.
  rewrite !updateUsageStatus_run. cbn [snd].
  destruct (walletBalances db !! u) as [w |] eqn:Hw.
  - rewrite (getOrCreateWallet_found now u db w Hw).
    erewrite getOrCreateWallet_found by exact Hw. reflexivity.
  - rewrite (getOrCreateWallet_fresh now u db Hw).
    erewrite getOrCreateWallet_fresh by exact Hw. reflexivity.
Qed.

End Status.

(** X13. [updateUsageStatus] never throws and writes the status column only: no
    wallet and no grant changes, so marking an entry refunded gives no
    credits back.  The credits of the entry stay in the total of used
    credits, and a reconciliation made after the update computes what it
    computed before it. *)
Theorem updateUsageStatus_status_only (i : N) (st : UsageStatus) (now : Date)
    (u : string) (db : DB) :
  let run := BillingModel.updateUsageStatus i st db in
  run.1 = Return tt
  ∧ walletBalances run.2 = walletBalances db
  ∧ creditGrants run.2 = creditGrants db
  ∧ totalUsed u run.2 = totalUsed u db
  ∧ (WalletModel.reconcileBalance now u run.2).1
    = (WalletModel.reconcileBalance now u db).1.
Proof.
  cbn zeta.
  assert (Hused : ∀ db0,
    totalUsed u (BillingModel.updateUsageStatus i st db0).2 = totalUsed u db0).
  { intros db0. rewrite updateUsageStatus_run. apply totalUsed_mark. }
  split; [reflexivity |]. split; [reflexivity |]. split; [reflexivity |].
  split; [apply Hused |].
  rewrite !reconcileBalance_returns. cbn [fst].
  rewrite getOrCreateWallet_updateUsageStatus, Hused.
  rewrite (totalGranted_same u (WalletModel.getOrCreateWallet now u db).2)
    by reflexivity.
  reflexivity.
Qed.

(** X14. An update under an identifier no entry carries writes nothing. *)
Theorem updateUsageStatus_unknown_id (i : N) (st : UsageStatus) (db : DB) :
  (∀ e, e ∈ usageLedger db → entryId e ≠ i) →
  BillingModel.updateUsageStatus i st db = (Return tt, db).
Proof.
  intros Hnone. rewrite updateUsageStatus_run. f_equal.
  destruct db as [wallets grants ledger next]. cbn in *. f_equal.
  induction ledger as [| e ledger IH]; [reflexivity |].
  rewrite fmap_cons. f_equal.
  - unfold markStatus. rewrite decide_False; [reflexivity |].
    apply Hnone. left.
  - apply IH. intros x Hx. apply Hnone. right. exact Hx.
Qed.

Lemma updateUsageStatus_unknown_id_witness :
  (∀ e, e ∈ usageLedger pendingDB → entryId e ≠ 7%N)
  ∧ BillingModel.updateUsageStatus 7 completed pendingDB
    = (Return tt, pendingDB).
Proof.
  assert (Hnone : ∀ e, e ∈ usageLedger pendingDB → entryId e ≠ 7%N).
  { intros e He. apply list_elem_of_singleton in He as ->. discriminate. }
  split; [exact Hnone |].
  exact (updateUsageStatus_unknown_id 7 completed pendingDB Hnone).
Defined.

(** ** What counts as spent *)

Lemma spentRows_snoc_pending (u : string) (startDate endDate : option Date)
    (db db' : DB) (e : UsageLedgerEntry) :
  usageLedger db' = usageLedger db ++ [e] →
  status e = pending →
  spentRows u startDate endDate db' = spentRows u startDate endDate db.
Proof.
  intros Hledger Hst. unfold spentRows.
  rewrite Hledger, filter_app, filter_cons, filter_nil.
  rewrite decide_False; [apply app_nil_r |].
  unfold BillingModel.spentCondition. rewrite Hst.
  rewrite (bool_decide_eq_false_2 (pending = completed)) by discriminate.
  rewrite andb_false_r. discriminate.
Qed.

Lemma spentRows_refunded (i : N) (u : string)
    (startDate endDate : option Date) (ledger : list UsageLedgerEntry) :
  filter (λ e, BillingModel.spentCondition u startDate endDate e = true)
    (markStatus i refunded <$> ledger)
  = filter (λ e, entryId e ≠ i)
      (filter (λ e, BillingModel.spentCondition u startDate endDate e = true)
         ledger).
Proof.
  induction ledger as [| e ledger IH]; [reflexivity |].
  rewrite fmap_cons, !filter_cons, IH. unfold markStatus.
  destruct (decide (entryId e = i)) as [Hid | Hid].
  - rewrite decide_False.
    + case_decide; [| reflexivity].
      rewrite filter_cons, decide_False by tauto. reflexivity.
    + unfold BillingModel.spentCondition. cbn [status BillingModel.setStatus].
      rewrite (bool_decide_eq_false_2 (refunded = completed)) by discriminate.
      rewrite andb_false_r. discriminate.
  - case_decide; [| reflexivity].
    rewrite filter_cons, decide_True by exact Hid. reflexivity.
Qed.

Section Spent.

Variable sumCostUsd : list string → Js.number.

(** X15. Only completed entries count as spent.  A new entry is pending, so
    creating it leaves the total spent, over any period, as it was; marking
    the entries of an identifier refunded takes them out of the total, and
    the other rows stay in. *)
Theorem getUserTotalSpent_only_completed (now : Date)
    (params : BillingModel.RecordUsageParams) (i : N) (u : string)
    (startDate endDate : option Date) (db : DB) :
  let rest := filter (λ e, entryId e ≠ i) (spentRows u startDate endDate db) in
  (BillingModel.getUserTotalSpent sumCostUsd u startDate endDate
     (BillingModel.createUsageLedgerEntry now params db).2).1
  = (BillingModel.getUserTotalSpent sumCostUsd u startDate endDate db).1
  ∧ (BillingModel.getUserTotalSpent sumCostUsd u startDate endDate
       (BillingModel.updateUsageStatus i refunded db).2).1
    = Return (BillingModel.mkTotalSpent (sumZ (credits <$> rest))
                (sumCostUsd (costUsd <$> rest))).
Proof.
  cbn zeta. unfold BillingModel.getUserTotalSpent, gets. cbn [fst].
  split.
  - destruct (entriesWithKey (BillingModel.paramIdempotencyKey params) db)
      as [| prior others] eqn:Hkey.
    + rewrite (createUsageLedgerEntry_new now params db Hkey). cbn [snd].
      pose proof (spentRows_snoc_pending u startDate endDate db
                    (mkDB (walletBalances db) (creditGrants db)
                       (usageLedger db
                        ++ [BillingModel.newEntry now params (nextId db)])
                       (N.succ (nextId db)))
                    (BillingModel.newEntry now params (nextId db))
                    eq_refl eq_refl) as Hrows.
      unfold spentRows in Hrows. rewrite Hrows. reflexivity.
    + rewrite (createUsageLedgerEntry_existing now params db prior)
        by (rewrite Hkey; reflexivity).
      reflexivity.
  - rewrite updateUsageStatus_run. cbn [snd usageLedger].
    rewrite spentRows_refunded. reflexivity.
Qed.

(** X16. After wallet creations, grants and recorded usages with positive
    amounts from the empty database, what a user has spent over all time
    and what the wallet still holds add up to what the user was granted. *)
Theorem getUserTotalSpent_balances_grants (calls : list (Date * LedgerCall))
    (u : string) (w : WalletBalance) :
  Forall (λ c, positiveCredits c.2) calls →
  let db := runLedgerCalls calls emptyDB in
  walletBalances db !! u = Some w →
  ∃ spent,
    BillingModel.getUserTotalSpent sumCostUsd u None None db
    = (Return spent, db)
    ∧ totalCredits w + BillingModel.spentCredits spent = totalGranted u db.
Proof.
  intros Hpos. cbn zeta. intros Hw.
  destruct (runLedgerCalls_ledgerInvariant calls emptyDB
              emptyDB_ledgerInvariant Hpos) as (_ & _ & Hbal).
  specialize (Hbal u). rewrite Hw in Hbal. cbn in Hbal.
  eexists. split; [reflexivity |]. cbn [BillingModel.spentCredits].
  assert (Hrows :
    filter (λ e, BillingModel.spentCondition u None None e = true)
      (usageLedger (runLedgerCalls calls emptyDB))
    = filter (λ e, status e = completed)
        (WalletModel.usageOf u (runLedgerCalls calls emptyDB))).
  { unfold WalletModel.usageOf.
    induction (usageLedger (runLedgerCalls calls emptyDB)) as [| e l IH];
      [reflexivity |].
    rewrite !filter_cons, IH. unfold BillingModel.spentCondition.
    rewrite !andb_true_r.
    destruct (decide (entryUserId e = u)) as [Hu | Hu].
    - rewrite (bool_decide_eq_true_2 _ Hu), andb_true_l, filter_cons.
      destruct (decide (status e = completed)) as [Hs | Hs].
      + rewrite (bool_decide_eq_true_2 _ Hs), decide_True by reflexivity.
        reflexivity.
      + rewrite (bool_decide_eq_false_2 _ Hs), decide_False by discriminate.
        reflexivity.
    - rewrite (bool_decide_eq_false_2 _ Hu), andb_false_l.
      rewrite decide_False by discriminate. reflexivity. }
  rewrite Hrows. fold (totalCompleted u (runLedgerCalls calls emptyDB)). lia.
Qed.

End Spent.

Lemma getUserTotalSpent_balances_grants_witness :
  Forall (λ c, positiveCredits c.2) sampleHistory
  ∧ totalCredits <$> walletBalances settledDB !! "alice" = Some 97500
  ∧ BillingModel.spentCredits <$>
      match (BillingModel.getUserTotalSpent sampleCostSum "alice" None None
               settledDB).1 with
      | Return spent => Some spent
      | Throw _ => None
      end
    = Some 3000
  ∧ totalGranted "alice" settledDB = 100500.
Proof.
  assert (Hpos : Forall (λ c, positiveCredits c.2) sampleHistory)
    by (repeat constructor; cbn; lia).
  assert (Htotal :
    totalCredits <$> walletBalances settledDB !! "alice" = Some 97500)
    by reflexivity.
  assert (Hgranted : totalGranted "alice" settledDB = 100500) by reflexivity.
  split; [exact Hpos |]. split; [exact Htotal |]. split; [| exact Hgranted].
  destruct (walletBalances settledDB !! "alice") as [w |] eqn:Hw;
    [| discriminate Htotal].
  injection Htotal as Htotal.
  destruct (getUserTotalSpent_balances_grants sampleCostSum sampleHistory
              "alice" w Hpos Hw)
    as (spent & Hrun & Hsum).
  fold settledDB in Hrun, Hsum.
  rewrite Hrun. cbn [fst fmap option_fmap option_map]. f_equal.
  rewrite Hgranted, Htotal in Hsum. lia.
Defined.

(** ** Generated idempotency keys *)




(** ** The rollout hash *)

Section Hash.

Lemma toInt32_shift (n : Z) : ∃ k, Js.toInt32 n = n + 2 ^ 32 * k.
Proof.
  exists (- ((n + 2 ^ 31) / 2 ^ 32)). unfold Js.toInt32.
  pose proof (Z.div_mod (n + 2 ^ 31) (2 ^ 32)) as Hdiv.
  remember ((n + 2 ^ 31) mod 2 ^ 32) as r.
  remember ((n + 2 ^ 31) / 2 ^ 32) as q.
  assert (H32 : 2 ^ 32 ≠ 0) by (vm_compute; discriminate).
  specialize (Hdiv H32). lia.
Qed.

Lemma toInt32_congruent (a b k : Z) :
  a = b + 2 ^ 32 * k → Js.toInt32 a = Js.toInt32 b.
Proof.
  intros ->. unfold Js.toInt32. f_equal.
  replace (b + 2 ^ 32 * k + 2 ^ 31) with (b + 2 ^ 31 + k * 2 ^ 32) by lia.
  apply Z_mod_plus_full.
Qed.

Lemma toInt32_range (n : Z) : - 2 ^ 31 ≤ Js.toInt32 n < 2 ^ 31.
Proof.
  unfold Js.toInt32.
  assert (H32 : 0 < 2 ^ 32) by reflexivity.
  pose proof (Z.mod_pos_bound (n + 2 ^ 31) (2 ^ 32) H32) as Hr.
  change (2 ^ 32) with 4294967296 in *.
  change (2 ^ 31) with 2147483648 in *. lia.
Qed.

Lemma hashStep_polynomial (p c : Z) :
  BillingConfig.hashStep (Js.toInt32 p) c = Js.toInt32 (31 * p + c).
Proof.
  unfold BillingConfig.hashStep, Js.andSelf, Js.shl.
  destruct (toInt32_shift p) as [k1 H1].
  destruct (toInt32_shift (Js.toInt32 p)) as [k2 H2].
  destruct (toInt32_shift (Js.toInt32 (Js.toInt32 p) * 2 ^ 5)) as [k3 H3].
  apply (toInt32_congruent _ _ (k3 + 32 * k2 + 31 * k1)).
  rewrite H3, H2, H1. change (2 ^ 5) with 32.
  set (m := 2 ^ 32). lia.
Qed.

Lemma userHash_from (p : Z) (codeUnits : list Z) :
  foldl BillingConfig.hashStep (Js.toInt32 p) codeUnits
  = Js.toInt32 (foldl (λ h c, 31 * h + c) p codeUnits).
Proof.
  revert p. induction codeUnits as [| c codeUnits IH]; intros p;
    [reflexivity |].
  cbn [foldl]. rewrite hashStep_polynomial. apply IH.
Qed.

End Hash.

(** X18. The hash of a user id is the polynomial in 31 over its code units,
    reduced to a signed 32-bit integer: the shift, the subtraction and the
    [&] of each turn of the loop multiply by 31, add the code unit and
    wrap around. *)
Theorem userHash_polynomial (codeUnits : list Z) :
  BillingConfig.userHash codeUnits = Js.toInt32 (polynomial31 codeUnits)
  ∧ - 2 ^ 31 ≤ BillingConfig.userHash codeUnits < 2 ^ 31.
Proof.
  assert (Heq :
    BillingConfig.userHash codeUnits = Js.toInt32 (polynomial31 codeUnits))
    by exact (userHash_from 0 codeUnits).
  split; [exact Heq |]. rewrite Heq. apply toInt32_range.
Qed.

Lemma userPercentile_range (codeUnits : list Z) :
  0 ≤ BillingConfig.userPercentile codeUnits ≤ 99.
Proof.
  unfold BillingConfig.userPercentile, Js.remainder.
  rewrite <- (Z.rem_abs _ 100) by discriminate.
  pose proof (Z.rem_bound_pos (Z.abs (BillingConfig.userHash codeUnits))
                (Z.abs 100) (Z.abs_nonneg _)) as Hr.
  change (Z.abs 100) with 100 in *. lia.
Qed.

(** X19. With billing switched off no user is enabled.  With billing on, a user
    is enabled exactly when the percentile of the user id, a number from 0
    to 99 that the percentage has no part in, is below the rollout
    percentage: the tests for 100 and for 0 agree with that comparison.
    So raising the percentage never disables a user who was enabled. *)
Theorem isBillingEnabledForUser_threshold
    (flags flags' : BillingConfig.FeatureFlags) (userId : string) :
  let percentile := BillingConfig.userPercentile (BillingConfig.charCodes userId) in
  0 ≤ percentile ≤ 99
  ∧ BillingConfig.isBillingEnabledForUser flags userId
    = BillingConfig.ENABLE_BILLING flags
      && (percentile <? BillingConfig.ROLLOUT_PERCENTAGE flags)
  ∧ (BillingConfig.ENABLE_BILLING flags' = true →
     BillingConfig.ROLLOUT_PERCENTAGE flags
     ≤ BillingConfig.ROLLOUT_PERCENTAGE flags' →
     BillingConfig.isBillingEnabledForUser flags userId = true →
     BillingConfig.isBillingEnabledForUser flags' userId = true).
Proof.
  cbn zeta.
  pose proof (userPercentile_range (BillingConfig.charCodes userId)) as Hp.
  assert (Heq : ∀ f,
    BillingConfig.isBillingEnabledForUser f userId
    = BillingConfig.ENABLE_BILLING f
      && (BillingConfig.userPercentile (BillingConfig.charCodes userId)
          <? BillingConfig.ROLLOUT_PERCENTAGE f)).
  { intros f. unfold BillingConfig.isBillingEnabledForUser.
    destruct (BillingConfig.ENABLE_BILLING f); cbn [negb andb];
      [| reflexivity].
    destruct (Z.geb_spec (BillingConfig.ROLLOUT_PERCENTAGE f) 100).
    { symmetry. apply Z.ltb_lt. lia. }
    destruct (Z.leb_spec (BillingConfig.ROLLOUT_PERCENTAGE f) 0);
      [| reflexivity].
    symmetry. apply Z.ltb_ge. lia. }
  split; [exact Hp |]. split; [apply Heq |].
  intros Hon Hle. rewrite !Heq, Hon. cbn [andb].
  intros Henabled. apply andb_true_iff in Henabled as [_ Hlt].
  apply Z.ltb_lt in Hlt. apply Z.ltb_lt. lia.
Qed.

Lemma isBillingEnabledForUser_threshold_witness :
  BillingConfig.userPercentile (BillingConfig.charCodes "alice") = 40
  ∧ BillingConfig.isBillingEnabledForUser
      (BillingConfig.mkFeatureFlags true 40) "alice" = false
  ∧ BillingConfig.isBillingEnabledForUser
      (BillingConfig.mkFeatureFlags true 41) "alice" = true
  ∧ BillingConfig.isBillingEnabledForUser
      (BillingConfig.mkFeatureFlags true 60) "alice" = true.
Proof.
  split; [reflexivity |]. split; [reflexivity |].
  assert (Henabled :
    BillingConfig.isBillingEnabledForUser
      (BillingConfig.mkFeatureFlags true 41) "alice" = true) by reflexivity.
  split; [exact Henabled |].
  destruct (isBillingEnabledForUser_threshold
              (BillingConfig.mkFeatureFlags true 41)
              (BillingConfig.mkFeatureFlags true 60) "alice")
    as (_ & _ & Hraise).
  apply Hraise; [reflexivity | cbn; lia | exact Henabled].
Defined.

(** ** Recording a usage through the service *)

Section ServiceRecord.

Variable formatCredits : Z → string.
Variable calculateCost :
  BillingService.ModelTokensUsage → string → Z * Js.number.

(** X20. For a usage with a token total and a cost in the credit range, the
    service records the usage exactly when the cost with its safety buffer
    is within the 100000 credits it takes every user to hold, that is when
    the cost is at most 83333 credits.  No table is read or written: the
    entry it resolves to is marked completed and charged to the free
    credits; a costlier usage is rejected for insufficient credits with
    100000 as available. *)
Theorem recordUsage_threshold (now : Date)
    (params : BillingService.RecordUsageParams)
    (usage : BillingService.ModelTokensUsage) :
  BillingService.paramUsage params = Some usage →
  BillingService.usageMissing (Some usage) = false →
  let cost := calculateCost usage (BillingService.paramModel params) in
  0 ≤ cost.1 < creditRange →
  let required := ceilDiv (cost.1 * 12) 10 in
  (required ≤ 100000 ↔ cost.1 ≤ 83333)
  ∧ BillingService.recordUsage formatCredits calculateCost now params =
    if bool_decide (cost.1 ≤ 83333)
    then BillingService.Resolved
           (BillingService.mkUsageEntry now
              (BillingService.paramUserId params)
              (BillingService.paramSessionId params)
              (BillingService.paramMessageId params)
              (BillingService.paramProvider params)
              (BillingService.paramModel params) usage cost.1 cost.2 free
              completed (BillingService.paramIdempotencyKey params) now)
    else BillingService.Rejected
           (BillingService.InsufficientCredits 100000 required).
Proof.
  intros Husage Hvalid. cbn zeta. intros Hrange.
  assert (Hiff :
    ceilDiv (((calculateCost usage (BillingService.paramModel params)).1) * 12)
      10 ≤ 100000
    ↔ (calculateCost usage (BillingService.paramModel params)).1 ≤ 83333).
  { rewrite ceilDiv_6_5.
    set (c := (calculateCost usage (BillingService.paramModel params)).1).
    split; intros H.
    - destruct (Z.le_gt_cases c 83333) as [Hle | Hgt]; [exact Hle |].
      exfalso.
      assert (100001 ≤ (6 * c + 4) / 5)
        by (apply Z.div_le_lower_bound; lia).
      lia.
    - apply Z.lt_succ_r. apply Z.div_lt_upper_bound; lia. }
  split; [exact Hiff |].
  unfold BillingService.recordUsage. rewrite Husage, Hvalid.
  destruct (calculateCost usage (BillingService.paramModel params))
    as [c costUsd] eqn:Hcost.
  cbn [fst snd] in *.
  unfold BillingService.canUserAfford, BillingService.checkAffordability.
  cbn [BillingService.canAfford BillingService.available
       BillingService.required].
  unfold BillingConfig.PRE_CHECK_BUFFER_MULTIPLIER.
  rewrite (ceil_mul_1_2 c Hrange), <- ceilDiv_6_5.
  change (totalCredits
            (BillingService.balance (BillingService.getWalletBalance now
               (BillingService.paramUserId params)))) with 100000.
  destruct (Z.geb_spec 100000 (ceilDiv (c * 12) 10)) as [Hle | Hgt];
    cbn [negb].
  - rewrite bool_decide_eq_true_2 by (apply Hiff; exact Hle). reflexivity.
  - rewrite bool_decide_eq_false_2 by (intros Hc; apply Hiff in Hc; lia).
    reflexivity.
Qed.

End ServiceRecord.

Lemma recordUsage_threshold_witness :
  BillingService.paramUsage (sampleReport 20000) = Some (sampleTokens 20000)
  ∧ BillingService.usageMissing (Some (sampleTokens 20000)) = false
  ∧ 0 ≤ (sampleCost (sampleTokens 20000) "gpt-4o").1 < creditRange
  ∧ BillingService.recordUsage plainCredits sampleCost sampleClock
      (sampleReport 20000)
    = BillingService.Rejected (BillingService.InsufficientCredits 100000 120000).
Proof.
  assert (Hrange : 0 ≤ (sampleCost (sampleTokens 20000) "gpt-4o").1 < creditRange)
    by (vm_compute; split; congruence).
  split; [reflexivity |]. split; [reflexivity |]. split; [exact Hrange |].
  destruct (recordUsage_threshold plainCredits sampleCost sampleClock
              (sampleReport 20000) (sampleTokens 20000) eq_refl eq_refl Hrange)
    as (_ & Hrun).
  rewrite Hrun. reflexivity.
Defined.

(** ** A recorded usage the wallet cannot pay *)

(** X21. When the wallet total is below the credits of a usage under a new key
    (or the user has no wallet), with credits and a cost in the range of
    their columns, the deduction throws after the entry was inserted.  The
    three methods write through the database as they go: the pending entry
    stays in the ledger, no wallet is written, and every later attempt
    under that key throws the idempotency error, whatever the wallet holds
    by then. *)
Theorem usageUnit_insufficient (now : Date)
    (params : BillingModel.RecordUsageParams) (db : DB) :
  let u := BillingModel.paramUserId params in
  let c := BillingModel.paramCredits params in
  let available := default 0 (totalCredits <$> walletBalances db !! u) in
  entriesWithKey (BillingModel.paramIdempotencyKey params) db = [] →
  entryStorable params →
  available < c →
  ∃ entry db1,
    usageUnit now params db
    = (Throw (InsufficientCreditsError c available), db1)
    ∧ usageLedger db1 = usageLedger db ++ [entry]
    ∧ status entry = pending
    ∧ credits entry = c
    ∧ idempotencyKey entry = BillingModel.paramIdempotencyKey params
    ∧ walletBalances db1 = walletBalances db
    ∧ ∀ now', usageUnit now' params db1 = (Throw IdempotencyError, db1).
Proof.
  cbn zeta. intros Hnew _ Hshort.
  set (entry := BillingModel.newEntry now params (nextId db)).
  set (db1 :=
         mkDB (walletBalances db) (creditGrants db) (usageLedger db ++ [entry])
           (N.succ (nextId db))).
  assert (Hdeduct :
    WalletModel.deductCredits now (BillingModel.paramUserId params)
      (BillingModel.paramCredits params) None db1
    = (Throw
         (InsufficientCreditsError (BillingModel.paramCredits params)
            (default 0
               (totalCredits <$>
                walletBalances db !! BillingModel.paramUserId params))),
       db1)).
  { destruct (walletBalances db !! BillingModel.paramUserId params)
      as [w |] eqn:Hw; cbn in Hshort |- *.
    - apply deductCredits_total_short; [exact Hw | exact Hshort].
    - apply deductCredits_no_wallet. exact Hw. }
  exists entry, db1. split.
  { unfold usageUnit.
    rewrite run_mbind, (createUsageLedgerEntry_new now params db Hnew).
    fold entry. fold db1. rewrite run_mbind, Hdeduct. reflexivity. }
  split; [reflexivity |]. split; [reflexivity |]. split; [reflexivity |].
  split; [reflexivity |]. split; [reflexivity |].
  intros now'.
  apply (usageUnit_existing now' params db1 entry false).
  unfold entriesWithKey in *. cbn [usageLedger db1].
  rewrite filter_app, Hnew, filter_cons, filter_nil.
  rewrite decide_True by reflexivity. reflexivity.
Qed.

Lemma usageUnit_insufficient_witness :
  entriesWithKey (BillingModel.paramIdempotencyKey sampleUsage) smallDB = []
  ∧ entryStorable sampleUsage
  ∧ default 0
      (totalCredits <$>
       walletBalances smallDB !! BillingModel.paramUserId sampleUsage)
    < BillingModel.paramCredits sampleUsage
  ∧ (usageUnit sampleClock sampleUsage smallDB).1
    = Throw (InsufficientCreditsError 3000 0)
  ∧ (usageUnit sampleClock sampleUsage
       (usageUnit sampleClock sampleUsage smallDB).2).1
    = Throw IdempotencyError.
Proof.
  assert (Hnew :
    entriesWithKey (BillingModel.paramIdempotencyKey sampleUsage) smallDB = [])
    by reflexivity.
  assert (Hrange : entryStorable sampleUsage)
    by (split; [vm_compute; split; discriminate | reflexivity]).
  assert (Hshort :
    default 0
      (totalCredits <$>
       walletBalances smallDB !! BillingModel.paramUserId sampleUsage)
    < BillingModel.paramCredits sampleUsage) by (vm_compute; reflexivity).
  split; [exact Hnew |]. split; [exact Hrange |]. split; [exact Hshort |].
  destruct (usageUnit_insufficient sampleClock sampleUsage smallDB Hnew
              Hrange Hshort)
    as (entry & db1 & Hrun & _ & _ & _ & _ & _ & Hretry).
  rewrite Hrun. cbn [fst snd]. split; [reflexivity |].
  rewrite (Hretry sampleClock). reflexivity.
Defined.

(** ** Credits and dollars *)

Lemma pow2_positive (k : Z) : 0 ≤ k → 0 < 2 ^ k.
Proof. intros. apply Z.pow_pos_nonneg; lia. Qed.

(** A multiple of [b] next to the quotient of [a] by [b] is within [b] of
    [a]. *)
Lemma floor_bounds (a b m : Z) :
  0 < b → a / b ≤ m ≤ a / b + 1 → a - b < m * b ≤ a + b.
Proof.
  intros Hb [Hlo Hhi].
  pose proof (Z.div_mod a b ltac:(lia)) as Hdm.
  pose proof (Z.mod_pos_bound a b Hb) as Hmod.
  assert (Hl : a / b * b ≤ m * b) by (apply Z.mul_le_mono_nonneg_r; lia).
  assert (Hh : m * b ≤ (a / b + 1) * b)
    by (apply Z.mul_le_mono_nonneg_r; lia).
  rewrite Z.mul_add_distr_r, Z.mul_1_l in Hh.
  rewrite (Z.mul_comm b (a / b)) in Hdm. lia.
Qed.

Lemma scaled_between (c l k n : Z) :
  0 < k → l ≤ c < 2 * l → k * l = n → n ≤ c * k < 2 * n.
Proof.
  intros Hk [Hlo Hhi] <-.
  assert (Hl : l * k ≤ c * k) by (apply Z.mul_le_mono_nonneg_r; lia).
  assert (Hh : c * k < 2 * l * k) by (apply Z.mul_lt_mono_pos_r; lia).
  rewrite (Z.mul_comm k l).
  replace (2 * (l * k)) with (2 * l * k) by ring. lia.
Qed.

(** X22. A whole number of credits in the credit range survives the conversion
    to dollars and back: the binary64 quotient by 1000000, multiplied by
    1000000 and rounded with [Math.round], is the number of credits again. *)
Theorem usdToCredits_creditsToUSD (credits : Z) :
  0 ≤ credits < creditRange →
  BillingConfig.usdToCredits (BillingConfig.creditsToUSD credits) = credits.
Proof.
  unfold creditRange. intros [Hc0 Hc].
  change (2 ^ 48) with 281474976710656 in Hc.
  destruct (Z.eq_dec credits 0) as [-> | Hne]; [reflexivity |].
  unfold BillingConfig.usdToCredits, BillingConfig.creditsToUSD,
    BillingConfig.CREDITS_PER_DOLLAR.
  rewrite (ofInt_exact credits) by lia.
  rewrite (ofInt_exact 1000000) by (split; [lia | reflexivity]).
  unfold Js.div, Js.precision. cbn [Js.mant Js.expo].
  rewrite (Z.abs_eq credits) by lia.
  change (Z.abs 1000000) with 1000000.
  change (Z.log2 1000000) with 19.
  destruct (Z.ltb_spec credits 0); [lia |].
  change (1000000 <? 0) with false. cbn [xorb].
  pose proof (Z.log2_spec credits ltac:(lia)) as [Hlo Hhi].
  assert (Hlog : 0 ≤ Z.log2 credits ≤ 47).
  { split; [apply Z.log2_nonneg |].
    assert (Z.log2 credits < 48); [| lia].
    apply Z.log2_lt_pow2; [lia |].
    change (2 ^ 48) with 281474976710656. lia. }
  replace (Z.max 0 (53 + 2 + 19 - Z.log2 credits))
    with (74 - Z.log2 credits) by lia.
  set (k := 74 - Z.log2 credits) in *.
  assert (Hk : 27 ≤ k ≤ 74) by lia.
  assert (HKL : 2 ^ k * 2 ^ Z.log2 credits = 2 ^ 74).
  { rewrite <- Z.pow_add_r by lia. f_equal. lia. }
  assert (HK27 : 2 ^ 27 ≤ 2 ^ k) by (apply Z.pow_le_mono_r; lia).
  replace (2 ^ Z.succ (Z.log2 credits)) with (2 * 2 ^ Z.log2 credits) in Hhi
    by (rewrite Z.pow_succ_r by lia; reflexivity).
  set (K := 2 ^ k) in *. set (L := 2 ^ Z.log2 credits) in *.
  change (2 ^ 27) with 134217728 in HK27.
  change (2 ^ 74) with 18889465931478580854784 in HKL.
  set (n := credits * K) in *.
  assert (Hn : 18889465931478580854784 ≤ n < 2 * 18889465931478580854784)
    by (apply (scaled_between credits L K); [lia | lia | exact HKL]).
  pose proof (Z.div_mod n 1000000 ltac:(lia)) as Hdm.
  pose proof (Z.mod_pos_bound n 1000000 ltac:(lia)) as Hmod.
  set (q := n / 1000000) in *.
  set (sticky := if n mod 1000000 =? 0 then 0 else 1).
  assert (Hsticky : 0 ≤ sticky ≤ 1 ∧ (sticky = 1 → 1 ≤ n mod 1000000)).
  { subst sticky. destruct (Z.eqb_spec (n mod 1000000) 0); lia. }
  set (t := 2 * q + sticky) in *.
  assert (Ht : 2 * n - 2000000 < t * 1000000 ≤ 2 * n + 1000000)
    by (subst t; lia).
  assert (Ht0 : 0 ≤ t) by lia.
  replace (0 - 0 - k - 1) with (- k - 1) by lia.
  destruct (roundMagnitude_faithful t (- k - 1) Ht0)
    as (s & Hs & Hexpo & [Hxlo Hxhi] & Hrange & Hexact).
  set (x := Js.roundMagnitude t (- k - 1)) in *.
  assert (Hs4 : s ≤ 4).
  { destruct (Z.eq_dec s 0); [lia |].
    destruct Hrange as [Hr _]; [lia |].
    assert (Hlt : 2 ^ (s + 52) < 2 ^ 57).
    { eapply Z.le_lt_trans; [exact Hr |].
      change (2 ^ 57) with 144115188075855872. lia. }
    apply Z.pow_lt_mono_r_iff in Hlt; lia. }
  assert (HS16 : 2 ^ s ≤ 2 ^ 4) by (apply Z.pow_le_mono_r; lia).
  change (2 ^ 4) with 16 in HS16.
  pose proof (pow2_positive s Hs) as HS.
  set (S := 2 ^ s) in *.
  set (mx := Js.mant x) in *.
  assert (Hmx : t - S < mx * S ≤ t + S)
    by (apply floor_bounds; [exact HS | exact (conj Hxlo Hxhi)]).
  assert (Hmx0 : 0 ≤ mx).
  { assert (0 ≤ t / S) by (apply Z.div_pos; lia). lia. }
  unfold Js.mul, Js.round. cbn [Js.mant Js.expo]. fold mx.
  destruct (Z.ltb_spec (mx * 1000000) 0); [lia |].
  rewrite Hexpo.
  destruct (roundMagnitude_faithful (mx * 1000000) (- k - 1 + s + 0)
              ltac:(lia))
    as (s2 & Hs2 & Hexpo2 & [Hylo Hyhi] & Hrange2 & Hexact2).
  set (y := Js.roundMagnitude (mx * 1000000) (- k - 1 + s + 0)) in *.
  pose proof (pow2_positive s2 Hs2) as HS2.
  assert (HP24 : 2 ^ (s + s2) ≤ 2 ^ 24).
  { destruct (Z.eq_dec s2 0) as [-> | Hne2].
    - apply Z.pow_le_mono_r; lia.
    - destruct Hrange2 as [Hr _]; [lia |].
      assert (Hlt : 2 ^ (s + s2 + 52) < 2 ^ 77).
      { replace (s + s2 + 52) with (s + (s2 + 52)) by lia.
        rewrite Z.pow_add_r by lia. fold S.
        change (2 ^ 77) with 151115727451828646838272.
        assert (Hscaled : S * 2 ^ (s2 + 52) ≤ S * (mx * 1000000))
          by (apply Z.mul_le_mono_nonneg_l; lia).
        replace (S * (mx * 1000000)) with (mx * S * 1000000) in Hscaled
          by ring.
        lia. }
      assert (s + s2 + 52 < 77)
        by (apply (Z.pow_lt_mono_r_iff 2 (s + s2 + 52) 77);
            [lia | lia | exact Hlt]).
      apply Z.pow_le_mono_r; lia. }
  assert (Hss : s + s2 ≤ 24).
  { apply (Z.pow_le_mono_r_iff 2 (s + s2) 24); [lia | lia | exact HP24]. }
  change (2 ^ 24) with 16777216 in HP24.
  rewrite Z.pow_add_r in HP24 by lia. fold S in HP24.
  set (S2 := 2 ^ s2) in *.
  set (my := Js.mant y) in *.
  assert (Hmy' : mx * 1000000 - S2 < my * S2 ≤ mx * 1000000 + S2)
    by (apply floor_bounds; [exact HS2 | exact (conj Hylo Hyhi)]).
  unfold Js.mathRound. rewrite Hexpo2.
  destruct (Z.leb_spec 0 (- k - 1 + s + 0 + s2)); [lia |].
  replace (- (- k - 1 + s + 0 + s2)) with (k + 1 - s - s2) by lia.
  set (E := k + 1 - s - s2).
  assert (HE : 0 < E) by (subst E; lia).
  rewrite (Z.pow_add_r 2 E 1) by lia. change (2 ^ 1) with 2.
  assert (HQ : 2 ^ E * (S * S2) = 2 * K).
  { subst E S S2 K. rewrite <- !Z.pow_add_r by lia.
    replace (k + 1 - s - s2 + (s + s2)) with (k + 1) by lia.
    rewrite Z.pow_add_r by lia. change (2 ^ 1) with 2. lia. }
  pose proof (pow2_positive E ltac:(lia)) as HQ0.
  set (Q := 2 ^ E) in *.
  assert (HP0 : 0 < S * S2) by (apply Z.mul_pos_pos; assumption).
  assert (Hbound : 2 * n - K < my * (S * S2) < 2 * n + K).
  { assert (Hup : my * S2 * S ≤ (mx * 1000000 + S2) * S)
      by (apply Z.mul_le_mono_nonneg_r; lia).
    assert (Hdown : (mx * 1000000 - S2) * S < my * S2 * S)
      by (apply Z.mul_lt_mono_pos_r; lia).
    replace ((mx * 1000000 + S2) * S) with (mx * S * 1000000 + S * S2) in Hup
      by ring.
    replace ((mx * 1000000 - S2) * S) with (mx * S * 1000000 - S * S2)
      in Hdown by ring.
    replace (my * (S * S2)) with (my * S2 * S) by ring.
    lia. }
  assert (HnK : n = credits * K) by reflexivity.
  fold my.
  clearbody n Q E K S S2 my mx.
  clear - Hbound HQ HQ0 HnK HP0 Hc0.
  set (P := S * S2) in *. clearbody P.
  symmetry.
  apply (Z.div_unique_pos (2 * my + Q) (Q * 2) credits
           (2 * my + Q - Q * 2 * credits)); [| lia].
  assert (Hlow : 2 * Q * credits * P - Q * P < 2 * my * P + P).
  { replace (2 * Q * credits * P) with (2 * credits * (Q * P)) by ring.
    rewrite HQ. lia. }
  assert (Hhigh : 2 * my * P < 2 * Q * credits * P + Q * P).
  { replace (2 * Q * credits * P) with (2 * credits * (Q * P)) by ring.
    rewrite HQ. lia. }
  split.
  - assert (2 * Q * credits - Q < 2 * my + 1); [| lia].
    apply (Z.mul_lt_mono_pos_r P); [exact HP0 |].
    replace ((2 * Q * credits - Q) * P)
      with (2 * Q * credits * P - Q * P) by ring.
    replace ((2 * my + 1) * P) with (2 * my * P + P) by ring.
    exact Hlow.
  - assert (2 * my < 2 * Q * credits + Q); [| lia].
    apply (Z.mul_lt_mono_pos_r P); [exact HP0 |].
    replace ((2 * Q * credits + Q) * P)
      with (2 * Q * credits * P + Q * P) by ring.
    exact Hhigh.
Qed.

Lemma usdToCredits_creditsToUSD_witness :
  0 ≤ 97500 < creditRange
  ∧ BillingConfig.creditsToUSD 97500 = Js.mkNumber 7025615418697974 (-56)
  ∧ BillingConfig.usdToCredits (Js.mkNumber 7025615418697974 (-56)) = 97500.
Proof.
  assert (Hrange : 0 ≤ 97500 < creditRange) by (vm_compute; split; congruence).
  split; [exact Hrange |].
  assert (Husd :
    BillingConfig.creditsToUSD 97500 = Js.mkNumber 7025615418697974 (-56))
    by reflexivity.
  split; [exact Husd |]. rewrite <- Husd.
  exact (usdToCredits_creditsToUSD 97500 Hrange).
Defined.

